(** * ak-sheets: the retry executor, the merge engine, the CSV writer and the
    facade guards, embedded from [src/index.js].

    JavaScript values are embedded as the inductive type [JsValue]; numbers are
    carried by their integer value (the sheet cells, status codes and counters
    the functions below inspect), time spans and colour fractions by exact
    rationals.  Strings are sequences of code units below 256.  Objects are
    plain objects: their own properties in the order [Object.keys] lists
    them, with [Object.prototype] behind them. *)

From Stdlib Require Import ZArith QArith Qround Qminmax Lia Bool Ascii String DecimalString.
From stdpp Require Import base option list strings.

Set Warnings "-register-all".
Local Open Scope Z_scope.

(** ** JavaScript values *)

Inductive JsValue : Type :=
| JUndefined
| JNull
| JBool (b : bool)
| JNum (n : Z)
| JStr (s : string)
| JArr (items : list JsValue)
| JObj (props : list (string * JsValue))
| JFun (source : string).   (* a function; [source] is the text [String(f)] gives *)

(** A thrown [Error]: the fields the library reads. *)
Record JsError : Type := mkError {
  err_code : JsValue;
  err_message : string
}.

(** Completion of a call: it returns or it throws. *)
Inductive Completion (A : Type) : Type :=
| Normal (a : A)
| Throw (e : JsError).
Arguments Normal {A} a.
Arguments Throw {A} e.

Definition TypeError (msg : string) : JsError := mkError JUndefined msg.

(** [String.prototype.includes]. *)
Fixpoint includes (s sub : string) : bool :=
  if String.prefix sub s then true
  else match s with
       | EmptyString => false
       | String _ s' => includes s' sub
       end.

(** Truthiness of a string: only the empty string is falsy. *)
Definition str_truthy (s : string) : bool :=
  match s with EmptyString => false | _ => true end.

(** [x === n] for a number literal [n]. *)
Definition strict_eq_num (x : JsValue) (n : Z) : bool :=
  match x with JNum m => m =? n | _ => false end.

(** ** Retry executor ([retryWithBackoff]) *)

(** Module-level retry configuration ([let maxRetries = 5; let maxBackoffMs = 64000]). *)
Record Config : Type := mkConfig {
  maxRetries : Z;
  maxBackoffMs : Q
}.

Definition defaultConfig : Config := mkConfig 5 (64000 # 1).

Definition isQuotaError (error : JsError) : bool :=
  strict_eq_num (err_code error) 429
  || (str_truthy (err_message error) && includes (err_message error) "Quota exceeded")
  || (str_truthy (err_message error) && includes (err_message error) "Too many requests").

Definition isRetryableError (error : JsError) : bool :=
  isQuotaError error
  || strict_eq_num (err_code error) 500
  || strict_eq_num (err_code error) 502
  || strict_eq_num (err_code error) 503
  || strict_eq_num (err_code error) 504.

(** [Math.round]. *)
Definition Math_round (x : Q) : Z := Qfloor (x + (1 # 2))%Q.

(** [Math.pow(2, currentRetry) * 1000]. *)
Definition baseDelay (currentRetry : nat) : Q := inject_Z (2 ^ Z.of_nat currentRetry * 1000).

(** [Math.min(baseDelay + jitter, maxBackoffConfig)] with [jitter = Math.random() * 1000]. *)
Definition backoffDelay (currentRetry : nat) (rnd : Q) (maxBackoffConfig : Q) : Q :=
  Qmin (baseDelay currentRetry + rnd * (1000 # 1))%Q maxBackoffConfig.

(** What the executor does besides returning: invocations of the wrapped
    call, log records and timer waits, in program order. *)
Inductive Event : Type :=
| Invoke
| LogError (retryCount : nat) (isQuota isRetryable : bool)
| LogWarn (retryCount : nat) (delayMs : Z) (isQuota : bool)
| Sleep (delay : Q).

Inductive Outcome (T : Type) : Type :=
| Returned (v : T)
| FellThrough            (* the loop ended without running its body: [undefined] *)
| Thrown (e : JsError)
| OutOfFuel.
Arguments Returned {T} v.
Arguments FellThrough {T}.
Arguments Thrown {T} e.
Arguments OutOfFuel {T}.

Section Executor.
Context {W T : Type}.
(** The wrapped operation acts on the state of the world [W]. *)
Variable apiCall : W -> Completion T * W.
(** The values [Math.random()] hands to the executor, in order. *)
Variable random : nat -> Q.
Variable maxRetriesConfig : Z.
Variable maxBackoffConfig : Q.

Fixpoint retry_loop (fuel : nat) (currentRetry : nat) (st : W)
  : Outcome T * W * list Event :=
  if Z.of_nat currentRetry <=? maxRetriesConfig then
    match fuel with
    | O => (OutOfFuel, st, [])
    | S fuel' =>
        match apiCall st with
        | (Normal v, st') => (Returned v, st', [Invoke])
        | (Throw error, st') =>
            if negb (isRetryableError error) || (maxRetriesConfig <=? Z.of_nat currentRetry)
            then (Thrown error, st',
                  [Invoke; LogError currentRetry (isQuotaError error) (isRetryableError error)])
            else
              let delay := backoffDelay currentRetry (random currentRetry) maxBackoffConfig in
              let '(o, st'', evs) := retry_loop fuel' (S currentRetry) st' in
              (o, st'',
               Invoke :: LogWarn (currentRetry + 1) (Math_round delay) (isQuotaError error)
                      :: Sleep delay :: evs)
        end
    end
  else (FellThrough, st, []).

(** The world before the [k]-th invocation (from 0) when every earlier
    invocation was made, and what that invocation answers. *)
Fixpoint state_before (k : nat) (st : W) : W :=
  match k with
  | O => st
  | S k' => state_before k' (snd (apiCall st))
  end.

Definition nth_result (k : nat) (st : W) : Completion T :=
  fst (apiCall (state_before k st)).
End Executor.

(** The loop runs its body at most [maxRetriesConfig + 1] times. *)
Definition loopBound (maxRetriesConfig : Z) : nat := Z.to_nat (maxRetriesConfig + 1).

Definition retryWithBackoff {W T : Type} (cfg : Config) (random : nat -> Q)
    (apiCall : W -> Completion T * W)
    (customMaxRetries : option Z) (customMaxBackoff : option Q) (st : W)
  : Outcome T * W * list Event :=
  let maxRetriesConfig := default (maxRetries cfg) customMaxRetries in
  let maxBackoffConfig := default (maxBackoffMs cfg) customMaxBackoff in
  retry_loop apiCall random maxRetriesConfig maxBackoffConfig
             (loopBound maxRetriesConfig) 0 st.

Fixpoint invocations (evs : list Event) : nat :=
  match evs with
  | [] => O
  | Invoke :: evs' => S (invocations evs')
  | _ :: evs' => invocations evs'
  end.

Fixpoint delays (evs : list Event) : list Q :=
  match evs with
  | [] => []
  | Sleep d :: evs' => d :: delays evs'
  | _ :: evs' => delays evs'
  end.

(** The waits that come before each invocation of a run: one list of waits
    per invocation, in order, and the waits after the last invocation. *)
Fixpoint waits_before (pending : list Q) (evs : list Event) : list (list Q) * list Q :=
  match evs with
  | [] => ([], pending)
  | Invoke :: evs' => let '(l, rest) := waits_before [] evs' in (pending :: l, rest)
  | Sleep d :: evs' => waits_before (pending ++ [d]) evs'
  | _ :: evs' => waits_before pending evs'
  end.

Definition outcome {W T : Type} (r : Outcome T * W * list Event) : Outcome T := fst (fst r).
Definition final_state {W T : Type} (r : Outcome T * W * list Event) : W := snd (fst r).
Definition events {W T : Type} (r : Outcome T * W * list Event) : list Event := snd r.

(** An operation that always answers 503, on a world that counts the calls. *)
Definition always503 (n : nat) : Completion unit * nat :=
  (Throw (mkError (JNum 503) "Service Unavailable"), S n).

(** ** Values as the library inspects them *)

(** Truthiness ([x || y], [x && y], [if (x)]). *)
Definition js_truthy (v : JsValue) : bool :=
  match v with
  | JUndefined | JNull => false
  | JBool b => b
  | JNum n => negb (n =? 0)
  | JStr s => str_truthy s
  | JArr _ | JObj _ | JFun _ => true
  end.

Definition is_undefined (v : JsValue) : bool :=
  match v with JUndefined => true | _ => false end.

(** [typeof v === 'function']. *)
Definition is_function (v : JsValue) : bool :=
  match v with JFun _ => true | _ => false end.

(** [v === undefined || v === null]. *)
Definition is_nullish (v : JsValue) : bool :=
  match v with JUndefined | JNull => true | _ => false end.

(** [typeof v === 'object'] (it holds of [null] too). *)
Definition typeof_object (v : JsValue) : bool :=
  match v with JNull | JArr _ | JObj _ => true | _ => false end.

(** [x || y]. *)
Definition js_or (x y : JsValue) : JsValue := if js_truthy x then x else y.

(** Decimal digits of an integer-valued number. *)
Definition string_of_Z (n : Z) : string := NilZero.string_of_int (Z.to_int n).

(** String conversion ([String(v)], template literals, property keys). *)
Fixpoint js_toString (v : JsValue) : string :=
  match v with
  | JUndefined => "undefined"
  | JNull => "null"
  | JBool true => "true"
  | JBool false => "false"
  | JNum n => string_of_Z n
  | JStr s => s
  | JArr items =>
      String.concat ","
        (List.map (fun x => match x with
                            | JUndefined | JNull => EmptyString
                            | _ => js_toString x
                            end) items)
  | JObj _ => "[object Object]"
  | JFun source => source
  end.

(** A plain object: its own properties in the order [Object.keys] lists
    them (array indices in ascending order, then the other names in insertion
    order); a name occurs once.  Its prototype is [Object.prototype]. *)
Abbreviation JsObject := (list (string * JsValue)).

(** [Object.hasOwn(obj, key)]. *)
Fixpoint obj_has (obj : JsObject) (key : string) : bool :=
  match obj with
  | [] => false
  | (k, _) :: rest => String.eqb k key || obj_has rest key
  end.

(** The own property under a name, if there is one. *)
Fixpoint obj_own (obj : JsObject) (key : string) : option JsValue :=
  match obj with
  | [] => None
  | (k, v) :: rest => if String.eqb k key then Some v else obj_own rest key
  end.

(** The text of a built-in function. *)
Definition nativeFunction (name : string) : JsValue :=
  JFun ("function " ++ name ++ "() { [native code] }")%string.

(** What reading a property of [Object.prototype] gives: its methods, and
    under [__proto__] the prototype itself, an object with no enumerable
    property. *)
Definition Object_prototype : JsObject :=
  [("constructor", nativeFunction "Object");
   ("__defineGetter__", nativeFunction "__defineGetter__");
   ("__defineSetter__", nativeFunction "__defineSetter__");
   ("hasOwnProperty", nativeFunction "hasOwnProperty");
   ("__lookupGetter__", nativeFunction "__lookupGetter__");
   ("__lookupSetter__", nativeFunction "__lookupSetter__");
   ("isPrototypeOf", nativeFunction "isPrototypeOf");
   ("propertyIsEnumerable", nativeFunction "propertyIsEnumerable");
   ("toString", nativeFunction "toString");
   ("valueOf", nativeFunction "valueOf");
   ("__proto__", JObj []);
   ("toLocaleString", nativeFunction "toLocaleString")].

(** A name that every plain object inherits. *)
Definition inheritedName (key : string) : bool := obj_has Object_prototype key.

(** The end of the prototype chain: the property of [Object.prototype], or
    [undefined]. *)
Definition inherited (key : string) : JsValue :=
  default JUndefined (obj_own Object_prototype key).

(** [obj[key]]: the own property, else the inherited one, else [undefined]. *)
Fixpoint obj_get (obj : JsObject) (key : string) : JsValue :=
  match obj with
  | [] => inherited key
  | (k, v) :: rest => if String.eqb k key then v else obj_get rest key
  end.

Definition is_digit (c : ascii) : bool :=
  let n := nat_of_ascii c in ((48 <=? n) && (n <=? 57))%nat.

Fixpoint digits_value (acc : N) (s : string) : option N :=
  match s with
  | EmptyString => Some acc
  | String c s' =>
      if is_digit c
      then digits_value (10 * acc + (N.of_nat (nat_of_ascii c) - 48))%N s'
      else None
  end.

(** The array index a property name spells: a decimal numeral with no
    leading zero, below [2^32 - 1]. *)
Definition arrayIndex (key : string) : option N :=
  match key with
  | EmptyString => None
  | String "0" EmptyString => Some 0%N
  | String "0" _ => None
  | _ =>
      match digits_value 0 key with
      | Some n => if (n <? 4294967295)%N then Some n else None
      | None => None
      end
  end.

(** A new array index takes its place among the indices that open the key
    order. *)
Fixpoint insert_index (obj : JsObject) (key : string) (n : N) (v : JsValue) : JsObject :=
  match obj with
  | [] => [(key, v)]
  | (k, w) :: rest =>
      match arrayIndex k with
      | Some m =>
          if (m <? n)%N then (k, w) :: insert_index rest key n v
          else (key, v) :: (k, w) :: rest
      | None => (key, v) :: (k, w) :: rest
      end
  end.

(** An own property takes a new value and keeps its place. *)
Fixpoint obj_update (obj : JsObject) (key : string) (v : JsValue) : JsObject :=
  match obj with
  | [] => []
  | (k, w) :: rest =>
      if String.eqb k key then (k, v) :: rest else (k, w) :: obj_update rest key v
  end.

(** [obj[key] = v].  An own property is updated.  A new name [__proto__]
    creates no property: the assignment goes to the setter of
    [Object.prototype] (which makes an object or [null] the prototype, a
    change that is not carried here; a string, number or boolean, as the
    cells of a sheet and the fields of a CSV text are, is ignored).  A new
    array index is listed among the indices, any other new name last. *)
Definition obj_set (obj : JsObject) (key : string) (v : JsValue) : JsObject :=
  if obj_has obj key then obj_update obj key v
  else if String.eqb key "__proto__" then obj
  else
    match arrayIndex key with
    | Some n => insert_index obj key n v
    | None => obj ++ [(key, v)]
    end.

(** A new name that [obj[key] = v] puts last. *)
Definition insertionKey (key : string) : bool :=
  negb (String.eqb key "__proto__")
  && match arrayIndex key with Some _ => false | None => true end.

(** A name that is read and written as an own property only. *)
Definition ordinaryKey (key : string) : bool := insertionKey key && negb (inheritedName key).

Global Arguments inherited : simpl never.
Global Arguments inheritedName : simpl never.
Global Arguments arrayIndex : simpl never.
Global Arguments insertionKey : simpl never.
Global Arguments ordinaryKey : simpl never.

(** [Object.keys(obj)]. *)
Definition Object_keys (obj : JsObject) : list string := List.map fst obj.

(** [arr[i]]: [undefined] out of range. *)
Definition arr_get (arr : list JsValue) (i : nat) : JsValue := default JUndefined (arr !! i).

(** ** Spreadsheet data ([SpreadsheetData = string | any[][] | Record<string, any>[]]) *)

Abbreviation Row := (list JsValue).

Inductive SpreadsheetData : Type :=
| Csv (text : string)
| Grid (rows : list Row)
| Records (rows : list JsObject).

(** ** Merge engine ([mergeData]) *)

Section Merge.
(** [Papa.parse(text).data] of the papaparse package: rows of string fields. *)
Variable Papa_parse_data : string -> list (list string).

(** A row of an array read as a value: [undefined] when there is none. *)
Definition row_value (r : option Row) : JsValue :=
  match r with Some cells => JArr cells | None => JUndefined end.

(** [hs.map(header => item[header] || '')] for a header row [hs]. *)
Definition projected (hs : Row) (item : JsObject) : Row :=
  List.map (fun header => js_or (obj_get item (js_toString header)) (JStr EmptyString)) hs.

(** [headers.map(header => item[header] || '')]; [headers] is [undefined]
    when the existing grid has no row 0. *)
Definition projectRecord (headers : option Row) (item : JsObject) : Completion Row :=
  match headers with
  | None => Throw (TypeError "Cannot read properties of undefined (reading 'map')")
  | Some hs => Normal (projected hs item)
  end.

(** [items.map(f)] for an [f] that may throw: the first throw ends the map. *)
Fixpoint map_completion {A B : Type} (f : A -> Completion B) (items : list A)
  : Completion (list B) :=
  match items with
  | [] => Normal []
  | x :: rest =>
      match f x with
      | Throw e => Throw e
      | Normal y =>
          match map_completion f rest with
          | Throw e => Throw e
          | Normal ys => Normal (y :: ys)
          end
      end
  end.

(** The new data as rows ([processedNewData]). *)
Definition processNewData (headers : option Row) (newData : SpreadsheetData)
  : Completion (list Row) :=
  let newData :=
    match newData with
    | Csv text => Grid (List.map (List.map JStr) (Papa_parse_data text))
    | other => other
    end in
  match newData with
  | Grid (first :: rest) => Normal (first :: rest)   (* [Array.isArray(newData[0])] *)
  | Grid [] => Normal []                             (* [[].map(...)] *)
  | Records items => map_completion (projectRecord headers) items
  | Csv _ => Normal []               (* not reached: the text was parsed above *)
  end.

(** The body of [for (let i = 0; i < existingData.length; i++)], run from
    index [i] over the rows [existingData[i..]]. *)
Fixpoint merge_rows (i : nat) (existingFrom : list Row) (processedNewData : list Row)
  : list JsValue :=
  match existingFrom with
  | [] => []
  | row :: rest =>
      (if (i =? 0)%nat then []
       else if (i <=? length processedNewData)%nat
            then [row_value (processedNewData !! (i - 1)%nat)]
            else [JArr row])
        ++ merge_rows (S i) rest processedNewData
  end.

Definition mergeData (existingData : list Row) (newData : SpreadsheetData)
  : Completion (list JsValue) :=
  let headers := existingData !! O in
  match processNewData headers newData with
  | Throw e => Throw e
  | Normal processedNewData =>
      Normal (row_value headers :: merge_rows 0 existingData processedNewData)
  end.
End Merge.

(** ** Strings as the CSV writer handles them *)

Definition LF : string := String (ascii_of_nat 10) EmptyString.
Definition DQ : ascii := ascii_of_nat 34.
Definition quote : string := String DQ EmptyString.

(** White space and line terminators that [String.prototype.trim] strips
    (the code units below 256 among them). *)
Definition is_js_space (c : ascii) : bool :=
  let n := nat_of_ascii c in
  ((9 <=? n) && (n <=? 13) || (n =? 32) || (n =? 160))%nat.

Fixpoint trimStart (s : string) : string :=
  match s with
  | String c s' => if is_js_space c then trimStart s' else s
  | EmptyString => EmptyString
  end.

(** Drops trailing white space: a space is kept when something that is not
    white space follows it. *)
Fixpoint trimEnd (s : string) : string :=
  match s with
  | EmptyString => EmptyString
  | String c s' =>
      match trimEnd s' with
      | EmptyString => if is_js_space c then EmptyString else String c EmptyString
      | t => String c t
      end
  end.

(** [s.trim()]. *)
Definition trim (s : string) : string := trimEnd (trimStart s).

(** [s.replace(/\x22/g, r)]: every double quote becomes [r]. *)
Fixpoint replace_quotes (r : string) (s : string) : string :=
  match s with
  | EmptyString => EmptyString
  | String c s' =>
      if Ascii.eqb c DQ then (r ++ replace_quotes r s')%string
      else String c (replace_quotes r s')
  end.

(** [s.substring(0, limit)]; a negative limit counts as 0. *)
Definition substring0 (limit : Z) (s : string) : string := String.substring 0 (Z.to_nat limit) s.

(** [s.slice(from, to)] for indices [0 <= from], [0 <= to]. *)
Definition slice (from to : nat) (s : string) : string := String.substring from (to - from) s.

Definition hex_digit (n : nat) : ascii :=
  ascii_of_nat (if (n <? 10)%nat then 48 + n else 87 + n).

(** One code unit inside a JSON string literal. *)
Definition json_escape_char (c : ascii) : string :=
  let n := nat_of_ascii c in
  if (n =? 34)%nat then String "\" (String DQ EmptyString)
  else if (n =? 92)%nat then "\\"
  else if (n =? 8)%nat then "\b"
  else if (n =? 12)%nat then "\f"
  else if (n =? 10)%nat then "\n"
  else if (n =? 13)%nat then "\r"
  else if (n =? 9)%nat then "\t"
  else if (n <? 32)%nat
       then ("\u00" ++ String (hex_digit (n / 16)) (String (hex_digit (n mod 16)) EmptyString))%string
       else String c EmptyString.

Fixpoint json_escape (s : string) : string :=
  match s with
  | EmptyString => EmptyString
  | String c s' => (json_escape_char c ++ json_escape s')%string
  end.

Definition json_quote (s : string) : string :=
  String DQ (json_escape s ++ quote)%string.

(** [JSON.stringify(v, null, 0)] for a value that is not [undefined] nor a
    function; inside an array these print as [null], inside an object a
    property with such a value is left out. *)
Fixpoint JSON_stringify (v : JsValue) : string :=
  match v with
  | JUndefined | JFun _ => "null"
  | JNull => "null"
  | JBool true => "true"
  | JBool false => "false"
  | JNum n => string_of_Z n
  | JStr s => json_quote s
  | JArr items => ("[" ++ String.concat "," (List.map JSON_stringify items) ++ "]")%string
  | JObj props =>
      ("{" ++ String.concat ","
                (List.flat_map
                   (fun kv => match kv with
                              | (k, w) =>
                                  if is_undefined w || is_function w then []
                                  else [(json_quote k ++ ":" ++ JSON_stringify w)%string]
                              end) props)
           ++ "}")%string
  end.

(** ** CSV writer ([makeCSVFromData]) *)

(** [keysSet.add(key)] on a [Set] listed in insertion order. *)
Definition set_add (keysSet : list string) (key : string) : list string :=
  if existsb (String.eqb key) keysSet then keysSet else keysSet ++ [key].

Definition getUniqueKeys (data : list JsObject) : list string :=
  fold_left (fun keysSet item => fold_left set_add (Object_keys item) keysSet) data [].

Definition convertToSafeValue (value : JsValue) : JsValue :=
  if is_nullish value then JStr EmptyString
  else if typeof_object value then JStr (replace_quotes "'" (JSON_stringify value))
  else value.

(** The text of a cell before quoting:
    [convertToSafeValue(v)?.toString()?.trim()?.substring(0, charLimit)]. *)
Definition cellText (charLimit : Z) (v : JsValue) : string :=
  substring0 charLimit (trim (js_toString (convertToSafeValue v))).

(** The callback of [columns.map] for one record and one column. *)
Definition csvCell (charLimit : Z) (item : JsObject) (col : string) : string :=
  if is_nullish (obj_get item col) then EmptyString
  else (quote ++ replace_quotes (quote ++ quote) (cellText charLimit (obj_get item col))
              ++ quote)%string.

Definition csvRow (charLimit : Z) (columns : list string) (item : JsObject) : string :=
  (String.concat "," (List.map (csvCell charLimit item) columns) ++ LF)%string.

Definition makeCSVFromData (data : list JsObject) (charLimit : Z) : string :=
  match data with
  | [] => EmptyString
  | _ =>
      let columns := getUniqueKeys data in
      fold_left (fun csvString item => (csvString ++ csvRow charLimit columns item)%string)
                data (String.concat "," columns ++ LF)%string
  end.

Definition defaultCharLimit : Z := 50000.

(** Text between double quotes. *)
Definition quoted (s : string) : string := (quote ++ s ++ quote)%string.

(** Reading doubled quotes back: every pair of double quotes stands for
    one; a double quote on its own is not the image of any text. *)
Fixpoint undouble (s : string) : option string :=
  match s with
  | EmptyString => Some EmptyString
  | String c s' =>
      if Ascii.eqb c DQ
      then match s' with
           | String c' s'' =>
               if Ascii.eqb c' DQ then option_map (String DQ) (undouble s'') else None
           | EmptyString => None
           end
      else option_map (String c) (undouble s')
  end.

(** ** Tab colour of [addTab] *)

(** Value of a hexadecimal digit. *)
Definition hex_value (c : ascii) : option Z :=
  let n := Z.of_nat (nat_of_ascii c) in
  if (48 <=? n) && (n <=? 57) then Some (n - 48)
  else if (97 <=? n) && (n <=? 102) then Some (n - 87)
  else if (65 <=? n) && (n <=? 70) then Some (n - 55)
  else None.

(** The digits that open the string, read in base 16: [None] when there is
    no digit, otherwise the value of the longest run of digits. *)
Fixpoint hex_digits (acc : option Z) (s : string) : option Z :=
  match s with
  | EmptyString => acc
  | String c s' =>
      match hex_value c with
      | Some d => hex_digits (Some (16 * default 0 acc + d)) s'
      | None => acc
      end
  end.

(** [parseInt(s, 16)]: leading white space, a sign and a [0x] prefix are
    skipped, the digits that follow are read, what comes after them is
    ignored; [None] is [NaN]. *)
Definition parseInt16 (s : string) : option Z :=
  let s1 := trimStart s in
  let '(sign, s2) :=
    match s1 with
    | String "-" r => (-1, r)
    | String "+" r => (1, r)
    | _ => (1, s1)
    end in
  let s3 :=
    match s2 with
    | String "0" (String "x" r) => r
    | String "0" (String "X" r) => r
    | _ => s2
    end in
  option_map (Z.mul sign) (hex_digits None s3).

(** A colour channel: [parseInt(part, 16) / 255], a number or [NaN]. *)
Definition channel (part : string) : option Q :=
  option_map (fun n => inject_Z n / (255 # 1))%Q (parseInt16 part).

Record TabColor : Type := mkTabColor {
  red : option Q;
  green : option Q;
  blue : option Q
}.

(** Options of [addTab]: [{ index, hidden = false, tabColor }]. *)
Record TabOptions : Type := mkTabOptions {
  opt_index : option Z;
  opt_hidden : option bool;
  opt_tabColor : option string
}.

(** Properties of the [addSheet] request. *)
Record AddSheetProperties : Type := mkAddSheet {
  prop_title : string;
  prop_index : option Z;
  prop_hidden : bool;
  prop_tabColor : option TabColor
}.

(** The request object [addTab] builds; the colour is present when
    [tabColor] is a non-empty string. *)
Definition addSheetRequest (tabName : string) (options : TabOptions) : AddSheetProperties :=
  {| prop_title := tabName;
     prop_index := opt_index options;
     prop_hidden := default false (opt_hidden options);
     prop_tabColor :=
       match opt_tabColor options with
       | Some tabColor =>
           if str_truthy tabColor
           then Some {| red := channel (slice 1 3 tabColor);
                        green := channel (slice 3 5 tabColor);
                        blue := channel (slice 5 7 tabColor) |}
           else None
       | None => None
       end |}.

(** ** Facade: client handles, entry guards, [getURL], [writeToSheet] *)

Inductive ApiClient : Type := GoogleSheets | GoogleDrive.

(** The module-level handles [sheets] and [drive]; [None] is [null]. *)
Record Client : Type := mkClient {
  sheets : option ApiClient;
  drive : option ApiClient
}.

(** The handles before [init] has run, and after it. *)
Definition uninitialized : Client := mkClient None None.
Definition initialized : Client := mkClient (Some GoogleSheets) (Some GoogleDrive).

Definition notInitialized : JsError :=
  mkError JUndefined "ak-sheets not initialized. Call init() first.".

(** Truthiness of a handle: [null] is falsy. *)
Definition is_set (handle : option ApiClient) : bool :=
  match handle with Some _ => true | None => false end.

(** The exported functions. *)
Inductive Operation : Type :=
| OpCreateSheet | OpWriteToSheet | OpWriteToSheetTabs | OpShareSheet | OpDeleteSheet
| OpGetURL | OpListOwnedSpreadsheets | OpDeleteAllSheets | OpMakeCSVFromData | OpGetSheet
| OpUpdateSheet | OpReadXlsxFile | OpCsvToJson | OpJsonToCsv | OpAppendToSheet
| OpClearSheet | OpGetSheetInfo | OpGetRange | OpWriteToRange
| OpAddTab | OpDeleteTab | OpRenameTab | OpDuplicateTab | OpListTabs.

(** The test that opens each function body: [true] when the function goes
    on, [false] when it throws the error above.  Functions that open with no
    test go on. *)
Definition entryGuard (op : Operation) (c : Client) : bool :=
  match op with
  | OpCreateSheet => is_set (sheets c) && is_set (drive c)
  | OpShareSheet | OpDeleteSheet | OpListOwnedSpreadsheets => is_set (drive c)
  | OpGetURL | OpMakeCSVFromData | OpReadXlsxFile | OpCsvToJson | OpJsonToCsv
  | OpDeleteAllSheets => true
  | OpWriteToSheet | OpWriteToSheetTabs | OpGetSheet | OpUpdateSheet | OpAppendToSheet
  | OpClearSheet | OpGetSheetInfo | OpGetRange | OpWriteToRange
  | OpAddTab | OpDeleteTab | OpRenameTab | OpDuplicateTab | OpListTabs =>
      is_set (sheets c)
  end.

(** A call of an exported function: the entry test, then the rest of the
    body, which alone acts on the world [W] (the remote service). *)
Definition invoke {W A : Type} (op : Operation) (c : Client)
    (body : W -> Completion A * W) (w : W) : Completion A * W :=
  if entryGuard op c then body w else (Throw notInitialized, w).

(** [deleteAllSheets] opens with no test of its own; the first thing it does
    is await [listOwnedSpreadsheets()], and what that throws is logged and
    thrown again. *)
Definition deleteAllSheets {W A B : Type} (c : Client)
    (listBody : W -> Completion A * W) (deleteEach : A -> W -> Completion B * W) (w : W)
  : Completion B * W :=
  invoke OpDeleteAllSheets c
    (fun w0 => match invoke OpListOwnedSpreadsheets c listBody w0 with
               | (Normal spreadsheets, w1) => deleteEach spreadsheets w1
               | (Throw error, w1) => (Throw error, w1)
               end) w.

Definition getURL (spreadsheetId : string) : string :=
  ("https://docs.google.com/spreadsheets/d/" ++ spreadsheetId)%string.

(** Functions that reach the remote service. *)
Definition isRemote (op : Operation) : bool :=
  match op with
  | OpGetURL | OpMakeCSVFromData | OpReadXlsxFile | OpCsvToJson | OpJsonToCsv => false
  | _ => true
  end.

(** What a run of the facade leaves behind, in program order: the events of
    the retry executor around each remote request, and the log records of
    the recovery path. *)
Inductive Trace : Type :=
| Retry (ev : Event)
| WarnNotFound (spreadsheetId : string)    (* 'Spreadsheet not found, creating new one' *)
| Recreated (newSpreadsheetId : string)    (* [createSheet()] returned *)
| ErrorFailedToWrite (spreadsheetId : string)
| ErrorFailedToUpdate (spreadsheetId : string).

(** A run ends, or the fuel of the model is used up before it does. *)
Inductive Run (A : Type) : Type :=
| Finished (c : Completion A)
| NoFuel.
Arguments Finished {A} c.
Arguments NoFuel {A}.

Fixpoint recreations (t : list Trace) : nat :=
  match t with
  | [] => O
  | Recreated _ :: t' => S (recreations t')
  | _ :: t' => recreations t'
  end.

Section WriteToSheet.
Context {W : Type}.
Variable cfg : Config.
Variable random : nat -> Q.
(** The remote service, as the client library presents it:
    [sheets.spreadsheets.get] (the tab titles of its answer),
    [sheets.spreadsheets.batchUpdate] with one [addSheet] request,
    [sheets.spreadsheets.values.get] (the [data.values] of its answer, if any),
    [sheets.spreadsheets.values.update] of a range with rows of values (the
    [data] of its answer, if any). *)
Variable spreadsheets_get : string -> W -> Completion (list string) * W.
Variable batchUpdate_addSheet : string -> string -> W -> Completion unit * W.
Variable values_get : string -> string -> W -> Completion (option (list Row)) * W.
Variable values_update : string -> string -> list JsValue -> W -> Completion (option JsValue) * W.
(** The rest of the body of [createSheet(undefined, tabs)]: the name is the
    generated one. *)
Variable createSheet_body : list string -> W -> Completion string * W.
(** [Papa.parse(text).data] and [Papa.unparse(rows)] of the papaparse package. *)
Variable Papa_parse_data : string -> list (list string).
Variable Papa_unparse : list Row -> string.

Definition createSheet (c : Client) (tabs : list string) (w : W) : Completion string * W :=
  invoke OpCreateSheet c (createSheet_body tabs) w.

(** Rows of string fields as the values of a request. *)
Definition fieldRows (rows : list (list string)) : list JsValue :=
  List.map (fun row => JArr (List.map JStr row)) rows.

(** [await retryWithBackoff(() => call)]: the value ([None] when the
    executor falls through and yields [undefined]), or the error thrown. *)
Definition awaitRetry {T : Type} (call : W -> Completion T * W) (w : W)
  : Run (option T) * W * list Trace :=
  let '(o, w', evs) := retryWithBackoff cfg random call None None w in
  (match o with
   | Returned v => Finished (Normal (Some v))
   | FellThrough => Finished (Normal None)
   | Thrown e => Finished (Throw e)
   | OutOfFuel => NoFuel
   end, w', List.map Retry evs).

(** The conversion that opens [writeToSheet]: arrays become CSV text. *)
Definition rowsToCsv (rows : SpreadsheetData) : string :=
  match rows with
  | Csv text => text
  | Records (first :: rest) => makeCSVFromData (first :: rest) defaultCharLimit
  | Records [] => Papa_unparse []
  | Grid g => Papa_unparse g
  end.

Definition noCells : JsValue := JObj [("updatedCells", JNum 0)].

(** The [values.update] request and what the function returns after it. *)
Definition updateValues (spreadsheetId range text : string) (w : W)
  : Run JsValue * W * list Trace :=
  let '(r, w', t) :=
    awaitRetry (values_update spreadsheetId range (fieldRows (Papa_parse_data text))) w in
  (match r with
   | Finished (Normal (Some (Some data))) => Finished (Normal data)
   | Finished (Normal _) => Finished (Normal noCells)
   | Finished (Throw e) => Finished (Throw e)
   | NoFuel => NoFuel
   end, w', t).

(** The [try] block of [writeToSheet]. *)
Definition tryWrite (spreadsheetId text : string) (tab : option string) (w : W)
  : Run JsValue * W * list Trace :=
  match tab with
  | Some tabName =>
      if str_truthy tabName then
        let '(r1, w1, t1) := awaitRetry (spreadsheets_get spreadsheetId) w in
        match r1 with
        | NoFuel => (NoFuel, w1, t1)
        | Finished (Throw e) => (Finished (Throw e), w1, t1)
        | Finished (Normal None) =>
            (Finished (Throw (TypeError "Cannot read properties of undefined (reading 'data')")),
             w1, t1)
        | Finished (Normal (Some existingSheets)) =>
            let '(r2, w2, t2) :=
              if existsb (String.eqb tabName) existingSheets
              then (Finished (Normal None), w1, [])
              else awaitRetry (batchUpdate_addSheet spreadsheetId tabName) w1 in
            match r2 with
            | NoFuel => (NoFuel, w2, t1 ++ t2)
            | Finished (Throw e) => (Finished (Throw e), w2, t1 ++ t2)
            | Finished (Normal _) =>
                let '(r3, w3, t3) :=
                  updateValues spreadsheetId (tabName ++ "!A1")%string text w2 in
                (r3, w3, t1 ++ t2 ++ t3)
            end
        end
      else updateValues spreadsheetId "A1" text w
  | None => updateValues spreadsheetId "A1" text w
  end.

(** [writeToSheet]; [fuel] bounds the depth of the calls of the function to
    itself. *)
Fixpoint writeToSheet (fuel : nat) (c : Client) (spreadsheetId : string)
    (rows : SpreadsheetData) (tab : option string) (w : W)
  : Run JsValue * W * list Trace :=
  match fuel with
  | O => (NoFuel, w, [])
  | S fuel' =>
      if negb (entryGuard OpWriteToSheet c) then (Finished (Throw notInitialized), w, [])
      else
        let text := rowsToCsv rows in
        let '(r, w1, t1) := tryWrite spreadsheetId text tab w in
        match r with
        | NoFuel => (NoFuel, w1, t1)
        | Finished (Normal data) => (Finished (Normal data), w1, t1)
        | Finished (Throw error) =>
            if strict_eq_num (err_code error) 404 then
              match createSheet c [] w1 with
              | (Throw e, w2) => (Finished (Throw e), w2, t1 ++ [WarnNotFound spreadsheetId])
              | (Normal newSpreadsheetId, w2) =>
                  let '(r', w3, t3) := writeToSheet fuel' c newSpreadsheetId (Csv text) tab w2 in
                  (r', w3,
                   t1 ++ [WarnNotFound spreadsheetId; Recreated newSpreadsheetId] ++ t3)
              end
            else (Finished (Throw error), w1, t1 ++ [ErrorFailedToWrite spreadsheetId])
        end
  end.

(** [getSheet(spreadsheetId, tab, 'array')]. *)
Definition getSheetArray (c : Client) (spreadsheetId : string) (tab : option string) (w : W)
  : Run (list Row) * W * list Trace :=
  if negb (entryGuard OpGetSheet c) then (Finished (Throw notInitialized), w, [])
  else
    let range :=
      match tab with
      | Some tabName => if str_truthy tabName then (tabName ++ "!A:ZZ")%string else "A:ZZ"
      | None => "A:ZZ"
      end in
    let '(r, w1, t1) := awaitRetry (values_get spreadsheetId range) w in
    (match r with
     | Finished (Normal (Some (Some values))) => Finished (Normal values)
     | Finished (Normal _) => Finished (Normal [])
     | Finished (Throw e) => Finished (Throw e)
     | NoFuel => NoFuel
     end, w1, t1).

(** The [catch] block of [updateSheet]. *)
Definition updateSheet_catch (fuel : nat) (c : Client) (spreadsheetId : string)
    (newData : SpreadsheetData) (tab : option string) (error : JsError) (w : W)
    (t : list Trace) : Run JsValue * W * list Trace :=
  if strict_eq_num (err_code error) 404 then
    let tabs :=
      match tab with
      | Some tabName => if str_truthy tabName then [tabName] else []
      | None => []
      end in
    match createSheet c tabs w with
    | (Throw e, w1) => (Finished (Throw e), w1, t ++ [WarnNotFound spreadsheetId])
    | (Normal newSpreadsheetId, w1) =>
        let '(r, w2, t2) := writeToSheet fuel c newSpreadsheetId newData tab w1 in
        (r, w2, t ++ [WarnNotFound spreadsheetId; Recreated newSpreadsheetId] ++ t2)
    end
  else (Finished (Throw error), w, t ++ [ErrorFailedToUpdate spreadsheetId]).

(** [updateSheet]: read the rows, merge, write the merged rows back. *)
Definition updateSheet (fuel : nat) (c : Client) (spreadsheetId : string)
    (newData : SpreadsheetData) (tab : option string) (w : W)
  : Run JsValue * W * list Trace :=
  if negb (entryGuard OpUpdateSheet c) then (Finished (Throw notInitialized), w, [])
  else
    let '(r0, w0, t0) := getSheetArray c spreadsheetId tab w in
    match r0 with
    | NoFuel => (NoFuel, w0, t0)
    | Finished (Throw error) => updateSheet_catch fuel c spreadsheetId newData tab error w0 t0
    | Finished (Normal existingData) =>
        match mergeData Papa_parse_data existingData newData with
        | Throw error => updateSheet_catch fuel c spreadsheetId newData tab error w0 t0
        | Normal updatedValues =>
            let range := (js_toString (from_option JStr JUndefined tab) ++ "!A1")%string in
            let '(r1, w1, t1) :=
              awaitRetry (values_update spreadsheetId range updatedValues) w0 in
            match r1 with
            | NoFuel => (NoFuel, w1, t0 ++ t1)
            | Finished (Throw error) =>
                updateSheet_catch fuel c spreadsheetId newData tab error w1 (t0 ++ t1)
            | Finished (Normal None) =>
                updateSheet_catch fuel c spreadsheetId newData tab
                  (TypeError "Cannot read properties of undefined (reading 'data')")
                  w1 (t0 ++ t1)
            | Finished (Normal (Some data)) =>
                (Finished (Normal (default JUndefined data)), w1, t0 ++ t1)
            end
        end
    end.
End WriteToSheet.

(** A service on which every [values.update] answers 404; the world counts
    the spreadsheets created so far. *)
Definition notFound : JsError := mkError (JNum 404) "Requested entity was not found.".

Definition alwaysNotFound (spreadsheetId range : string) (values : list JsValue) (w : nat)
  : Completion (option JsValue) * nat := (Throw notFound, w).

Definition createdName (tabs : list string) (w : nat) : Completion string * nat :=
  (Normal ("sheet-" ++ string_of_Z (Z.of_nat w))%string, S w).

(** A service that has lost the spreadsheet [gone] and holds every other one. *)
Definition goneOnly (spreadsheetId range : string) (values : list JsValue) (w : nat)
  : Completion (option JsValue) * nat :=
  if String.eqb spreadsheetId "gone" then (Throw notFound, w)
  else (Normal (Some (JObj [("updatedCells", JNum 2)])), w).

Definition noTabs (spreadsheetId : string) (w : nat) : Completion (list string) * nat :=
  (Normal [], w).

Definition addSheetOk (spreadsheetId tabName : string) (w : nat) : Completion unit * nat :=
  (Normal tt, w).

(** ** Grid to records ([convertValuesToObjects]) *)

(** [headers.reduce((obj, header, index) => { obj[header] = row[index] || ''; return obj }, obj)]
    from position [index] on. *)
Fixpoint reduceHeaders (index : nat) (headers : Row) (row : Row) (obj : JsObject) : JsObject :=
  match headers with
  | [] => obj
  | header :: rest =>
      reduceHeaders (S index) rest row
        (obj_set obj (js_toString header) (js_or (arr_get row index) (JStr EmptyString)))
  end.

Definition convertValuesToObjects (values : list Row) : list JsObject :=
  match values with
  | [] => []
  | headers :: rows => List.map (fun row => reduceHeaders 0 headers row []) rows
  end.

(** Modelled from the spec: recordsToGrid, which the sources do not define
    as a function of its own.  Row 0 is the header, the union of the keys of
    all records in first-seen order; each further row holds one record's
    values by position, a missing value being the empty string; no records
    give the empty grid. *)
Definition recordsToGrid (records : list JsObject) : list Row :=
  match records with
  | [] => []
  | _ =>
      let columns := getUniqueKeys records in
      List.map JStr columns
        :: List.map (fun item =>
             List.map (fun col => if obj_has item col then obj_get item col else JStr EmptyString)
                      columns) records
  end.

(** A record with every column of the header: the record's own value, and
    the empty string for a field that is missing, null or undefined. *)
Definition completeRecord (columns : list string) (item : JsObject) : JsObject :=
  List.map (fun col =>
              (col, match obj_own item col with
                    | Some v => if is_nullish v then JStr EmptyString else v
                    | None => JStr EmptyString
                    end))
           columns.

(** ** CSV reader ([csvToJson]) *)

(** Modelled from the papaparse documentation: [Papa.parse], the reader of
    the papaparse package that [csvToJson] calls, with the comma as
    delimiter, the line feed as line break and the double quote as quote and
    escape character.  The reader returns [None] where this model does not
    follow the package: an unquoted field that holds a carriage return or
    another delimiter candidate (tab, vertical bar, semicolon, record or unit
    separator), on which the package's detection of line break and delimiter
    depends; a closing quote followed by anything but a comma, a line feed
    or the end of the text; a quoted field that is never closed. *)
Inductive Mode : Type := FieldStart | Unquoted | Quoted | QuoteSeen.

(** The rows from the cursor on: the field under the cursor, the fields
    after it in its row, the rows after that row. *)
Abbreviation Cursor := (string * list string * list (list string))%type.

Definition add_char (c : ascii) (cur : Cursor) : Cursor :=
  let '(field, fields, rows) := cur in (String c field, fields, rows).

Definition end_field (cur : Cursor) : Cursor :=
  let '(field, fields, rows) := cur in (EmptyString, field :: fields, rows).

Definition end_row (cur : Cursor) : Cursor :=
  let '(field, fields, rows) := cur in (EmptyString, [], (field :: fields) :: rows).

Definition is_comma (c : ascii) : bool := Ascii.eqb c ",".
Definition is_lf (c : ascii) : bool := (nat_of_ascii c =? 10)%nat.

(** Carriage return and the delimiter candidates other than the comma. *)
Definition unmodelled (c : ascii) : bool :=
  let n := nat_of_ascii c in
  ((n =? 13) || (n =? 9) || (n =? 124) || (n =? 59) || (n =? 30) || (n =? 31))%nat.

Fixpoint papa_scan (mode : Mode) (input : string) : option Cursor :=
  match input with
  | EmptyString =>
      match mode with
      | Quoted => None
      | _ => Some (EmptyString, [], [])
      end
  | String c rest =>
      match mode with
      | Quoted =>
          if Ascii.eqb c DQ then papa_scan QuoteSeen rest
          else option_map (add_char c) (papa_scan Quoted rest)
      | QuoteSeen =>
          if Ascii.eqb c DQ then option_map (add_char DQ) (papa_scan Quoted rest)
          else if is_comma c then option_map end_field (papa_scan FieldStart rest)
          else if is_lf c then option_map end_row (papa_scan FieldStart rest)
          else None
      | FieldStart =>
          if Ascii.eqb c DQ then papa_scan Quoted rest
          else if is_comma c then option_map end_field (papa_scan FieldStart rest)
          else if is_lf c then option_map end_row (papa_scan FieldStart rest)
          else if unmodelled c then None
          else option_map (add_char c) (papa_scan Unquoted rest)
      | Unquoted =>
          if is_comma c then option_map end_field (papa_scan FieldStart rest)
          else if is_lf c then option_map end_row (papa_scan FieldStart rest)
          else if unmodelled c then None
          else option_map (add_char c) (papa_scan Unquoted rest)
      end
  end.

(** [Papa.parse(text).data]: no rows for the empty text. *)
Definition papa_rows (text : string) : option (list (list string)) :=
  match text with
  | EmptyString => Some []
  | _ => option_map (fun cur : Cursor => let '(field, fields, rows) := cur in
                                         (field :: fields) :: rows)
                    (papa_scan FieldStart text)
  end.

(** [skipEmptyLines: true] drops the rows made of one empty field. *)
Definition testEmptyLine (row : list string) : bool :=
  match row with
  | [field] => negb (str_truthy field)
  | _ => false
  end.

(** The object of one data row under [header: true]: field [j] of the row
    goes under header name [j]. *)
Fixpoint processRow (fields : list string) (rowSource : list string) (obj : JsObject)
  : JsObject :=
  match fields, rowSource with
  | field :: fields', value :: rowSource' =>
      processRow fields' rowSource' (obj_set obj field (JStr value))
  | _, [] => obj
  | [], extra =>
      obj_set obj "__parsed_extra" (JArr (List.map JStr extra))
  end.

Fixpoint distinct (names : list string) : bool :=
  match names with
  | [] => true
  | name :: rest => negb (existsb (String.eqb name) rest) && distinct rest
  end.

(** [csvToJson(csvString)] with its default options ([header: true],
    [skipEmptyLines: true], header names trimmed).  Header names that repeat
    or spell [__parsed_extra] are outside the model. *)
Definition csvToJson (csvString : string) : option (list JsObject) :=
  match papa_rows csvString with
  | None => None
  | Some rows =>
      match List.filter (fun row => negb (testEmptyLine row)) rows with
      | [] => Some []
      | header :: data =>
          let fields := List.map trim header in
          if distinct fields && negb (existsb (String.eqb "__parsed_extra") fields)
          then Some (List.map (fun rowSource => processRow fields rowSource []) data)
          else None
      end
  end.

(** *** Vocabulary of the round-trip statements *)

(** Puts a text in front of the field under the cursor. *)
Fixpoint add_text (t : string) (cur : Cursor) : Cursor :=
  match t with
  | EmptyString => cur
  | String c t' => add_char c (add_text t' cur)
  end.

(** What the reader does at a comma and at a line feed. *)
Definition end_at (sep : ascii) (cur : Cursor) : Cursor :=
  if is_comma sep then end_field cur else end_row cur.

(** The written form [cell] of a field is read back as [value], whether a
    comma or a line feed follows it. *)
Definition reads_as (cell value : string) : Prop :=
  forall (sep : ascii) (rest : string),
    is_comma sep = true \/ is_lf sep = true ->
    papa_scan FieldStart (cell ++ String sep rest)
    = option_map (fun cur => add_text value (end_at sep cur)) (papa_scan FieldStart rest).

(** Puts a row in front of the rows at the cursor, which is at a row start. *)
Definition push_row (values : list string) (cur : Cursor) : Cursor :=
  let '(field, fields, rows) := cur in
  match values with
  | [] => cur
  | v :: vs => (v, vs, (field :: fields) :: rows)
  end.

(** A code unit that an unquoted header name may hold. *)
Definition plain_char (c : ascii) : bool :=
  negb (Ascii.eqb c DQ || is_comma c || is_lf c || unmodelled c).

Fixpoint all_chars (p : ascii -> bool) (s : string) : bool :=
  match s with
  | EmptyString => true
  | String c s' => p c && all_chars p s'
  end.

(** A header name that the writer can leave unquoted and the reader takes
    back unchanged, and that objects hold as an own property in insertion
    order. *)
Definition plainKey (k : string) : Prop :=
  k <> EmptyString /\ all_chars plain_char k = true /\ trim k = k /\ k <> "__parsed_extra" /\
  ordinaryKey k = true.

(** A value that the CSV text carries unchanged: null, undefined, or a
    string that [trim] and the character limit leave as it is. *)
Definition csvFaithful (charLimit : Z) (v : JsValue) : Prop :=
  match v with
  | JUndefined | JNull => True
  | JStr s => trim s = s /\ Z.of_nat (String.length s) <= charLimit
  | _ => False
  end.

(** A value that [x || ''] leaves as it is, or that it turns into the empty
    string as the normal form does. *)
Definition gridFaithful (v : JsValue) : Prop :=
  is_nullish v = true \/ v = JStr EmptyString \/ js_truthy v = true.

(** The rows at a cursor. *)
Definition to_rows (cur : Cursor) : list (list string) :=
  let '(field, fields, rows) := cur in (field :: fields) :: rows.

(** A line of the CSV text: its cells joined by commas, then a line feed. *)
Definition csvLine (cells : list string) : string := (String.concat "," cells ++ LF)%string.

(** The text of a field of a record: empty for a value that is not a string. *)
Definition fieldText (item : JsObject) (col : string) : string :=
  match obj_get item col with JStr s => s | _ => EmptyString end.

(** A record the CSV text carries faithfully: plain header names, faithful
    values, and at least one field with text in it. *)
Definition csvRecord (charLimit : Z) (item : JsObject) : Prop :=
  Forall (fun kv => plainKey (fst kv) /\ csvFaithful charLimit (snd kv)) item /\
  exists k s, obj_get item k = JStr s /\ s <> EmptyString.

(** A record the grid carries faithfully: names that objects list in
    insertion order, and faithful values. *)
Definition gridRecord (item : JsObject) : Prop :=
  Forall (fun kv => insertionKey (fst kv) = true /\ gridFaithful (snd kv)) item.

(** Records used to exercise the conversions. *)
Definition people : list JsObject :=
  [[("name", JStr "John"); ("city", JStr "New York, NY")];
   [("name", JStr "Jane"); ("age", JStr "25")]].

(** * Further functions of [src/index.js] *)

(** ** Observables of a run of the retry executor *)

(** Time spent waiting: the sum of the timer waits. *)
Definition total_wait (evs : list Event) : Q := fold_right Qplus 0%Q (delays evs).

Fixpoint warnings (evs : list Event) : nat :=
  match evs with
  | [] => O
  | LogWarn _ _ _ :: evs' => S (warnings evs')
  | _ :: evs' => warnings evs'
  end.

Fixpoint errorRecords (evs : list Event) : nat :=
  match evs with
  | [] => O
  | LogError _ _ _ :: evs' => S (errorRecords evs')
  | _ :: evs' => errorRecords evs'
  end.

(** An operation that fails twice with 503 and then answers. *)
Definition thirdTimeLucky (n : nat) : Completion string * nat :=
  if (n <? 2)%nat then (Throw (mkError (JNum 503) "Service Unavailable"), S n)
  else (Normal "ok", S n).

(** ** Services used as examples *)

Definition badRequest : JsError := mkError (JNum 400) "Unable to parse range".

(** Every [values.update] is refused with 400. *)
Definition alwaysBadRequest (spreadsheetId range : string) (values : list JsValue) (w : nat)
  : Completion (option JsValue) * nat := (Throw badRequest, w).

(** Every read answers a header and one data row. *)
Definition twoRows (spreadsheetId range : string) (w : nat)
  : Completion (option (list Row)) * nat :=
  (Normal (Some [[JStr "a"; JStr "b"]; [JStr "1"; JStr "2"]]), w).

(** Every read answers 404. *)
Definition readNotFound (spreadsheetId range : string) (w : nat)
  : Completion (option (list Row)) * nat := (Throw notFound, w).

(** ** Requests of [sheets.spreadsheets.batchUpdate] and [drive.permissions.create] *)

Inductive Request : Type :=
| AddSheetTitled (title : string)               (* addSheet with a title only *)
| AddSheet (properties : AddSheetProperties)    (* addSheet as [addTab] builds it *)
| DeleteSheet (sheetId : Z)
| UpdateSheetTitle (sheetId : Z) (title : string) (* updateSheetProperties, fields: 'title' *)
| DuplicateSheet (sourceSheetId : Z) (newSheetName : string).

(** The properties in the first reply of a [batchUpdate] answer, read with
    optional chaining: what is missing is [undefined]. *)
Record ReplyProperties : Type := mkReply {
  reply_sheetId : option Z;
  reply_title : option string
}.

(** Options of [shareSheet]; a field that is not given is [undefined]. *)
Record ShareOptions : Type := mkShareOptions {
  share_userEmail : option string;
  share_role : option string;
  share_type : option string
}.

Record Permission : Type := mkPermission {
  perm_role : string;
  perm_type : string;
  perm_emailAddress : string
}.

(** The destructuring with defaults that opens [shareSheet]. *)
Definition permissionOf (options : option ShareOptions) : Permission :=
  let o := default (mkShareOptions None None None) options in
  {| perm_role := default "writer" (share_role o);
     perm_type := default "user" (share_type o);
     perm_emailAddress := default "aaron.krivitzky@mixpanel.com" (share_userEmail o) |}.

(** ** Drive: listing, creating and sharing spreadsheets *)

Record SpreadsheetFile : Type := mkFile {
  file_id : string;
  file_name : string
}.

(** The [data] of an answer of [drive.files.list]. *)
Record FileList : Type := mkFileList {
  files : option (list SpreadsheetFile);
  nextPageToken : option string
}.

Definition undefinedData : JsError :=
  TypeError "Cannot read properties of undefined (reading 'data')".

(** Runs of the functions below record the events of the retry executor
    around each request; their log records are left out. *)
Module Drive.
Section Service.
Context {W : Type}.
Variable cfg : Config.
Variable random : nat -> Q.
(** [drive.files.list] with a page token ([None] is [null]),
    [sheets.spreadsheets.create] with a title (the [data.spreadsheetId] of
    its answer), [sheets.spreadsheets.batchUpdate] with its requests,
    [drive.permissions.create]. *)
Variable files_list : option string -> W -> Completion FileList * W.
Variable spreadsheets_create : string -> W -> Completion (option string) * W.
Variable batchUpdate :
  option string -> list Request -> W -> Completion (option ReplyProperties) * W.
Variable permissions_create : option string -> Permission -> W -> Completion JsValue * W.
(** The module-level [environment]. *)
Variable environment : string.

(** The [do ... while (nextPageToken)] loop of [listOwnedSpreadsheets];
    [fuel] bounds the number of pages. *)
Fixpoint listPages (fuel : nat) (nextPageToken0 : option string)
    (spreadsheets : list SpreadsheetFile) (w : W)
  : Run (list SpreadsheetFile) * W * list Trace :=
  match fuel with
  | O => (NoFuel, w, [])
  | S fuel' =>
      let '(r, w1, t1) := awaitRetry cfg random (files_list nextPageToken0) w in
      match r with
      | NoFuel => (NoFuel, w1, t1)
      | Finished (Throw error) => (Finished (Throw error), w1, t1)
      | Finished (Normal None) => (Finished (Throw undefinedData), w1, t1)
      | Finished (Normal (Some response)) =>
          let spreadsheets' := spreadsheets ++ default [] (files response) in
          match nextPageToken response with
          | Some token =>
              if str_truthy token then
                let '(r', w2, t2) := listPages fuel' (Some token) spreadsheets' w1 in
                (r', w2, t1 ++ t2)
              else (Finished (Normal spreadsheets'), w1, t1)
          | None => (Finished (Normal spreadsheets'), w1, t1)
          end
      end
  end.

Definition listOwnedSpreadsheets (fuel : nat) (c : Client) (w : W)
  : Run (list SpreadsheetFile) * W * list Trace :=
  if negb (entryGuard OpListOwnedSpreadsheets c) then (Finished (Throw notInitialized), w, [])
  else listPages fuel None [] w.

Definition shareSheet (c : Client) (spreadsheetId : option string)
    (options : option ShareOptions) (w : W) : Run (option JsValue) * W * list Trace :=
  if negb (entryGuard OpShareSheet c) then (Finished (Throw notInitialized), w, [])
  else awaitRetry cfg random (permissions_create spreadsheetId (permissionOf options)) w.

(** The end of [createSheet]: the sheet is shared in the dev environment. *)
Definition shareInDev (c : Client) (spreadsheetId : option string) (w : W) (t : list Trace)
  : Run (option string) * W * list Trace :=
  if String.eqb environment "dev" then
    let '(r, w1, t1) := shareSheet c spreadsheetId None w in
    (match r with
     | NoFuel => NoFuel
     | Finished (Throw error) => Finished (Throw error)
     | Finished (Normal _) => Finished (Normal spreadsheetId)
     end, w1, t ++ t1)
  else (Finished (Normal spreadsheetId), w, t).

(** [createSheet(name, tabs)]; the result is the identifier, [None] when
    the answer of the service holds none. *)
Definition createSheet (fuel : nat) (c : Client) (name : string) (tabs : list string) (w : W)
  : Run (option string) * W * list Trace :=
  if negb (entryGuard OpCreateSheet c) then (Finished (Throw notInitialized), w, [])
  else
    let '(r0, w0, t0) := listOwnedSpreadsheets fuel c w in
    match r0 with
    | NoFuel => (NoFuel, w0, t0)
    | Finished (Throw error) => (Finished (Throw error), w0, t0)
    | Finished (Normal existingSheets) =>
        match List.find (fun sheet => String.eqb (file_name sheet) name) existingSheets with
        | Some existingSheet => (Finished (Normal (Some (file_id existingSheet))), w0, t0)
        | None =>
            let '(r1, w1, t1) := awaitRetry cfg random (spreadsheets_create name) w0 in
            match r1 with
            | NoFuel => (NoFuel, w1, t0 ++ t1)
            | Finished (Throw error) => (Finished (Throw error), w1, t0 ++ t1)
            | Finished (Normal response) =>
                let spreadsheetId := mjoin response in
                match tabs with
                | [] => shareInDev c spreadsheetId w1 (t0 ++ t1)
                | _ :: _ =>
                    let '(r2, w2, t2) :=
                      awaitRetry cfg random
                        (batchUpdate spreadsheetId (List.map AddSheetTitled tabs)) w1 in
                    match r2 with
                    | NoFuel => (NoFuel, w2, t0 ++ t1 ++ t2)
                    | Finished (Throw error) => (Finished (Throw error), w2, t0 ++ t1 ++ t2)
                    | Finished (Normal _) =>
                        let '(r3, w3, t3) :=
                          awaitRetry cfg random (batchUpdate spreadsheetId [DeleteSheet 0]) w2 in
                        match r3 with
                        | NoFuel => (NoFuel, w3, t0 ++ t1 ++ t2 ++ t3)
                        | Finished (Throw error) =>
                            (Finished (Throw error), w3, t0 ++ t1 ++ t2 ++ t3)
                        | Finished (Normal _) =>
                            shareInDev c spreadsheetId w3 (t0 ++ t1 ++ t2 ++ t3)
                        end
                    end
                end
            end
        end
    end.

(** The service answers the listing page by page: from the token [token]
    in the world [w] it hands out [pages], the last of them without a token
    to go on with, and leaves the world [w']. *)
Inductive serves : option string -> W -> list FileList -> W -> Prop :=
| serves_last token w page w' :
    files_list token w = (Normal page, w') ->
    from_option str_truthy false (nextPageToken page) = false ->
    serves token w [page] w'
| serves_more token w page next pages w' w'' :
    files_list token w = (Normal page, w') ->
    nextPageToken page = Some next -> str_truthy next = true ->
    serves (Some next) w' pages w'' ->
    serves token w (page :: pages) w''.
End Service.
End Drive.

(** The files of the pages of a listing, in order. *)
Definition filesOf (pages : list FileList) : list SpreadsheetFile :=
  List.concat (List.map (fun page => default [] (files page)) pages).

(** A drive that lists three spreadsheets on two pages; the world counts
    the requests. *)
Definition twoPages (pageToken : option string) (w : nat) : Completion FileList * nat :=
  match pageToken with
  | None => (Normal (mkFileList (Some [mkFile "id1" "alpha"; mkFile "id2" "beta"]) (Some "p2")),
             S w)
  | Some _ => (Normal (mkFileList (Some [mkFile "id3" "alpha"]) None), S w)
  end.

(** ** Reading and appending ([getSheet], [getRange], [appendToSheet]) *)

(** [String.prototype.toLowerCase] on the letters A to Z; the format names
    hold no letter that another character is lowered to. *)
Definition lower_char (c : ascii) : ascii :=
  let n := nat_of_ascii c in
  if ((65 <=? n) && (n <=? 90))%nat then ascii_of_nat (n + 32) else c.

Fixpoint toLowerCase (s : string) : string :=
  match s with
  | EmptyString => EmptyString
  | String c s' => String (lower_char c) (toLowerCase s')
  end.

(** What [getSheet] and [getRange] return: CSV text, the rows, or records. *)
Inductive SheetData : Type :=
| AsCsv (text : string)
| AsArray (values : list Row)
| AsJson (records : list JsObject).

(** The [switch (format.toLowerCase())] that ends both functions. *)
Definition formatValues (format : string) (values : list Row) : SheetData :=
  let f := toLowerCase format in
  if String.eqb f "csv"
  then AsCsv (makeCSVFromData (convertValuesToObjects values) defaultCharLimit)
  else if String.eqb f "array" then AsArray values
  else AsJson (convertValuesToObjects values).

(** [tab ? `${tab}!${range}` : range]. *)
Definition tabRange (tab : option string) (range : string) : string :=
  match tab with
  | Some tabName => if str_truthy tabName then (tabName ++ "!" ++ range)%string else range
  | None => range
  end.

Section Reading.
Context {W : Type}.
Variable cfg : Config.
Variable random : nat -> Q.
(** [sheets.spreadsheets.values.get] (the [data.values] of its answer) and
    [sheets.spreadsheets.values.append] (the [data] of its answer). *)
Variable values_get : string -> string -> W -> Completion (option (list Row)) * W.
Variable values_append : string -> string -> list JsValue -> W -> Completion (option JsValue) * W.
(** [Papa.parse(text).data], and [Papa.parse(rows).data] for an array with
    no first element, which the package does not document. *)
Variable Papa_parse_data : string -> list (list string).
Variable Papa_parse_array : list JsValue -> Completion (list JsValue).

Definition getSheet (c : Client) (spreadsheetId : string) (tab : option string)
    (format : string) (w : W) : Run SheetData * W * list Trace :=
  if negb (entryGuard OpGetSheet c) then (Finished (Throw notInitialized), w, [])
  else
    let '(r, w1, t1) :=
      awaitRetry cfg random (values_get spreadsheetId (tabRange tab "A:ZZ")) w in
    (match r with
     | Finished (Normal response) =>
         Finished (Normal (formatValues format (default [] (mjoin response))))
     | Finished (Throw error) => Finished (Throw error)
     | NoFuel => NoFuel
     end, w1, t1).

(** [getRange] awaits its request directly, outside the retry executor. *)
Definition getRange (c : Client) (spreadsheetId range : string) (tab : option string)
    (format : string) (w : W) : Completion SheetData * W :=
  if negb (entryGuard OpGetRange c) then (Throw notInitialized, w)
  else
    match values_get spreadsheetId (tabRange tab range) w with
    | (Normal response, w1) => (Normal (formatValues format (default [] response)), w1)
    | (Throw error, w1) => (Throw error, w1)
    end.

(** The rows [appendToSheet] sends for the rows it is given. *)
Definition appendValues (existingData : list Row) (rows : SpreadsheetData)
  : Completion (list JsValue) :=
  match rows with
  | Records (first :: rest) =>
      let headers := default [] (existingData !! 0%nat) in
      Normal (List.map (fun obj => JArr (projected headers obj)) (first :: rest))
  | Grid (first :: rest) => Normal (List.map JArr (first :: rest))
  | Records [] | Grid [] => Papa_parse_array []
  | Csv text => Normal (fieldRows (Papa_parse_data text))
  end.

(** The range of the append: column A of the row after the rows read. *)
Definition appendRange (tab : option string) (existingData : list Row) : string :=
  tabRange tab ("A" ++ string_of_Z (Z.of_nat (length existingData) + 1))%string.

Definition appendToSheet (c : Client) (spreadsheetId : string) (rows : SpreadsheetData)
    (tab : option string) (w : W) : Run JsValue * W * list Trace :=
  if negb (entryGuard OpAppendToSheet c) then (Finished (Throw notInitialized), w, [])
  else
    let '(r0, w0, t0) := getSheetArray cfg random values_get c spreadsheetId tab w in
    match r0 with
    | NoFuel => (NoFuel, w0, t0)
    | Finished (Throw error) => (Finished (Throw error), w0, t0)
    | Finished (Normal existingData) =>
        match appendValues existingData rows with
        | Throw error => (Finished (Throw error), w0, t0)
        | Normal values =>
            let '(r1, w1, t1) :=
              awaitRetry cfg random
                (values_append spreadsheetId (appendRange tab existingData) values) w0 in
            (match r1 with
             | Finished (Normal (Some (Some data))) => Finished (Normal data)
             | Finished (Normal _) => Finished (Normal noCells)
             | Finished (Throw error) => Finished (Throw error)
             | NoFuel => NoFuel
             end, w1, t0 ++ t1)
        end
    end.
End Reading.

(** A read that fails once with 503 and answers from then on; the world
    counts the requests. *)
Definition flakyRead (spreadsheetId range : string) (w : nat)
  : Completion (option (list Row)) * nat :=
  if (w =? 0)%nat then (Throw (mkError (JNum 503) "Service Unavailable"), S w)
  else (Normal (Some [[JStr "a"; JStr "b"]; [JStr "1"; JStr "2"]]), S w).

Definition appendOk (spreadsheetId range : string) (values : list JsValue) (w : nat)
  : Completion (option JsValue) * nat :=
  (Normal (Some (JObj [("updatedRange", JStr range)])), w).

(** ** Tabs ([getSheetInfo], [addTab], [deleteTab], [renameTab], [duplicateTab], [listTabs]) *)

(** [new Error(message)]: an error without a code. *)
Definition NewError (message : string) : JsError := mkError JUndefined message.

(** The [properties] of one sheet of a spreadsheet; [hidden] may be missing. *)
Record SheetProperties : Type := mkSheet {
  sheet_sheetId : Z;
  sheet_title : string;
  sheet_index : Z;
  sheet_hidden : option bool
}.

(** An entry of the result of [listTabs]. *)
Record TabInfo : Type := mkTab {
  tab_id : Z;
  tab_title : string;
  tab_index : Z;
  tab_hidden : bool
}.

(** [info.sheets?.map(sheet => sheet.properties.title) || []]. *)
Definition tabTitles (info_sheets : option (list SheetProperties)) : list string :=
  match info_sheets with
  | Some sheets0 => List.map sheet_title sheets0
  | None => []
  end.

(** [info.sheets?.find(sheet => sheet.properties.title === name)]. *)
Definition findTab (name : string) (info_sheets : option (list SheetProperties))
  : option SheetProperties :=
  match info_sheets with
  | Some sheets0 => List.find (fun sheet => String.eqb (sheet_title sheet) name) sheets0
  | None => None
  end.

Definition tabExists (tabName : string) : JsError :=
  NewError ("Tab '" ++ tabName ++ "' already exists in spreadsheet")%string.

Definition tabNotFound (tabName : string) : JsError :=
  NewError ("Tab '" ++ tabName ++ "' not found in spreadsheet")%string.

Definition sourceTabNotFound (sourceTabName : string) : JsError :=
  NewError ("Source tab '" ++ sourceTabName ++ "' not found in spreadsheet")%string.

Section Tabs.
Context {W : Type}.
Variable cfg : Config.
Variable random : nat -> Q.
(** [sheets.spreadsheets.get] with the fields of the sheets (the
    [data.sheets] of its answer) and [sheets.spreadsheets.batchUpdate] (the
    properties in its first reply). *)
Variable spreadsheets_get_info : string -> W -> Completion (option (list SheetProperties)) * W.
Variable batchUpdate :
  option string -> list Request -> W -> Completion (option ReplyProperties) * W.

Definition getSheetInfo (c : Client) (spreadsheetId : string) (w : W)
  : Run (option (list SheetProperties)) * W * list Trace :=
  if negb (entryGuard OpGetSheetInfo c) then (Finished (Throw notInitialized), w, [])
  else
    let '(r, w1, t1) := awaitRetry cfg random (spreadsheets_get_info spreadsheetId) w in
    (match r with
     | Finished (Normal (Some info_sheets)) => Finished (Normal info_sheets)
     | Finished (Normal None) => Finished (Throw undefinedData)
     | Finished (Throw error) => Finished (Throw error)
     | NoFuel => NoFuel
     end, w1, t1).

(** The one [batchUpdate] request that ends the functions below, with what
    the function makes of the answer. *)
Definition sendRequest {A : Type} (spreadsheetId : string) (request : Request)
    (result : option (option ReplyProperties) -> Completion A) (w : W) (t : list Trace)
  : Run A * W * list Trace :=
  let '(r, w1, t1) := awaitRetry cfg random (batchUpdate (Some spreadsheetId) [request]) w in
  (match r with
   | Finished (Normal response) => Finished (result response)
   | Finished (Throw error) => Finished (Throw error)
   | NoFuel => NoFuel
   end, w1, t ++ t1).

(** [response.data.replies?.[0]?.<kind>?.properties] of an answer that may
    be [undefined]. *)
Definition replyOf {A : Type} (read : option ReplyProperties -> A)
    (response : option (option ReplyProperties)) : Completion A :=
  match response with
  | Some reply => Normal (read reply)
  | None => Throw undefinedData
  end.

Definition addTab (c : Client) (spreadsheetId tabName : string) (options : TabOptions) (w : W)
  : Run (option Z) * W * list Trace :=
  if negb (entryGuard OpAddTab c) then (Finished (Throw notInitialized), w, [])
  else
    let '(r0, w0, t0) := getSheetInfo c spreadsheetId w in
    match r0 with
    | NoFuel => (NoFuel, w0, t0)
    | Finished (Throw error) => (Finished (Throw error), w0, t0)
    | Finished (Normal info_sheets) =>
        if existsb (String.eqb tabName) (tabTitles info_sheets)
        then (Finished (Throw (tabExists tabName)), w0, t0)
        else sendRequest spreadsheetId (AddSheet (addSheetRequest tabName options))
               (replyOf (fun reply => reply ≫= reply_sheetId)) w0 t0
    end.

Definition deleteTab (c : Client) (spreadsheetId tabName : string) (w : W)
  : Run unit * W * list Trace :=
  if negb (entryGuard OpDeleteTab c) then (Finished (Throw notInitialized), w, [])
  else
    let '(r0, w0, t0) := getSheetInfo c spreadsheetId w in
    match r0 with
    | NoFuel => (NoFuel, w0, t0)
    | Finished (Throw error) => (Finished (Throw error), w0, t0)
    | Finished (Normal info_sheets) =>
        match findTab tabName info_sheets with
        | None => (Finished (Throw (tabNotFound tabName)), w0, t0)
        | Some targetSheet =>
            sendRequest spreadsheetId (DeleteSheet (sheet_sheetId targetSheet))
              (fun _ => Normal tt) w0 t0
        end
    end.

Definition renameTab (c : Client) (spreadsheetId oldName newName : string) (w : W)
  : Run unit * W * list Trace :=
  if negb (entryGuard OpRenameTab c) then (Finished (Throw notInitialized), w, [])
  else
    let '(r0, w0, t0) := getSheetInfo c spreadsheetId w in
    match r0 with
    | NoFuel => (NoFuel, w0, t0)
    | Finished (Throw error) => (Finished (Throw error), w0, t0)
    | Finished (Normal info_sheets) =>
        match findTab oldName info_sheets with
        | None => (Finished (Throw (tabNotFound oldName)), w0, t0)
        | Some targetSheet =>
            if existsb (String.eqb newName) (tabTitles info_sheets)
            then (Finished (Throw (tabExists newName)), w0, t0)
            else sendRequest spreadsheetId
                   (UpdateSheetTitle (sheet_sheetId targetSheet) newName)
                   (fun _ => Normal tt) w0 t0
        end
    end.

(** [newTabName || `Copy of ${sourceTabName}`]. *)
Definition finalNewName (sourceTabName : string) (newTabName : option string) : string :=
  match newTabName with
  | Some name => if str_truthy name then name else ("Copy of " ++ sourceTabName)%string
  | None => ("Copy of " ++ sourceTabName)%string
  end.

Definition duplicateTab (c : Client) (spreadsheetId sourceTabName : string)
    (newTabName : option string) (w : W) : Run ReplyProperties * W * list Trace :=
  if negb (entryGuard OpDuplicateTab c) then (Finished (Throw notInitialized), w, [])
  else
    let '(r0, w0, t0) := getSheetInfo c spreadsheetId w in
    match r0 with
    | NoFuel => (NoFuel, w0, t0)
    | Finished (Throw error) => (Finished (Throw error), w0, t0)
    | Finished (Normal info_sheets) =>
        match findTab sourceTabName info_sheets with
        | None => (Finished (Throw (sourceTabNotFound sourceTabName)), w0, t0)
        | Some sourceSheet =>
            let name := finalNewName sourceTabName newTabName in
            if existsb (String.eqb name) (tabTitles info_sheets)
            then (Finished (Throw (tabExists name)), w0, t0)
            else sendRequest spreadsheetId
                   (DuplicateSheet (sheet_sheetId sourceSheet) name)
                   (replyOf (fun newSheetInfo =>
                      mkReply (newSheetInfo ≫= reply_sheetId) (newSheetInfo ≫= reply_title)))
                   w0 t0
        end
    end.

Definition listTabs (c : Client) (spreadsheetId : string) (w : W)
  : Run (list TabInfo) * W * list Trace :=
  if negb (entryGuard OpListTabs c) then (Finished (Throw notInitialized), w, [])
  else
    let '(r0, w0, t0) := getSheetInfo c spreadsheetId w in
    (match r0 with
     | NoFuel => NoFuel
     | Finished (Throw error) => Finished (Throw error)
     | Finished (Normal info_sheets) =>
         Finished (Normal
           (List.map (fun sheet =>
              mkTab (sheet_sheetId sheet) (sheet_title sheet) (sheet_index sheet)
                    (default false (sheet_hidden sheet)))
              (default [] info_sheets)))
     end, w0, t0).
End Tabs.

(** A spreadsheet with the tabs Sheet1 and Users, and a service that
    accepts every request; the world counts the [batchUpdate] requests. *)
Definition twoTabs (spreadsheetId : string) (w : nat)
  : Completion (option (list SheetProperties)) * nat :=
  (Normal (Some [mkSheet 0 "Sheet1" 0 None; mkSheet 7 "Users" 1 (Some true)]), w).

Definition batchOk (spreadsheetId : option string) (requests : list Request) (w : nat)
  : Completion (option ReplyProperties) * nat :=
  (Normal (Some (mkReply (Some 42) (Some "Copy of Users"))), S w).

(** ** Credentials ([loadCredentials]) *)

Definition noCredentials : JsError :=
  NewError "No credentials provided. Pass credentials object/path or set SHEETS_CREDENTIALS env var.".

Definition invalidCredentials : JsError :=
  NewError "Invalid credentials format. Must be object or file path string.".

Section Credentials.
(** [process.env.SHEETS_CREDENTIALS] ([None] when not set), [path.resolve],
    [fs.existsSync], [fs.readFileSync] and [JSON.parse]. *)
Variable env_SHEETS_CREDENTIALS : option string.
Variable resolve : string -> string.
Variable existsSync : string -> bool.
Variable readFileSync : string -> Completion string.
Variable JSON_parse : string -> Completion JsValue.

(** The file branch of [loadCredentials]. *)
Definition loadCredentialsFile (credentialsToLoad : string) : Completion JsValue :=
  let credentialsPath := resolve credentialsToLoad in
  if negb (existsSync credentialsPath)
  then Throw (NewError ("Credentials file not found: " ++ credentialsPath)%string)
  else
    match readFileSync credentialsPath with
    | Throw error =>
        Throw (NewError ("Failed to parse credentials file: " ++ err_message error)%string)
    | Normal credentialsContent =>
        match JSON_parse credentialsContent with
        | Throw error =>
            Throw (NewError ("Failed to parse credentials file: " ++ err_message error)%string)
        | Normal parsed => Normal parsed
        end
    end.

Definition loadCredentials (credentialsInput : JsValue) : Completion JsValue :=
  let credentialsToLoad :=
    if negb (js_truthy credentialsInput)
       && from_option str_truthy false env_SHEETS_CREDENTIALS
    then from_option JStr JUndefined env_SHEETS_CREDENTIALS
    else credentialsInput in
  if negb (js_truthy credentialsToLoad) then Throw noCredentials
  else if typeof_object credentialsToLoad
          && negb (match credentialsToLoad with JNull => true | _ => false end)
  then Normal credentialsToLoad
  else
    match credentialsToLoad with
    | JStr path => loadCredentialsFile path
    | _ => Throw invalidCredentials
    end.
End Credentials.
(** * Properties *)

(** ** Retry executor *)

Lemma includes_nonempty (s sub : string) :
  sub <> EmptyString -> includes s sub = true -> str_truthy s = true.
Proof.
  intros Hsub H. destruct s as [|c s]; [|reflexivity].
  destruct sub as [|d sub]; [congruence|]. discriminate H.
Qed.

Lemma strict_eq_num_spec (x : JsValue) (n : Z) :
  strict_eq_num x n = true <-> x = JNum n.
Proof.
  destruct x; simpl; split; try discriminate; try congruence.
  - intros H. apply Z.eqb_eq in H. congruence.
  - intros H. inversion H. apply Z.eqb_refl.
Qed.

Lemma isRetryableError_spec (e : JsError) :
  isRetryableError e = true <->
  (err_code e = JNum 429 \/ err_code e = JNum 500 \/ err_code e = JNum 502 \/
   err_code e = JNum 503 \/ err_code e = JNum 504 \/
   includes (err_message e) "Quota exceeded" = true \/
   includes (err_message e) "Too many requests" = true).
Proof.
  unfold isRetryableError, isQuotaError.
  rewrite !orb_true_iff, !andb_true_iff, !strict_eq_num_spec.
  split.
  - intros H. tauto.
  - intros H.
    assert (forall sub, sub <> EmptyString -> includes (err_message e) sub = true ->
              str_truthy (err_message e) = true /\ includes (err_message e) sub = true)
      as Hinc by (intros sub Hs Hi; split; [eapply includes_nonempty; eauto | exact Hi]).
    destruct H as [H|[H|[H|[H|[H|[H|H]]]]]]; auto 10;
      apply Hinc in H; try discriminate; tauto.
Qed.

Section ExecutorFacts.
Context {W T : Type}.
Variable apiCall : W -> Completion T * W.
Variable random : nat -> Q.
Variable M : Z.
Variable MB : Q.

Local Abbreviation loop := (retry_loop apiCall random M MB).

Ltac loop_step cr st :=
  cbn [retry_loop];
  destruct (Z.of_nat cr <=? M) eqn:Htest;
  [ apply Z.leb_le in Htest | apply Z.leb_gt in Htest ].

Lemma nth_result_S (k : nat) (st : W) :
  nth_result apiCall (S k) st = nth_result apiCall k (snd (apiCall st)).
Proof. reflexivity. Qed.

(** The fuel handed to the loop is never used up, the wrapped call is
    invoked at most [M + 1 - currentRetry] times, and a thrown error is
    the one the last invocation threw. *)
Lemma retry_loop_bounds (fuel : nat) :
  forall (cr : nat) (st : W),
    (Z.to_nat (M + 1) <= fuel + cr)%nat ->
    let r := loop fuel cr st in
    outcome r <> OutOfFuel /\
    Z.of_nat (invocations (events r)) <= Z.max 0 (M + 1 - Z.of_nat cr) /\
    Z.of_nat (length (delays (events r))) <= Z.max 0 (M - Z.of_nat cr) /\
    (forall e, outcome r = Thrown e ->
       exists k, invocations (events r) = S k /\ nth_result apiCall k st = Throw e).
Proof.
  induction fuel as [|fuel IH]; intros cr st Hfuel r; subst r.
  - loop_step cr st.
    + lia.
    + cbn. repeat split; try discriminate; lia.
  - loop_step cr st.
    2:{ cbn. repeat split; try discriminate; lia. }
    destruct (apiCall st) as [[v|error] st'] eqn:Hcall.
    + cbn. repeat split; try discriminate; lia.
    + destruct (negb (isRetryableError error) || (M <=? Z.of_nat cr)) eqn:Hstop.
      * cbn. repeat split; try discriminate; try lia.
        intros e He. inversion He; subst. exists O. split; [reflexivity|].
        unfold nth_result. cbn. now rewrite Hcall.
      * apply orb_false_iff in Hstop as [_ Hlt]. apply Z.leb_gt in Hlt.
        specialize (IH (S cr) st' ltac:(lia)).
        destruct (loop fuel (S cr) st') as [[o st''] evs] eqn:Hrec.
        cbn in IH |- *. destruct IH as (Hfuel' & Hinv & Hdel & Hlast).
        repeat split; try assumption; try lia.
        intros e He. destruct (Hlast e He) as (k & Hk & Hres).
        exists (S k). split; [now rewrite Hk|].
        rewrite nth_result_S, Hcall. exact Hres.
Qed.

(** The waits of a run are the backoff delays of the retries
    [currentRetry], [currentRetry + 1], ... in this order. *)
Lemma retry_loop_delays (fuel : nat) :
  forall (cr : nat) (st : W),
    delays (events (loop fuel cr st)) =
    map (fun i => backoffDelay i (random i) MB)
        (seq cr (length (delays (events (loop fuel cr st))))).
Proof.
  induction fuel as [|fuel IH]; intros cr st.
  - loop_step cr st; reflexivity.
  - loop_step cr st; [|reflexivity].
    destruct (apiCall st) as [[v|error] st'] eqn:Hcall; [reflexivity|].
    destruct (negb (isRetryableError error) || (M <=? Z.of_nat cr)); [reflexivity|].
    specialize (IH (S cr) st').
    destruct (loop fuel (S cr) st') as [[o st''] evs] eqn:Hrec.
    cbn in IH |- *. f_equal. exact IH.
Qed.

(** The run is decided by the first invocation that returns, throws an
    error that is not retryable, or is the invocation number [M]. *)
Lemma retry_loop_run (k : nat) :
  forall (fuel cr : nat) (st : W),
    (Z.to_nat (M + 1) <= fuel + cr)%nat ->
    Z.of_nat (cr + k) <= M ->
    (forall j, (j < k)%nat ->
       exists e, nth_result apiCall j st = Throw e /\ isRetryableError e = true) ->
    let r := loop fuel cr st in
    let stops o :=
      outcome r = o /\ invocations (events r) = S k /\ length (delays (events r)) = k in
    match nth_result apiCall k st with
    | Normal v => stops (Returned v)
    | Throw e =>
        negb (isRetryableError e) || (M <=? Z.of_nat (cr + k)) = true -> stops (Thrown e)
    end.
Proof.
  induction k as [|k IH]; intros fuel cr st Hfuel Hle Hprev r; subst r;
    (destruct fuel as [|fuel]; [lia|]); cbn zeta.
  - loop_step cr st; [|lia].
    unfold nth_result. cbn [state_before].
    destruct (apiCall st) as [[v|error] st'] eqn:Hcall; cbn [fst].
    + cbn. auto.
    + rewrite Nat.add_0_r. intros Hstop. rewrite Hstop. cbn. auto.
  - loop_step cr st; [|lia].
    destruct (Hprev O ltac:(lia)) as (e0 & He0 & Hretry).
    unfold nth_result in He0. cbn [state_before] in He0.
    destruct (apiCall st) as [[v|error] st'] eqn:Hcall; cbn [fst] in He0; [discriminate|].
    inversion He0; subst e0. rewrite Hretry. cbn [negb orb].
    replace (M <=? Z.of_nat cr) with false by (symmetry; apply Z.leb_gt; lia).
    specialize (IH fuel (S cr) st' ltac:(lia) ltac:(lia)).
    rewrite nth_result_S, Hcall. cbn [snd].
    replace (Z.of_nat (cr + S k)) with (Z.of_nat (S cr + k)) by lia.
    destruct (loop fuel (S cr) st') as [[o st''] evs] eqn:Hrec.
    cbn zeta in IH. cbn [outcome events fst snd] in IH |- *.
    assert (Hprev' : forall j, (j < k)%nat ->
               exists e, nth_result apiCall j st' = Throw e /\ isRetryableError e = true).
    { intros j Hj. specialize (Hprev (S j) ltac:(lia)).
      rewrite nth_result_S, Hcall in Hprev. exact Hprev. }
    specialize (IH Hprev').
    destruct (nth_result apiCall k st') as [v|e].
    + destruct IH as (-> & Hi & Hd). cbn. rewrite Hi, Hd. auto.
    + intros Hstop. destruct (IH Hstop) as (-> & Hi & Hd). cbn. rewrite Hi, Hd. auto.
Qed.

(** A run that enters the loop ends at an invocation: the first invocation
    follows no wait, every later one follows exactly one wait, the backoff
    delay of its retry, and nothing is waited for after the last one. *)
Lemma retry_loop_order (fuel : nat) :
  forall (cr : nat) (st : W) (pending : list Q),
    (Z.to_nat (M + 1) <= fuel + cr)%nat -> Z.of_nat cr <= M ->
    let evs := events (loop fuel cr st) in
    invocations evs = S (length (delays evs)) /\
    waits_before pending evs
    = (pending :: List.map (fun i => [backoffDelay i (random i) MB])
                           (seq cr (length (delays evs))), []).
Proof.
  induction fuel as [|fuel IH]; intros cr st pending Hfuel Hcr evs; subst evs; [lia|].
  loop_step cr st; [|lia].
  destruct (apiCall st) as [[v|error] st'] eqn:Hcall; [cbn; auto|].
  destruct (negb (isRetryableError error) || (M <=? Z.of_nat cr)) eqn:Hstop; [cbn; auto|].
  apply orb_false_iff in Hstop as [_ Hlt]. apply Z.leb_gt in Hlt.
  specialize (IH (S cr) st' [backoffDelay cr (random cr) MB] ltac:(lia) ltac:(lia)).
  destruct (loop fuel (S cr) st') as [[o st''] evs] eqn:Hrec.
  cbn zeta in IH. cbn [events snd] in IH |- *. destruct IH as [Hi Hw].
  cbn [invocations delays length waits_before app seq List.map].
  rewrite Hw, Hi. auto.
Qed.

(** As long as the invocations fail with retryable errors and the retry
    count is below [M], the executor waits: retry number [j] has its wait. *)
Lemma retry_loop_waits (j : nat) :
  forall (fuel cr : nat) (st : W),
    (Z.to_nat (M + 1) <= fuel + cr)%nat -> Z.of_nat (cr + j) < M ->
    (forall i, (i <= j)%nat ->
       exists e, nth_result apiCall i st = Throw e /\ isRetryableError e = true) ->
    (j < length (delays (events (loop fuel cr st))))%nat.
Proof.
  induction j as [|j IH]; intros fuel cr st Hfuel Hlt Hfail;
    (destruct fuel as [|fuel]; [lia|]);
    (loop_step cr st; [|lia]);
    destruct (Hfail O ltac:(lia)) as (e0 & He0 & Hretry);
    unfold nth_result in He0; cbn [state_before] in He0;
    (destruct (apiCall st) as [[v|error] st'] eqn:Hcall; cbn [fst] in He0; [discriminate|]);
    inversion He0; subst e0; rewrite Hretry; cbn [negb orb];
    (replace (M <=? Z.of_nat cr) with false by (symmetry; apply Z.leb_gt; lia)).
  - destruct (loop fuel (S cr) st') as [[o st''] evs]. cbn. lia.
  - specialize (IH fuel (S cr) st' ltac:(lia) ltac:(lia)).
    assert (Hfail' : forall i, (i <= j)%nat ->
               exists e, nth_result apiCall i st' = Throw e /\ isRetryableError e = true).
    { intros i Hi. specialize (Hfail (S i) ltac:(lia)).
      rewrite nth_result_S, Hcall in Hfail. exact Hfail. }
    specialize (IH Hfail').
    destruct (loop fuel (S cr) st') as [[o st''] evs]. cbn in IH |- *. lia.
Qed.
End ExecutorFacts.

(** Successive backoff delays do not shrink: the base doubles, and the base
    of the next retry alone exceeds this retry's base plus its jitter. *)
Lemma backoffDelay_mono (n : nat) (r r' MB : Q) :
  (0 <= r')%Q -> (r < 1)%Q ->
  (backoffDelay n r MB <= backoffDelay (S n) r' MB)%Q.
Proof.
  intros Hr' Hr. unfold backoffDelay, baseDelay.
  apply Q.min_le_compat_r.
  replace (2 ^ Z.of_nat (S n) * 1000) with (2 ^ Z.of_nat n * 1000 + 2 ^ Z.of_nat n * 1000)
    by (rewrite Nat2Z.inj_succ, Z.pow_succ_r; lia).
  rewrite inject_Z_plus.
  assert (H1000 : (inject_Z 1000 <= inject_Z (2 ^ Z.of_nat n * 1000))%Q).
  { rewrite <- Zle_Qle. assert (0 < 2 ^ Z.of_nat n) by (apply Z.pow_pos_nonneg; lia). lia. }
  set (a := inject_Z (2 ^ Z.of_nat n * 1000)) in *.
  assert (H1 : (r * (1000 # 1) <= inject_Z 1000)%Q).
  { apply Qle_trans with (1 * (1000 # 1))%Q; [|discriminate].
    apply Qmult_le_compat_r; [apply Qlt_le_weak; exact Hr | discriminate]. }
  assert (H2 : (0 <= r' * (1000 # 1))%Q) by (apply Qmult_le_0_compat; [exact Hr' | discriminate]).
  apply Qle_trans with (a + inject_Z 1000)%Q.
  - apply Qplus_le_r. exact H1.
  - apply Qle_trans with (a + a + 0)%Q.
    + rewrite Qplus_0_r. apply Qplus_le_r. exact H1000.
    + apply Qplus_le_r. exact H2.
Qed.

(** C1. The executor classifies an error as retryable exactly when its code
    is 429, 500, 502, 503 or 504 or its message contains 'Quota exceeded' or
    'Too many requests'.  With [maxRetries >= 0] the wrapped operation is
    invoked at most [maxRetries + 1] times and waited for at most
    [maxRetries] times; an error thrown to the caller is the error of the
    last invocation; an error that is not retryable is thrown at the
    invocation that raised it, with no further invocation; when every
    invocation fails with a retryable error, the error of invocation number
    [maxRetries] is thrown after [maxRetries + 1] invocations. *)
Theorem retryWithBackoff_classifies_and_bounds
    {W T : Type} (cfg : Config) (random : nat -> Q) (apiCall : W -> Completion T * W)
    (customMaxRetries : option Z) (customMaxBackoff : option Q) (st : W) :
  let M := default (maxRetries cfg) customMaxRetries in
  let r := retryWithBackoff cfg random apiCall customMaxRetries customMaxBackoff st in
  let failed_before k :=
    forall j, (j < k)%nat ->
      exists e', nth_result apiCall j st = Throw e' /\ isRetryableError e' = true in
  0 <= M ->
  (forall e, isRetryableError e = true <->
     (err_code e = JNum 429 \/ err_code e = JNum 500 \/ err_code e = JNum 502 \/
      err_code e = JNum 503 \/ err_code e = JNum 504 \/
      includes (err_message e) "Quota exceeded" = true \/
      includes (err_message e) "Too many requests" = true)) /\
  outcome r <> OutOfFuel /\
  Z.of_nat (invocations (events r)) <= M + 1 /\
  Z.of_nat (length (delays (events r))) <= M /\
  (forall e, outcome r = Thrown e ->
     exists k, invocations (events r) = S k /\ nth_result apiCall k st = Throw e) /\
  (forall k e, Z.of_nat k <= M -> failed_before k ->
     nth_result apiCall k st = Throw e -> isRetryableError e = false ->
     outcome r = Thrown e /\ invocations (events r) = S k /\
     length (delays (events r)) = k) /\
  (forall e, failed_before (Z.to_nat M) ->
     nth_result apiCall (Z.to_nat M) st = Throw e ->
     outcome r = Thrown e /\ Z.of_nat (invocations (events r)) = M + 1 /\
     Z.of_nat (length (delays (events r))) = M).
Proof.
  intros M r failed_before HM. subst r. unfold retryWithBackoff. fold M.
  pose proof (retry_loop_bounds apiCall random M (default (maxBackoffMs cfg) customMaxBackoff)
                (loopBound M) O st ltac:(unfold loopBound; lia)) as Hb.
  cbn zeta in Hb. destruct Hb as (Hfuel & Hinv & Hdel & Hlast).
  split; [exact isRetryableError_spec|].
  split; [exact Hfuel|]. split; [lia|]. split; [lia|]. split; [exact Hlast|]. split.
  - intros k e Hk Hprev Hres Hnr.
    pose proof (retry_loop_run apiCall random M (default (maxBackoffMs cfg) customMaxBackoff)
                  k (loopBound M) O st ltac:(unfold loopBound; lia) ltac:(lia) Hprev) as Hrun.
    cbn zeta in Hrun. rewrite Hres, Hnr in Hrun. exact (Hrun eq_refl).
  - intros e Hprev Hres.
    pose proof (retry_loop_run apiCall random M (default (maxBackoffMs cfg) customMaxBackoff)
                  (Z.to_nat M) (loopBound M) O st ltac:(unfold loopBound; lia) ltac:(lia) Hprev)
      as Hrun.
    cbn zeta in Hrun. rewrite Hres in Hrun.
    assert (Hstop : negb (isRetryableError e) || (M <=? Z.of_nat (0 + Z.to_nat M)) = true).
    { apply orb_true_iff. right. apply Z.leb_le. lia. }
    destruct (Hrun Hstop) as (Ho & Hi & Hd). repeat split; [exact Ho | lia | lia].
Qed.

Lemma retryWithBackoff_classifies_and_bounds_witness :
  0 <= 5 /\
  Z.of_nat (invocations (events
    (retryWithBackoff defaultConfig (fun _ => 0%Q) always503 None None O))) <= 5 + 1.
Proof.
  split; [lia|].
  apply (retryWithBackoff_classifies_and_bounds
           defaultConfig (fun _ => 0%Q) always503 None None O).
  cbn. lia.
Defined.

(** C2. The executor waits before every retry: when the invocations up to
    number [j] fail with retryable errors and [j] is below [maxRetries], the
    wait of retry [j] takes place; the first invocation follows no wait, each
    later invocation follows exactly one wait, and nothing is waited for after
    the last.  When every draw of [Math.random()] lies in [0, 1), the wait
    before retry number [n] (from 0) is [min(2^n * 1000 + jitter,
    maxBackoffMs)] with [jitter = random * 1000]; every wait is at most
    [maxBackoffMs], and each wait is at least the wait before it. *)
Theorem retryWithBackoff_delays
    {W T : Type} (cfg : Config) (random : nat -> Q) (apiCall : W -> Completion T * W)
    (customMaxRetries : option Z) (customMaxBackoff : option Q) (st : W) :
  let M := default (maxRetries cfg) customMaxRetries in
  let MB := default (maxBackoffMs cfg) customMaxBackoff in
  let r := retryWithBackoff cfg random apiCall customMaxRetries customMaxBackoff st in
  let ds := delays (events r) in
  let delay n := Qmin (inject_Z (2 ^ Z.of_nat n * 1000) + random n * (1000 # 1))%Q MB in
  (forall n, (0 <= random n)%Q /\ (random n < 1)%Q) ->
  (forall n d, ds !! n = Some d -> d = delay n) /\
  (forall n d, ds !! n = Some d -> (d <= MB)%Q) /\
  (forall n d d', ds !! n = Some d -> ds !! S n = Some d' -> (d <= d')%Q) /\
  (forall j, Z.of_nat j < M ->
     (forall i, (i <= j)%nat ->
        exists e, nth_result apiCall i st = Throw e /\ isRetryableError e = true) ->
     ds !! j = Some (delay j)) /\
  (0 <= M ->
   invocations (events r) = S (length ds) /\
   waits_before [] (events r)
   = ([] :: List.map (fun n => [delay n]) (seq 0 (length ds)), [])).
Proof.
  intros M MB r ds delay Hrand.
  assert (Hall : ds = List.map delay (seq 0 (length ds))).
  { subst ds r. unfold retryWithBackoff. fold M MB. apply retry_loop_delays. }
  assert (Hds : forall n d, ds !! n = Some d -> d = delay n).
  { intros n d Hn. rewrite Hall in Hn. rewrite list_lookup_fmap in Hn.
    destruct (seq 0 _ !! n) as [i|] eqn:Hi; [|discriminate].
    apply lookup_seq in Hi as [-> _]. cbn in Hn. congruence. }
  split; [exact Hds|]. split; [|split; [|split]].
  - intros n d Hn. rewrite (Hds n d Hn). apply Q.le_min_r.
  - intros n d d' Hn Hn'. rewrite (Hds n d Hn), (Hds (S n) d' Hn').
    apply backoffDelay_mono; apply Hrand.
  - intros j Hj Hfail.
    assert (Hlen : (j < length ds)%nat).
    { subst ds r. unfold retryWithBackoff. fold M MB.
      apply retry_loop_waits; [unfold loopBound; lia | lia | exact Hfail]. }
    destruct (lookup_lt_is_Some_2 ds j Hlen) as [d Hd].
    now rewrite Hd, (Hds j d Hd).
  - intros HM. subst ds r. unfold retryWithBackoff. fold M MB.
    apply (retry_loop_order apiCall random M MB (loopBound M) O st []);
      [unfold loopBound; lia | lia].
Qed.

Lemma retryWithBackoff_delays_witness :
  (forall n : nat, (0 <= (fun _ => 1 # 2) n)%Q /\ ((fun _ => 1 # 2) n < 1)%Q) /\
  delays (events (retryWithBackoff defaultConfig (fun _ => 1 # 2) always503 None None O)) !! 2%nat
  = Some (Qmin (inject_Z (2 ^ Z.of_nat 2 * 1000) + (1 # 2) * (1000 # 1))%Q (64000 # 1)) /\
  invocations (events (retryWithBackoff defaultConfig (fun _ => 1 # 2) always503 None None O))
  = S (length (delays (events
         (retryWithBackoff defaultConfig (fun _ => 1 # 2) always503 None None O)))).
Proof.
  assert (H : forall n : nat, (0 <= (fun _ => 1 # 2) n)%Q /\ ((fun _ => 1 # 2) n < 1)%Q)
    by (intros n; split; [discriminate | reflexivity]).
  split; [exact H|].
  pose proof (retryWithBackoff_delays defaultConfig (fun _ => 1 # 2) always503 None None O H)
    as (_ & _ & _ & Hwait & Horder).
  split.
  - apply Hwait; [cbn; lia|]. intros i _. eexists. split; reflexivity.
  - apply Horder. cbn. lia.
Defined.

(** ** Merge engine *)

Section MergeFacts.
Variable parse : string -> list (list string).

Lemma processNewData_Grid (headers : option Row) (nd : list Row) :
  processNewData parse headers (Grid nd) = Normal nd.
Proof. destruct nd; reflexivity. Qed.

Lemma merge_rows_length (existingFrom : list Row) :
  forall (i : nat) (nd : list Row),
    (0 < i)%nat -> length (merge_rows i existingFrom nd) = length existingFrom.
Proof.
  induction existingFrom as [|row rest IH]; intros i nd Hi; cbn [merge_rows]; [reflexivity|].
  replace (i =? 0)%nat with false by (symmetry; apply Nat.eqb_neq; lia).
  rewrite length_app, IH by lia.
  destruct (i <=? length nd)%nat; reflexivity.
Qed.

Lemma merge_rows_lookup (existingFrom : list Row) :
  forall (i j : nat) (nd : list Row) (row : Row),
    (0 < i)%nat -> existingFrom !! j = Some row ->
    merge_rows i existingFrom nd !! j =
    Some (if (i + j <=? length nd)%nat then row_value (nd !! (i + j - 1)%nat) else JArr row).
Proof.
  induction existingFrom as [|row0 rest IH]; intros i j nd row Hi Hj; [discriminate|].
  cbn [merge_rows].
  replace (i =? 0)%nat with false by (symmetry; apply Nat.eqb_neq; lia).
  destruct j as [|j].
  - cbn in Hj. inversion Hj; subst row0. rewrite Nat.add_0_r.
    destruct (i <=? length nd)%nat; reflexivity.
  - cbn in Hj.
    replace (i + S j)%nat with (S i + j)%nat by lia.
    rewrite <- (IH (S i) j nd row ltac:(lia) Hj).
    destruct (i <=? length nd)%nat; reflexivity.
Qed.

(** What [mergeData] builds once the new data has been turned into rows. *)
Lemma mergeData_of_processed (h : Row) (rest : list Row) (newData : SpreadsheetData)
    (nd : list Row) :
  processNewData parse (Some h) newData = Normal nd ->
  exists merged,
    mergeData parse (h :: rest) newData = Normal merged /\
    length merged = length (h :: rest) /\
    merged !! O = Some (JArr h) /\
    (forall i r, (1 <= i < length (h :: rest))%nat -> nd !! (i - 1)%nat = Some r ->
       merged !! i = Some (JArr r)) /\
    (forall i row, (length nd < i)%nat -> (h :: rest) !! i = Some row ->
       merged !! i = Some (JArr row)).
Proof.
  intros Hnd. unfold mergeData. cbn [lookup list_lookup]. rewrite Hnd.
  eexists. split; [reflexivity|]. cbn [merge_rows Nat.eqb app].
  split; [cbn; now rewrite merge_rows_length by lia|].
  split; [reflexivity|]. split.
  - intros i r [Hi1 Hi2] Hr. destruct i as [|i]; [lia|].
    rewrite lookup_cons. cbn in Hi2.
    destruct (lookup_lt_is_Some_2 rest i ltac:(lia)) as [row Hrow].
    rewrite (merge_rows_lookup rest 1 i nd row ltac:(lia) Hrow).
    replace (S i - 1)%nat with i in Hr by lia.
    replace (1 + i - 1)%nat with i by lia.
    pose proof (lookup_lt_Some _ _ _ Hr) as Hlt.
    replace (1 + i <=? length nd)%nat with true by (symmetry; apply Nat.leb_le; lia).
    now rewrite Hr.
  - intros i row Hi Hrow. destruct i as [|i]; [lia|].
    cbn in Hrow. rewrite lookup_cons.
    rewrite (merge_rows_lookup rest 1 i nd row ltac:(lia) Hrow).
    replace (1 + i <=? length nd)%nat with false by (symmetry; apply Nat.leb_gt; lia).
    reflexivity.
Qed.

(** C3. For a non-empty existing grid [h :: rest] and new data that is a
    grid [nd], [mergeData] returns a grid as long as the existing one; its
    row 0 is [h]; row [i >= 1] is [nd[i - 1]] when [i <= len(nd)] and the
    existing row [i] otherwise; rows of [nd] past the existing length are
    not appended.  The example of the specification evaluates as stated. *)
Theorem mergeData_grid (h : Row) (rest : list Row) (nd : list Row) :
  (exists merged,
     mergeData parse (h :: rest) (Grid nd) = Normal merged /\
     length merged = length (h :: rest) /\
     merged !! O = Some (JArr h) /\
     (forall i r, (1 <= i < length (h :: rest))%nat -> nd !! (i - 1)%nat = Some r ->
        merged !! i = Some (JArr r)) /\
     (forall i row, (length nd < i)%nat -> (h :: rest) !! i = Some row ->
        merged !! i = Some (JArr row))) /\
  mergeData parse
    [[JStr "h1"; JStr "h2"]; [JStr "a"; JStr "b"]; [JStr "c"; JStr "d"]; [JStr "e"; JStr "f"]]
    (Grid [[JStr "x"; JStr "y"]])
  = Normal [JArr [JStr "h1"; JStr "h2"]; JArr [JStr "x"; JStr "y"];
            JArr [JStr "c"; JStr "d"]; JArr [JStr "e"; JStr "f"]].
Proof.
  split; [|reflexivity].
  apply mergeData_of_processed, processNewData_Grid.
Qed.
Lemma obj_get_absent (item : JsObject) (key : string) :
  obj_has item key = false -> obj_get item key = inherited key.
Proof.
  induction item as [|[k v] rest IH]; cbn [obj_has obj_get]; [reflexivity|].
  destruct (String.eqb k key); cbn [orb]; [discriminate|exact IH].
Qed.

Lemma obj_own_absent (obj : JsObject) (key : string) :
  obj_has obj key = false -> obj_own obj key = None.
Proof.
  induction obj as [|[k v] rest IH]; cbn [obj_has obj_own]; [reflexivity|].
  destruct (String.eqb k key); cbn [orb]; [discriminate|exact IH].
Qed.

Lemma obj_own_None (obj : JsObject) (key : string) :
  obj_own obj key = None -> obj_has obj key = false.
Proof.
  induction obj as [|[k v] rest IH]; cbn [obj_has obj_own]; [reflexivity|].
  destruct (String.eqb k key); cbn [orb]; [discriminate|exact IH].
Qed.

Lemma obj_get_own (obj : JsObject) (key : string) :
  obj_get obj key = default (inherited key) (obj_own obj key).
Proof.
  induction obj as [|[k v] rest IH]; cbn [obj_get obj_own]; [reflexivity|].
  destruct (String.eqb k key); [reflexivity|exact IH].
Qed.

(** A name that is not inherited reads as [undefined] where it is no own
    property; an inherited name reads as a truthy value. *)
Lemma inherited_none (key : string) : inheritedName key = false -> inherited key = JUndefined.
Proof. intros H. unfold inherited. now rewrite (obj_own_absent _ _ H). Qed.

Lemma obj_own_Forall (P : JsValue -> Prop) (obj : JsObject) (key : string) :
  Forall (fun kv => P (snd kv)) obj -> obj_has obj key = true ->
  P (default JUndefined (obj_own obj key)).
Proof.
  induction 1 as [|[k v] rest Hv _ IH]; cbn [obj_has obj_own]; [discriminate|].
  destruct (String.eqb k key); cbn [orb]; [intros _; exact Hv|exact IH].
Qed.

Lemma inherited_truthy (key : string) :
  inheritedName key = true -> js_truthy (inherited key) = true.
Proof. apply (obj_own_Forall (fun v => js_truthy v = true)). repeat constructor. Qed.

Lemma inherited_not_text (key s : string) : inherited key <> JStr s.
Proof.
  destruct (inheritedName key) eqn:E; [|now rewrite (inherited_none key E)].
  revert s. apply (obj_own_Forall (fun v => forall s, v <> JStr s)); [|exact E].
  repeat constructor; discriminate.
Qed.

Lemma inherited_not_nullish (key : string) :
  inheritedName key = true -> is_nullish (inherited key) = false.
Proof.
  intros H. pose proof (inherited_truthy key H) as Ht.
  destruct (inherited key); try reflexivity; discriminate Ht.
Qed.

Lemma map_completion_Normal {A B : Type} (f : A -> B) (items : list A) :
  map_completion (fun x => Normal (f x)) items = Normal (List.map f items).
Proof.
  induction items as [|x rest IH]; cbn; [reflexivity|]. now rewrite IH.
Qed.

Lemma processNewData_Records (h : Row) (items : list JsObject) :
  processNewData parse (Some h) (Records items) = Normal (List.map (projected h) items).
Proof. cbn. apply (map_completion_Normal (projected h)). Qed.

(** C4 (as the code has it). Records are projected onto the existing
    header row: the merged row that takes record [item] has one cell per
    header column and no other; the cell of column [header] is the record's
    value for that name, own or inherited, when the value is truthy, and the
    empty string when its value is null, undefined or the empty string.  A
    key the record does not have gives the empty string, unless the name is
    one that every object inherits from [Object.prototype] ([constructor],
    [toString], [__proto__] and the like): then the cell is the inherited
    value. *)
Theorem mergeData_projects_records (h : Row) (rest : list Row) (items : list JsObject) :
  exists merged,
    mergeData parse (h :: rest) (Records items) = Normal merged /\
    forall i item, (1 <= i < length (h :: rest))%nat -> items !! (i - 1)%nat = Some item ->
      exists row,
        merged !! i = Some (JArr row) /\
        length row = length h /\
        forall c header, h !! c = Some header ->
          let v := obj_get item (js_toString header) in
          (js_truthy v = true -> row !! c = Some v) /\
          (is_nullish v = true \/ v = JStr EmptyString -> row !! c = Some (JStr EmptyString)) /\
          (obj_has item (js_toString header) = false ->
           inheritedName (js_toString header) = false ->
           row !! c = Some (JStr EmptyString)) /\
          (obj_has item (js_toString header) = false ->
           inheritedName (js_toString header) = true ->
           row !! c = Some (inherited (js_toString header))).
Proof.
  destruct (mergeData_of_processed h rest (Records items) _ (processNewData_Records h items))
    as (merged & Hm & _ & _ & Hnew & _).
  exists merged. split; [exact Hm|].
  intros i item Hi Hitem. exists (projected h item). split.
  - apply Hnew; [exact Hi|]. rewrite list_lookup_fmap, Hitem. reflexivity.
  - split; [apply length_map|].
    intros c header Hc v.
    assert (Hcell : projected h item !! c = Some (js_or v (JStr EmptyString))).
    { unfold projected. rewrite list_lookup_fmap, Hc. reflexivity. }
    rewrite Hcell. unfold js_or. split; [|split; [|split]].
    + intros Ht. now rewrite Ht.
    + intros [Hn | Hn].
      * destruct v; try discriminate Hn; reflexivity.
      * rewrite Hn. reflexivity.
    + intros Habs Hinh. subst v.
      rewrite (obj_get_absent _ _ Habs), (inherited_none _ Hinh). reflexivity.
    + intros Habs Hinh. subst v.
      rewrite (obj_get_absent _ _ Habs), (inherited_truthy _ Hinh). reflexivity.
Qed.

(** With an empty existing grid there is no row 0: the merged grid is the
    one-element array holding [undefined], and projecting a record onto the
    absent header throws. *)
Lemma mergeData_no_header :
  (forall nd, mergeData parse [] (Grid nd) = Normal [JUndefined]) /\
  (forall text, mergeData parse [] (Csv text) = Normal [JUndefined]) /\
  (forall item items,
     mergeData parse [] (Records (item :: items)) =
     Throw (TypeError "Cannot read properties of undefined (reading 'map')")) /\
  mergeData parse [] (Records []) = Normal [JUndefined].
Proof.
  split; [|split; [|split]].
  - intros nd. unfold mergeData. now rewrite processNewData_Grid.
  - intros text. unfold mergeData. cbn [processNewData].
    now destruct (List.map (List.map JStr) (parse text)).
  - reflexivity.
  - reflexivity.
Qed.
End MergeFacts.

(** C4 as stated fails: the record has the key [age], its value is
    [null], and the merged cell is the empty string, not the record's value. *)
Lemma mergeData_projection_replaces_null :
  obj_has [("name", JStr "John"); ("age", JNull)] "age" = true /\
  obj_get [("name", JStr "John"); ("age", JNull)] "age" = JNull /\
  mergeData (fun _ => []) [[JStr "name"; JStr "age"]; [JStr "Jane"; JStr "25"]]
            (Records [[("name", JStr "John"); ("age", JNull)]])
  = Normal [JArr [JStr "name"; JStr "age"]; JArr [JStr "John"; JStr EmptyString]].
Proof. repeat split. Qed.

(** A record without the key [constructor], merged under a header that has
    a column of that name: the cell is the function every object inherits. *)
Example mergeData_projection_inherited :
  mergeData (fun _ => []) [[JStr "name"; JStr "constructor"]; [JStr "Jane"; JStr "x"]]
            (Records [[("name", JStr "John")]])
  = Normal [JArr [JStr "name"; JStr "constructor"];
            JArr [JStr "John"; JFun "function Object() { [native code] }"]].
Proof. reflexivity. Qed.

(** ** CSV writer *)

Lemma str_app_cons (c : ascii) (s t : string) : (String c s ++ t)%string = String c (s ++ t).
Proof. reflexivity. Qed.

Lemma str_app_nil_r (s : string) : (s ++ EmptyString)%string = s.
Proof. induction s as [|c s IH]; [reflexivity|]. now rewrite str_app_cons, IH. Qed.

Lemma str_app_assoc (s1 s2 s3 : string) :
  ((s1 ++ s2) ++ s3)%string = (s1 ++ (s2 ++ s3))%string.
Proof. induction s1 as [|c s1 IH]; [reflexivity|]. now rewrite !str_app_cons, IH. Qed.

Lemma concat_nil_cons (x : string) (xs : list string) :
  String.concat EmptyString (x :: xs) = (x ++ String.concat EmptyString xs)%string.
Proof.
  destruct xs; cbn [String.concat]; [now rewrite str_app_nil_r | reflexivity].
Qed.

Lemma fold_left_append (f : JsObject -> string) (data : list JsObject) :
  forall init : string,
    fold_left (fun csvString item => (csvString ++ f item)%string) data init
    = (init ++ String.concat EmptyString (List.map f data))%string.
Proof.
  induction data as [|item rest IH]; intros init; cbn [fold_left List.map].
  - cbn [String.concat]. now rewrite str_app_nil_r.
  - now rewrite IH, concat_nil_cons, str_app_assoc.
Qed.

Lemma makeCSVFromData_lines (item0 : JsObject) (rest : list JsObject) (charLimit : Z) :
  let data := item0 :: rest in
  let columns := getUniqueKeys data in
  makeCSVFromData data charLimit
  = ((String.concat "," columns ++ LF)
       ++ String.concat EmptyString (List.map (csvRow charLimit columns) data))%string.
Proof. intros data columns. unfold makeCSVFromData. cbn match. apply fold_left_append. Qed.

Lemma undouble_replace_quotes (t : string) :
  undouble (replace_quotes (quote ++ quote) t) = Some t.
Proof.
  induction t as [|c t IH]; [reflexivity|].
  cbn [replace_quotes]. destruct (Ascii.eqb c DQ) eqn:Hc.
  - apply Ascii.eqb_eq in Hc. subst c.
    change (undouble (String DQ (String DQ (replace_quotes (quote ++ quote) t)))
            = Some (String DQ t)).
    cbn [undouble]. rewrite Ascii.eqb_refl, IH. reflexivity.
  - cbn [undouble]. rewrite Hc, IH. reflexivity.
Qed.

Example makeCSVFromData_header_union :
  makeCSVFromData [[("a", JNum 1); ("b", JNum 2)]; [("b", JNum 3); ("c", JNum 4)]]
                  defaultCharLimit
  = ("a,b,c" ++ LF
       ++ quote ++ "1" ++ quote ++ "," ++ quote ++ "2" ++ quote ++ "," ++ LF
       ++ "," ++ quote ++ "3" ++ quote ++ "," ++ quote ++ "4" ++ quote ++ LF)%string.
Proof. vm_compute. reflexivity. Qed.

Example makeCSVFromData_complex_value :
  csvCell defaultCharLimit
    [("metadata", JObj [("tags", JArr [JStr "developer"; JStr "js"]); ("active", JBool true)])]
    "metadata"
  = quoted "{'tags':['developer','js'],'active':true}".
Proof. vm_compute. reflexivity. Qed.

Example makeCSVFromData_empty : makeCSVFromData [] defaultCharLimit = EmptyString.
Proof. reflexivity. Qed.

(** C5 (as the code has it). The CSV text is the header line (the column
    names joined by commas, not quoted) followed by one line per record.  A
    cell whose value is neither null nor undefined is its text between double
    quotes with every embedded double quote doubled, whatever the text holds;
    a cell whose value is null or undefined is empty and carries no quotes.
    A key the record does not have reads as undefined, so its cell is empty,
    unless the name is one that every object inherits from
    [Object.prototype]: then the cell is the quoted text of the inherited
    value.  The record with name [He said "hi"] gives the quoted cell of the
    specification. *)
Theorem makeCSVFromData_cells (item0 : JsObject) (rest : list JsObject) (charLimit : Z) :
  let data := item0 :: rest in
  let columns := getUniqueKeys data in
  makeCSVFromData data charLimit
  = ((String.concat "," columns ++ LF)
       ++ String.concat EmptyString
            (List.map (fun item =>
               String.concat "," (List.map (csvCell charLimit item) columns) ++ LF)
               data))%string /\
  (forall item col, is_nullish (obj_get item col) = false ->
     csvCell charLimit item col
     = quoted (replace_quotes (quote ++ quote) (cellText charLimit (obj_get item col)))) /\
  (forall item col, is_nullish (obj_get item col) = true ->
     csvCell charLimit item col = EmptyString) /\
  (forall item col, obj_has item col = false -> inheritedName col = false ->
     csvCell charLimit item col = EmptyString) /\
  (forall item col, obj_has item col = false -> inheritedName col = true ->
     csvCell charLimit item col
     = quoted (replace_quotes (quote ++ quote) (cellText charLimit (inherited col)))) /\
  (forall text, undouble (replace_quotes (quote ++ quote) text) = Some text) /\
  makeCSVFromData [[("name", JStr ("He said " ++ quote ++ "hi" ++ quote))]] defaultCharLimit
  = ("name" ++ LF ++ quote ++ "He said " ++ quote ++ quote ++ "hi" ++ quote ++ quote
            ++ quote ++ LF)%string.
Proof.
  intros data columns. split; [apply makeCSVFromData_lines|].
  split; [|split; [|split; [|split; [|split]]]].
  - intros item col H. unfold csvCell. now rewrite H.
  - intros item col H. unfold csvCell. now rewrite H.
  - intros item col Habs Hinh. unfold csvCell.
    now rewrite (obj_get_absent _ _ Habs), (inherited_none _ Hinh).
  - intros item col Habs Hinh. unfold csvCell.
    now rewrite (obj_get_absent _ _ Habs), (inherited_not_nullish _ Hinh).
  - exact undouble_replace_quotes.
  - vm_compute. reflexivity.
Qed.

(** A record without the key [constructor] beside a record that has it: the
    cell is the quoted text of the inherited function. *)
Example makeCSVFromData_inherited_cell :
  makeCSVFromData [[("constructor", JStr "x"); ("b", JStr "1")]; [("b", JStr "2")]]
                  defaultCharLimit
  = ("constructor,b" ++ LF
       ++ quoted "x" ++ "," ++ quoted "1" ++ LF
       ++ quoted "function Object() { [native code] }" ++ "," ++ quoted "2" ++ LF)%string.
Proof. vm_compute. reflexivity. Qed.

(** C5 as stated fails on null and missing values: their cells are empty,
    with no quotes around them (the records of the repository's own test). *)
Lemma makeCSVFromData_null_cell_unquoted :
  csvCell defaultCharLimit [("name", JStr "John"); ("age", JNull); ("city", JUndefined)] "age"
  = EmptyString /\
  makeCSVFromData
    [[("name", JStr "John"); ("age", JNull); ("city", JUndefined)];
     [("name", JNull); ("age", JNum 25); ("city", JStr "SF")]]
    defaultCharLimit
  = ("name,age,city" ++ LF
       ++ quote ++ "John" ++ quote ++ ",," ++ LF
       ++ "," ++ quote ++ "25" ++ quote ++ "," ++ quote ++ "SF" ++ quote ++ LF)%string.
Proof. split; vm_compute; reflexivity. Qed.

(** ** Tab colour *)

Example addSheetRequest_red :
  prop_tabColor (addSheetRequest "Reports" (mkTabOptions (Some 1) (Some false) (Some "#FF0000")))
  = Some (mkTabColor (Some (inject_Z 255 / (255 # 1))%Q) (Some (inject_Z 0 / (255 # 1))%Q)
                     (Some (inject_Z 0 / (255 # 1))%Q)).
Proof. reflexivity. Qed.

Lemma hex_value_range (c : ascii) (v : Z) : hex_value c = Some v -> 0 <= v < 16.
Proof.
  unfold hex_value. set (n := Z.of_nat (nat_of_ascii c)).
  destruct ((48 <=? n) && (n <=? 57)) eqn:E1.
  { apply andb_true_iff in E1 as [?%Z.leb_le ?%Z.leb_le]. intros [= <-]. lia. }
  destruct ((97 <=? n) && (n <=? 102)) eqn:E2.
  { apply andb_true_iff in E2 as [?%Z.leb_le ?%Z.leb_le]. intros [= <-]. lia. }
  destruct ((65 <=? n) && (n <=? 70)) eqn:E3; [|discriminate].
  apply andb_true_iff in E3 as [?%Z.leb_le ?%Z.leb_le]. intros [= <-]. lia.
Qed.

(** Two hexadecimal digits read as one channel value. *)
Lemma parseInt16_two_digits (c1 c2 : ascii) (v1 v2 : Z) :
  hex_value c1 = Some v1 -> hex_value c2 = Some v2 ->
  parseInt16 (String c1 (String c2 EmptyString)) = Some (16 * v1 + v2).
Proof.
  intros H1 H2.
  destruct c1 as [[] [] [] [] [] [] [] []]; vm_compute in H1; try discriminate H1;
    injection H1 as <-;
    destruct c2 as [[] [] [] [] [] [] [] []]; vm_compute in H2; try discriminate H2;
    injection H2 as <-; reflexivity.
Qed.

Lemma channel_fraction (n : Z) :
  0 <= n <= 255 -> (0 <= inject_Z n / (255 # 1))%Q /\ (inject_Z n / (255 # 1) <= 1)%Q.
Proof.
  intros Hn. unfold Qdiv, Qmult, Qinv, Qle, inject_Z. cbn. lia.
Qed.

(** C9 (as the code has it). For a colour written as the number sign
    followed by six hexadecimal digits, the request carries a tab colour
    whose red, green and blue channels are the values of the first, second
    and third pair of digits divided by 255, each a fraction between 0 and
    1.  The channels are cut at the positions 1-3, 3-5 and 5-7 of the string,
    so the leading sign is part of the format. *)
Theorem addTab_tabColor_channels
    (tabName : string) (options : TabOptions) (c1 c2 c3 c4 c5 c6 : ascii)
    (v1 v2 v3 v4 v5 v6 : Z) :
  hex_value c1 = Some v1 -> hex_value c2 = Some v2 -> hex_value c3 = Some v3 ->
  hex_value c4 = Some v4 -> hex_value c5 = Some v5 -> hex_value c6 = Some v6 ->
  opt_tabColor options
  = Some (String "#" (String c1 (String c2 (String c3 (String c4 (String c5
            (String c6 EmptyString))))))) ->
  let r := (inject_Z (16 * v1 + v2) / (255 # 1))%Q in
  let g := (inject_Z (16 * v3 + v4) / (255 # 1))%Q in
  let b := (inject_Z (16 * v5 + v6) / (255 # 1))%Q in
  prop_tabColor (addSheetRequest tabName options) = Some (mkTabColor (Some r) (Some g) (Some b)) /\
  (0 <= r)%Q /\ (r <= 1)%Q /\ (0 <= g)%Q /\ (g <= 1)%Q /\ (0 <= b)%Q /\ (b <= 1)%Q.
Proof.
  intros H1 H2 H3 H4 H5 H6 Hopt r g b.
  pose proof (hex_value_range _ _ H1). pose proof (hex_value_range _ _ H2).
  pose proof (hex_value_range _ _ H3). pose proof (hex_value_range _ _ H4).
  pose proof (hex_value_range _ _ H5). pose proof (hex_value_range _ _ H6).
  split.
  - unfold addSheetRequest. rewrite Hopt. cbn [prop_tabColor str_truthy].
    unfold channel.
    change (slice 1 3 _) with (String c1 (String c2 EmptyString)).
    change (slice 3 5 _) with (String c3 (String c4 EmptyString)).
    change (slice 5 7 _) with (String c5 (String c6 EmptyString)).
    rewrite (parseInt16_two_digits _ _ _ _ H1 H2), (parseInt16_two_digits _ _ _ _ H3 H4),
      (parseInt16_two_digits _ _ _ _ H5 H6).
    reflexivity.
  - subst r g b.
    destruct (channel_fraction (16 * v1 + v2) ltac:(lia)).
    destruct (channel_fraction (16 * v3 + v4) ltac:(lia)).
    destruct (channel_fraction (16 * v5 + v6) ltac:(lia)).
    tauto.
Qed.

Lemma addTab_tabColor_channels_witness :
  prop_tabColor (addSheetRequest "Reports" (mkTabOptions (Some 1) (Some false) (Some "#FF8000")))
  = Some (mkTabColor (Some (inject_Z 255 / (255 # 1))%Q) (Some (inject_Z 128 / (255 # 1))%Q)
                     (Some (inject_Z 0 / (255 # 1))%Q)).
Proof.
  apply (addTab_tabColor_channels "Reports"
           (mkTabOptions (Some 1) (Some false) (Some "#FF8000"))
           "F" "F" "8" "0" "0" "0" 15 15 8 0 0 0); reflexivity.
Defined.

(** C9 as stated fails on a string of six digits alone: the red channel of
    [FF0000] is read from its second and third characters, 240/255, not from
    its first pair, and the blue channel from the one character left. *)
Lemma addTab_tabColor_six_digits_misaligned :
  prop_tabColor (addSheetRequest "Reports" (mkTabOptions None None (Some "FF0000")))
  = Some (mkTabColor (Some (inject_Z 240 / (255 # 1))%Q) (Some (inject_Z 0 / (255 # 1))%Q)
                     (Some (inject_Z 0 / (255 # 1))%Q)) /\
  parseInt16 "FF" = Some 255 /\
  ~ (inject_Z 240 / (255 # 1) == inject_Z 255 / (255 # 1))%Q.
Proof. split; [reflexivity|]. split; [reflexivity|]. intros H. discriminate H. Qed.

(** ** Facade *)

Section WriteToSheetFacts.
Context {W : Type}.
Variable cfg : Config.
Variable random : nat -> Q.
Variable spreadsheets_get : string -> W -> Completion (list string) * W.
Variable batchUpdate_addSheet : string -> string -> W -> Completion unit * W.
Variable values_get : string -> string -> W -> Completion (option (list Row)) * W.
Variable values_update : string -> string -> list JsValue -> W -> Completion (option JsValue) * W.
Variable createSheet_body : list string -> W -> Completion string * W.
Variable Papa_parse_data : string -> list (list string).
Variable Papa_unparse : list Row -> string.

Local Abbreviation try_write :=
  (tryWrite cfg random spreadsheets_get batchUpdate_addSheet values_update Papa_parse_data).
Local Abbreviation write_to_sheet :=
  (writeToSheet cfg random spreadsheets_get batchUpdate_addSheet values_update
                createSheet_body Papa_parse_data Papa_unparse).

Lemma recreations_app (t1 t2 : list Trace) :
  recreations (t1 ++ t2) = (recreations t1 + recreations t2)%nat.
Proof.
  induction t1 as [|ev t1 IH]; [reflexivity|].
  destruct ev; cbn; rewrite IH; reflexivity.
Qed.

Lemma recreations_Retry (evs : list Event) : recreations (List.map Retry evs) = O.
Proof. induction evs as [|ev evs IH]; [reflexivity | exact IH]. Qed.

Lemma awaitRetry_recreations {T : Type} (call : W -> Completion T * W) (w : W) :
  recreations (snd (awaitRetry cfg random call w)) = O.
Proof.
  unfold awaitRetry.
  destruct (retryWithBackoff cfg random call None None w) as [[o w'] evs].
  apply recreations_Retry.
Qed.

Lemma updateValues_recreations (spreadsheetId range text : string) (w : W) :
  recreations (snd (updateValues cfg random values_update Papa_parse_data
                      spreadsheetId range text w)) = O.
Proof.
  unfold updateValues.
  pose proof (awaitRetry_recreations
                (values_update spreadsheetId range (fieldRows (Papa_parse_data text))) w) as H.
  destruct (awaitRetry cfg random _ w) as [[r w'] t]. exact H.
Qed.

(** The [try] block itself never creates a spreadsheet. *)
Lemma tryWrite_recreations (spreadsheetId text : string) (tab : option string) (w : W) :
  recreations (snd (try_write spreadsheetId text tab w)) = O.
Proof.
  unfold tryWrite.
  destruct tab as [tabName|]; [|apply updateValues_recreations].
  destruct (str_truthy tabName); [|apply updateValues_recreations].
  pose proof (awaitRetry_recreations (spreadsheets_get spreadsheetId) w) as H1.
  destruct (awaitRetry cfg random (spreadsheets_get spreadsheetId) w) as [[r1 w1] t1].
  cbn [snd] in H1.
  destruct r1 as [[[existingSheets|]|e]|]; try exact H1.
  destruct (existsb (String.eqb tabName) existingSheets).
  - pose proof (updateValues_recreations spreadsheetId (tabName ++ "!A1")%string text w1) as H3.
    destruct (updateValues _ _ _ _ _ _ _ w1) as [[r3 w3] t3]. cbn [snd] in H3 |- *.
    rewrite !recreations_app, H1, H3. reflexivity.
  - pose proof (awaitRetry_recreations (batchUpdate_addSheet spreadsheetId tabName) w1) as H2.
    destruct (awaitRetry cfg random (batchUpdate_addSheet spreadsheetId tabName) w1)
      as [[r2 w2] t2]. cbn [snd] in H2.
    destruct r2 as [[u|e]|]; cbn [snd]; rewrite ?recreations_app, ?H1, ?H2; try reflexivity.
    pose proof (updateValues_recreations spreadsheetId (tabName ++ "!A1")%string text w2) as H3.
    destruct (updateValues _ _ _ _ _ _ _ w2) as [[r3 w3] t3]. cbn [snd] in H3 |- *.
    rewrite !recreations_app, H1, H2, H3. reflexivity.
Qed.
(** C7 (as the code has it). When the first write attempt on an id fails
    with 404, [createSheet()] answers a new id and the write attempted on
    the new id does not itself fail with 404, [writeToSheet] ends with what
    that second attempt gave, after exactly one recreation: the warning, the
    new spreadsheet, then the replay and nothing after it.  The replay is a
    call of [writeToSheet] to itself, so this holds from depth 2 on; the
    function sets no bound on further recreations. *)
Theorem writeToSheet_recovers_once
    (fuel : nat) (c : Client) (spreadsheetId : string) (rows : SpreadsheetData)
    (tab : option string) (w w1 w2 w3 : W) (error : JsError) (newSpreadsheetId : string)
    (t1 t2 : list Trace) (res : Completion JsValue) :
  let text := rowsToCsv Papa_unparse rows in
  entryGuard OpWriteToSheet c = true ->
  try_write spreadsheetId text tab w = (Finished (Throw error), w1, t1) ->
  err_code error = JNum 404 ->
  createSheet createSheet_body c [] w1 = (Normal newSpreadsheetId, w2) ->
  try_write newSpreadsheetId text tab w2 = (Finished res, w3, t2) ->
  (forall e, res = Throw e -> strict_eq_num (err_code e) 404 = false) ->
  let t := t1 ++ [WarnNotFound spreadsheetId; Recreated newSpreadsheetId] ++ t2
              ++ match res with
                 | Throw _ => [ErrorFailedToWrite newSpreadsheetId]
                 | Normal _ => []
                 end in
  write_to_sheet (S (S fuel)) c spreadsheetId rows tab w = (Finished res, w3, t) /\
  recreations t = 1%nat.
Proof.
  intros text Hguard Htry1 Hcode Hcreate Htry2 Hnot404 t. split.
  - cbn [writeToSheet]. rewrite Hguard. cbn [negb]. fold text. rewrite Htry1.
    rewrite Hcode. cbn [strict_eq_num]. rewrite Z.eqb_refl, Hcreate.
    cbn [rowsToCsv]. rewrite Htry2. subst t.
    destruct res as [data|e].
    + rewrite app_nil_r. reflexivity.
    + rewrite (Hnot404 e eq_refl). reflexivity.
  - subst t.
    pose proof (tryWrite_recreations spreadsheetId text tab w) as H1.
    pose proof (tryWrite_recreations newSpreadsheetId text tab w2) as H2.
    rewrite Htry1 in H1. rewrite Htry2 in H2. cbn [snd] in H1, H2.
    rewrite !recreations_app, H1, H2. destruct res; reflexivity.
Qed.
End WriteToSheetFacts.

Lemma writeToSheet_recovers_once_witness :
  writeToSheet defaultConfig (fun _ => 0%Q) noTabs addSheetOk goneOnly createdName
               (fun _ => [["a"]; ["1"]]) (fun _ => EmptyString)
               2 initialized "gone" (Csv "a") None O
  = (Finished (Normal (JObj [("updatedCells", JNum 2)])), 1%nat,
     [Retry Invoke; Retry (LogError 0 false false);
      WarnNotFound "gone"; Recreated "sheet-0"; Retry Invoke]) /\
  recreations [Retry Invoke; Retry (LogError 0 false false);
               WarnNotFound "gone"; Recreated "sheet-0"; Retry Invoke] = 1%nat.
Proof.
  apply (writeToSheet_recovers_once defaultConfig (fun _ => 0%Q) noTabs addSheetOk goneOnly
           createdName (fun _ => [["a"]; ["1"]]) (fun _ => EmptyString)
           O initialized "gone" (Csv "a") None O O 1%nat 1%nat notFound "sheet-0"
           [Retry Invoke; Retry (LogError 0 false false)] [Retry Invoke]
           (Normal (JObj [("updatedCells", JNum 2)])));
    try reflexivity.
  intros e He. discriminate He.
Defined.

(** On a service where every write answers 404 the recreations never end:
    whatever depth the model is given, the run is still not finished and has
    created as many spreadsheets as the depth. *)
Lemma writeToSheet_unbounded (n : nat) :
  forall (spreadsheetId : string) (w : nat),
    let r := writeToSheet defaultConfig (fun _ => 0%Q) noTabs addSheetOk alwaysNotFound
               createdName (fun _ => []) (fun _ => EmptyString)
               n initialized spreadsheetId (Csv "a") None w in
    fst (fst r) = NoFuel /\ snd (fst r) = (w + n)%nat /\ recreations (snd r) = n.
Proof.
  induction n as [|n IH]; intros spreadsheetId w; [cbn; auto with arith|].
  cbn zeta. cbn [writeToSheet].
  change (tryWrite _ _ _ _ _ _ _ _ None w)
    with (@Finished JsValue (Throw notFound), w,
          [Retry Invoke; Retry (LogError 0 false false)]).
  cbn [entryGuard initialized sheets negb is_set].
  change (createSheet createdName initialized [] w) with (createdName [] w).
  cbn [createdName err_code notFound strict_eq_num Z.eqb Pos.eqb].
  specialize (IH ("sheet-" ++ string_of_Z (Z.of_nat w))%string (S w)).
  cbn zeta in IH. cbn [rowsToCsv].
  destruct (writeToSheet _ _ _ _ _ _ _ _ n initialized _ (Csv "a") None (S w))
    as [[r w3] t3].
  cbn [fst snd] in IH |- *. destruct IH as (-> & -> & Ht).
  split; [reflexivity|]. split; [lia|].
  rewrite recreations_app. cbn. now rewrite Ht.
Qed.

(** C7 as stated fails: with a service that answers 404 to every write, the
    first recreation is followed by a second, a third and a fourth within
    depth 4, and the run has not ended. *)
Lemma writeToSheet_not_found_again :
  let r := writeToSheet defaultConfig (fun _ => 0%Q) noTabs addSheetOk alwaysNotFound
             createdName (fun _ => []) (fun _ => EmptyString)
             4 initialized "gone" (Csv "a") None O in
  fst (fst r) = NoFuel /\ recreations (snd r) = 4%nat.
Proof.
  pose proof (writeToSheet_unbounded 4 "gone" O) as H. cbn zeta in H |- *. tauto.
Qed.

(** An empty sheet: [values.get] answers without values. *)
Lemma getSheetArray_no_values :
  getSheetArray defaultConfig (fun _ => 0%Q) (fun _ _ (w : nat) => (Normal None, w))
                initialized "sheet" (Some "Users") O
  = (Finished (Normal []), O, [Retry Invoke]).
Proof. reflexivity. Qed.

(** C10. [mergeData] reads row 0 of the existing grid with no test.  With
    an empty existing grid the merged grid is the one-element array holding
    [undefined] in place of a header row, whether the new data is a grid or
    CSV text (an empty array holds no record and is merged the same way);
    when the new data holds a record, projecting it onto the absent header
    throws a TypeError and no grid is returned.  [updateSheet] merges into
    the rows it has just read: on a sheet without rows it throws that
    TypeError for records, after the read and before any write. *)
Theorem mergeData_empty_existing
    {W : Type} (cfg : Config) (random : nat -> Q)
    (spreadsheets_get : string -> W -> Completion (list string) * W)
    (batchUpdate_addSheet : string -> string -> W -> Completion unit * W)
    (values_get : string -> string -> W -> Completion (option (list Row)) * W)
    (values_update : string -> string -> list JsValue -> W -> Completion (option JsValue) * W)
    (createSheet_body : list string -> W -> Completion string * W)
    (parse : string -> list (list string)) (unparse : list Row -> string) :
  let noHeader := TypeError "Cannot read properties of undefined (reading 'map')" in
  (forall nd, mergeData parse [] (Grid nd) = Normal [JUndefined]) /\
  (forall text, mergeData parse [] (Csv text) = Normal [JUndefined]) /\
  mergeData parse [] (Records []) = Normal [JUndefined] /\
  (forall item items, mergeData parse [] (Records (item :: items)) = Throw noHeader) /\
  (forall fuel c spreadsheetId item items tab w w0 t0,
     entryGuard OpUpdateSheet c = true ->
     getSheetArray cfg random values_get c spreadsheetId tab w = (Finished (Normal []), w0, t0) ->
     updateSheet cfg random spreadsheets_get batchUpdate_addSheet values_get values_update
                 createSheet_body parse unparse
                 fuel c spreadsheetId (Records (item :: items)) tab w
     = (Finished (Throw noHeader), w0, t0 ++ [ErrorFailedToUpdate spreadsheetId])).
Proof.
  intros noHeader.
  destruct (mergeData_no_header parse) as (Hgrid & Hcsv & Hrec & Hnil).
  split; [exact Hgrid|]. split; [exact Hcsv|]. split; [exact Hnil|]. split; [exact Hrec|].
  intros fuel c spreadsheetId item items tab w w0 t0 Hguard Hread.
  unfold updateSheet. rewrite Hguard, Hread. cbn [negb]. rewrite Hrec. reflexivity.
Qed.

Lemma mergeData_empty_existing_witness :
  updateSheet defaultConfig (fun _ => 0%Q) noTabs addSheetOk
              (fun _ _ (w : nat) => (Normal None, w)) goneOnly createdName
              (fun _ => []) (fun _ => EmptyString)
              1 initialized "sheet" (Records [[("name", JStr "John")]]) (Some "Users") O
  = (Finished (Throw (TypeError "Cannot read properties of undefined (reading 'map')")), O,
     [Retry Invoke; ErrorFailedToUpdate "sheet"]).
Proof.
  pose proof (mergeData_empty_existing defaultConfig (fun _ => 0%Q) noTabs addSheetOk
                (fun _ _ (w : nat) => (Normal None, w)) goneOnly createdName
                (fun _ => []) (fun _ => EmptyString)) as H.
  cbn zeta in H. destruct H as (_ & _ & _ & _ & H).
  exact (H 1%nat initialized "sheet" [("name", JStr "John")] [] (Some "Users") O O
           [Retry Invoke] eq_refl getSheetArray_no_values).
Defined.

(** C8 (as the code has it). Before [init] every exported function that
    reaches the remote service throws the error 'ak-sheets not initialized.
    Call init() first.' at its entry test and leaves the world as it was: the
    part of the body that issues requests is never run.  [deleteAllSheets]
    gets the same error from [listOwnedSpreadsheets], the first thing it
    awaits, and [writeToSheet] throws it at any depth with an empty trace.
    The conversion and URL helpers have no entry test and run as usual. *)
Theorem uninitialized_fails_fast {W A : Type} :
  (forall (op : Operation) (body : W -> Completion A * W) (w : W),
     isRemote op = true -> op <> OpDeleteAllSheets ->
     invoke op uninitialized body w = (Throw notInitialized, w)) /\
  (forall (B : Type) (listBody : W -> Completion A * W)
          (deleteEach : A -> W -> Completion B * W) (w : W),
     deleteAllSheets uninitialized listBody deleteEach w = (Throw notInitialized, w)) /\
  (forall cfg random get add update create parse unparse fuel spreadsheetId rows tab (w : W),
     writeToSheet cfg random get add update create parse unparse
                  (S fuel) uninitialized spreadsheetId rows tab w
     = (Finished (Throw notInitialized), w, [])) /\
  (forall (op : Operation) (body : W -> Completion A * W) (w : W),
     isRemote op = false -> invoke op uninitialized body w = body w).
Proof.
  split; [|split; [|split]].
  - intros op body w Hremote Hnot. destruct op; try reflexivity; try discriminate Hremote.
    now contradict Hnot.
  - reflexivity.
  - reflexivity.
  - intros op body w Hlocal. destruct op; try reflexivity; discriminate Hlocal.
Qed.

(** C8 as stated fails on [getURL]: before [init] it returns the URL. *)
Lemma getURL_before_init :
  isRemote OpGetURL = false /\
  invoke OpGetURL uninitialized (fun w : unit => (Normal (getURL "test123"), w)) tt
  = (Normal "https://docs.google.com/spreadsheets/d/test123", tt).
Proof. split; reflexivity. Qed.

(** ** Conversions there and back *)

Example csvToJson_test :
  csvToJson ("name,age" ++ LF ++ "John,30" ++ LF ++ "Jane,25")
  = Some [[("name", JStr "John"); ("age", JStr "30")];
          [("name", JStr "Jane"); ("age", JStr "25")]].
Proof. vm_compute. reflexivity. Qed.

Example csvToJson_empty : csvToJson EmptyString = Some [].
Proof. reflexivity. Qed.

Example csvToJson_makeCSVFromData_example :
  csvToJson (makeCSVFromData [[("a", JStr "x,y"); ("b", JStr ("say " ++ quote ++ "hi" ++ quote))];
                              [("b", JStr "z")]] defaultCharLimit)
  = Some [[("a", JStr "x,y"); ("b", JStr ("say " ++ quote ++ "hi" ++ quote))];
          [("a", JStr EmptyString); ("b", JStr "z")]].
Proof. vm_compute. reflexivity. Qed.

(** *** The reader on what the writer writes *)

Lemma add_text_app (t1 t2 : string) (cur : Cursor) :
  add_text (t1 ++ t2) cur = add_text t1 (add_text t2 cur).
Proof. induction t1 as [|c t1 IH]; [reflexivity|]. cbn [add_text]. now rewrite <- IH. Qed.

Lemma option_map_compose {A B C : Type} (f : A -> B) (g : B -> C) (o : option A) :
  option_map g (option_map f o) = option_map (fun x => g (f x)) o.
Proof. destruct o; reflexivity. Qed.

Lemma option_map_ext' {A B : Type} (f g : A -> B) (o : option A) :
  (forall x, f x = g x) -> option_map f o = option_map g o.
Proof. intros H. destruct o; cbn; [now rewrite H | reflexivity]. Qed.

(** Inside quotes the doubled quotes of the writer are read as one quote
    each, up to the closing quote. *)
Lemma scan_quoted_body (t : string) (rest : string) :
  papa_scan Quoted (replace_quotes (quote ++ quote) t ++ String DQ rest)
  = option_map (add_text t) (papa_scan QuoteSeen rest).
Proof.
  induction t as [|c t IH].
  - cbn [replace_quotes]. change (EmptyString ++ String DQ rest)%string with (String DQ rest).
    cbn [papa_scan]. rewrite Ascii.eqb_refl.
    destruct (papa_scan QuoteSeen rest); reflexivity.
  - cbn [replace_quotes]. destruct (Ascii.eqb c DQ) eqn:Hc.
    + apply Ascii.eqb_eq in Hc. subst c. rewrite str_app_assoc.
      change ((quote ++ quote) ++ ?x)%string with (String DQ (String DQ x)).
      cbn [papa_scan]. rewrite !Ascii.eqb_refl, IH, option_map_compose. reflexivity.
    + rewrite str_app_cons. cbn [papa_scan]. rewrite Hc, IH, option_map_compose. reflexivity.
Qed.

Lemma sep_not_quote (sep : ascii) :
  is_comma sep = true \/ is_lf sep = true -> Ascii.eqb sep DQ = false.
Proof.
  intros [H|H].
  - apply Ascii.eqb_eq in H. now subst sep.
  - unfold is_lf in H. apply Nat.eqb_eq in H.
    destruct (Ascii.eqb sep DQ) eqn:E; [|reflexivity].
    apply Ascii.eqb_eq in E. subst sep. discriminate H.
Qed.

(** Both at a field start and after a closing quote, a comma ends the field
    and a line feed ends the row. *)
Lemma scan_separator (sep : ascii) (rest : string) :
  is_comma sep = true \/ is_lf sep = true ->
  papa_scan FieldStart (String sep rest) = option_map (end_at sep) (papa_scan FieldStart rest) /\
  papa_scan QuoteSeen (String sep rest) = option_map (end_at sep) (papa_scan FieldStart rest) /\
  papa_scan Unquoted (String sep rest) = option_map (end_at sep) (papa_scan FieldStart rest).
Proof.
  intros Hsep. pose proof (sep_not_quote sep Hsep) as Hq.
  cbn [papa_scan]. rewrite Hq. unfold end_at.
  destruct (is_comma sep) eqn:Hc; [auto|].
  destruct Hsep as [Hsep|Hsep]; [discriminate|]. rewrite Hsep. auto.
Qed.

(** An empty cell is read as the empty field. *)
Lemma reads_as_empty : reads_as EmptyString EmptyString.
Proof.
  intros sep rest Hsep. change (EmptyString ++ String sep rest)%string with (String sep rest).
  rewrite (proj1 (scan_separator sep rest Hsep)). reflexivity.
Qed.

(** A quoted cell is read as the text that was quoted. *)
Lemma reads_as_quoted (t : string) :
  reads_as (quoted (replace_quotes (quote ++ quote) t)) t.
Proof.
  intros sep rest Hsep. unfold quoted.
  change (quote ++ ?x)%string with (String DQ x).
  rewrite str_app_cons. cbn [papa_scan]. rewrite Ascii.eqb_refl.
  rewrite str_app_assoc. change (quote ++ String sep rest)%string with (String DQ (String sep rest)).
  rewrite scan_quoted_body.
  rewrite (proj1 (proj2 (scan_separator sep rest Hsep))), option_map_compose. reflexivity.
Qed.

Lemma scan_plain (k : string) :
  all_chars plain_char k = true ->
  forall (sep : ascii) (rest : string),
    is_comma sep = true \/ is_lf sep = true ->
    papa_scan Unquoted (k ++ String sep rest)
    = option_map (fun cur => add_text k (end_at sep cur)) (papa_scan FieldStart rest).
Proof.
  induction k as [|c k IH]; intros Hk sep rest Hsep.
  - change (EmptyString ++ String sep rest)%string with (String sep rest).
    rewrite (proj2 (proj2 (scan_separator sep rest Hsep))). reflexivity.
  - cbn [all_chars] in Hk. apply andb_true_iff in Hk as [Hc Hk].
    unfold plain_char in Hc. apply negb_true_iff in Hc.
    apply orb_false_iff in Hc as [Hc Hu]. apply orb_false_iff in Hc as [Hc Hl].
    apply orb_false_iff in Hc as [Hq Hc].
    rewrite str_app_cons. cbn [papa_scan]. rewrite Hc, Hl, Hu, (IH Hk sep rest Hsep).
    rewrite option_map_compose. reflexivity.
Qed.

(** A plain header name is read as itself. *)
Lemma reads_as_plain (k : string) : all_chars plain_char k = true -> reads_as k k.
Proof.
  intros Hk sep rest Hsep. destruct k as [|c k]; [apply reads_as_empty; exact Hsep|].
  pose proof (scan_plain (String c k) Hk sep rest Hsep) as H.
  rewrite str_app_cons in H |- *. cbn [papa_scan] in H |- *.
  cbn [all_chars] in Hk. apply andb_true_iff in Hk as [Hc _].
  unfold plain_char in Hc. apply negb_true_iff in Hc.
  apply orb_false_iff in Hc as [Hc _]. apply orb_false_iff in Hc as [Hc _].
  apply orb_false_iff in Hc as [Hq _]. rewrite Hq. exact H.
Qed.

Lemma add_text_field (t field : string) (fields : list string) (rows : list (list string)) :
  add_text t (field, fields, rows) = ((t ++ field)%string, fields, rows).
Proof.
  induction t as [|c t IH]; [reflexivity|]. cbn [add_text]. rewrite IH. reflexivity.
Qed.

Lemma concat_comma_cons (x y : string) (l : list string) :
  String.concat "," (x :: y :: l) = (x ++ String "," (String.concat "," (y :: l)))%string.
Proof. reflexivity. Qed.

(** A line of cells is read as the row of their values. *)
Lemma scan_line (cells values : list string) :
  Forall2 reads_as cells values -> cells <> [] ->
  forall rest : string,
    papa_scan FieldStart (String.concat "," cells ++ LF ++ rest)
    = option_map (push_row values) (papa_scan FieldStart rest).
Proof.
  induction 1 as [|cell value cells values Hcell Hcells IH]; intros Hne rest; [congruence|].
  destruct Hcells as [|cell' value' cells values Hcell' Hcells].
  - cbn [String.concat].
    change (cell ++ LF ++ rest)%string with (cell ++ String (ascii_of_nat 10) rest)%string.
    rewrite (Hcell (ascii_of_nat 10) rest (or_intror eq_refl)).
    apply option_map_ext'. intros [[f fs] rows].
    change (end_at (ascii_of_nat 10) (f, fs, rows)) with (EmptyString, @nil string, (f :: fs) :: rows).
    rewrite add_text_field, str_app_nil_r. reflexivity.
  - rewrite concat_comma_cons, str_app_assoc, str_app_cons.
    rewrite (Hcell ","%char _ (or_introl eq_refl)).
    rewrite (IH ltac:(discriminate) rest), option_map_compose.
    apply option_map_ext'. intros [[f fs] rows].
    change (end_at ","%char (push_row (value' :: values) (f, fs, rows)))
      with (EmptyString, value' :: values, (f :: fs) :: rows).
    rewrite add_text_field, str_app_nil_r. reflexivity.
Qed.

Lemma to_rows_push_row (v : string) (vs : list string) (cur : Cursor) :
  to_rows (push_row (v :: vs) cur) = (v :: vs) :: to_rows cur.
Proof. destruct cur as [[f fs] rows]. reflexivity. Qed.

(** Lines of cells are read as the rows of their values, followed by what
    the rest of the text holds. *)
Lemma scan_lines (lines : list (list string * list string)) :
  Forall (fun l => Forall2 reads_as (fst l) (snd l) /\ fst l <> []) lines ->
  forall rest : string,
    option_map to_rows
      (papa_scan FieldStart
         (String.concat EmptyString (List.map (fun l => csvLine (fst l)) lines) ++ rest))
    = option_map (fun cur => List.map snd lines ++ to_rows cur) (papa_scan FieldStart rest).
Proof.
  induction 1 as [|[cells values] lines [Hcells Hne] Hlines IH]; intros rest.
  - cbn [List.map String.concat]. change (EmptyString ++ rest)%string with rest.
    destruct (papa_scan FieldStart rest); reflexivity.
  - cbn [List.map fst snd]. rewrite concat_nil_cons, str_app_assoc.
    unfold csvLine at 1. rewrite str_app_assoc.
    rewrite (scan_line cells values Hcells Hne), option_map_compose.
    specialize (IH rest).
    destruct (papa_scan FieldStart
                (String.concat EmptyString (List.map (fun l => csvLine (fst l)) lines) ++ rest))
      as [cur|]; destruct (papa_scan FieldStart rest) as [cur'|]; cbn in IH |- *;
      try discriminate; [|reflexivity].
    injection IH as IH. f_equal.
    destruct values as [|v vs]; [inversion Hcells; subst; congruence|].
    rewrite to_rows_push_row, IH. reflexivity.
Qed.

(** Reading a text made of lines: the rows of the lines, then the row of one
    empty field that stands for the empty text after the last line feed. *)
Lemma papa_rows_lines (line : list string * list string)
    (lines : list (list string * list string)) :
  Forall (fun l => Forall2 reads_as (fst l) (snd l) /\ fst l <> []) (line :: lines) ->
  papa_rows (String.concat EmptyString (List.map (fun l => csvLine (fst l)) (line :: lines)))
  = Some (List.map snd (line :: lines) ++ [[EmptyString]]).
Proof.
  intros H. pose proof (scan_lines (line :: lines) H EmptyString) as Hs.
  rewrite str_app_nil_r in Hs. cbn [papa_scan option_map to_rows] in Hs.
  unfold papa_rows.
  destruct (String.concat EmptyString (List.map (fun l => csvLine (fst l)) (line :: lines)))
    as [|c text] eqn:Htext.
  - cbn [papa_scan option_map to_rows List.map] in Hs. exfalso.
    injection Hs as _ Hs. now destruct (List.map snd lines).
  - exact Hs.
Qed.

(** *** The header: the keys of all records, each once *)

Lemma existsb_eqb_In (k : string) (l : list string) :
  existsb (String.eqb k) l = true <-> In k l.
Proof.
  rewrite existsb_exists. split.
  - intros (x & Hx & Heq). apply String.eqb_eq in Heq. now subst x.
  - intros H. exists k. split; [exact H | apply String.eqb_refl].
Qed.

Lemma existsb_eqb_not_In (k : string) (l : list string) :
  existsb (String.eqb k) l = false <-> ~ In k l.
Proof.
  rewrite <- existsb_eqb_In. destruct (existsb (String.eqb k) l); split; congruence.
Qed.

Lemma set_add_In (l : list string) (x k : string) :
  In k (set_add l x) <-> In k l \/ k = x.
Proof.
  unfold set_add. destruct (existsb (String.eqb x) l) eqn:E.
  - apply existsb_eqb_In in E. split; [auto|]. intros [H | ->]; assumption.
  - rewrite in_app_iff. cbn. split; intros [H|H]; auto. destruct H as [-> | []]. now right.
Qed.

Lemma distinct_snoc (l : list string) (x : string) :
  distinct l = true -> ~ In x l -> distinct (l ++ [x]) = true.
Proof.
  induction l as [|y l IH]; intros Hd Hx; [reflexivity|].
  cbn [distinct app] in Hd |- *. apply andb_true_iff in Hd as [Hy Hd].
  apply andb_true_iff. split.
  - apply negb_true_iff in Hy. apply negb_true_iff.
    apply existsb_eqb_not_In in Hy. apply existsb_eqb_not_In.
    rewrite in_app_iff. cbn. intros [H|[H|[]]]; [auto|]. subst x. apply Hx. now left.
  - apply IH; [exact Hd|]. intros H. apply Hx. now right.
Qed.

Lemma set_add_distinct (l : list string) (x : string) :
  distinct l = true -> distinct (set_add l x) = true.
Proof.
  intros Hd. unfold set_add. destruct (existsb (String.eqb x) l) eqn:E; [exact Hd|].
  apply distinct_snoc; [exact Hd|]. now apply existsb_eqb_not_In.
Qed.

Lemma fold_set_add (keys : list string) :
  forall acc : list string,
    (distinct acc = true -> distinct (fold_left set_add keys acc) = true) /\
    (forall k, In k (fold_left set_add keys acc) <-> In k acc \/ In k keys).
Proof.
  induction keys as [|x keys IH]; intros acc; cbn [fold_left].
  - split; [auto|]. intros k. cbn. tauto.
  - destruct (IH (set_add acc x)) as [IHd IHi]. split.
    + intros Hd. apply IHd, set_add_distinct, Hd.
    + intros k. rewrite IHi, set_add_In. cbn. intuition congruence.
Qed.

Lemma fold_keys (data : list JsObject) :
  forall acc : list string,
    let columns :=
      fold_left (fun keysSet item => fold_left set_add (Object_keys item) keysSet) data acc in
    (distinct acc = true -> distinct columns = true) /\
    (forall k, In k columns <-> In k acc \/ exists item, In item data /\ In k (Object_keys item)).
Proof.
  induction data as [|item data IH]; intros acc; cbn [fold_left].
  - split; [auto|]. intros k. cbn. split; [auto|]. intros [H|(item & [] & _)]. exact H.
  - destruct (IH (fold_left set_add (Object_keys item) acc)) as [IHd IHi].
    destruct (fold_set_add (Object_keys item) acc) as [Hd Hi]. split.
    + intros Hacc. apply IHd, Hd, Hacc.
    + intros k. rewrite IHi, Hi. cbn. split.
      * intros [[H|H]|(item' & Hin & Hk)]; eauto 6.
      * intros [H|(item' & [<- | Hin] & Hk)]; eauto 6.
Qed.

Lemma getUniqueKeys_distinct (data : list JsObject) : distinct (getUniqueKeys data) = true.
Proof. apply (fold_keys data []). reflexivity. Qed.

Lemma getUniqueKeys_In (data : list JsObject) (k : string) :
  In k (getUniqueKeys data) <-> exists item, In item data /\ In k (Object_keys item).
Proof.
  unfold getUniqueKeys. rewrite (proj2 (fold_keys data []) k). cbn. tauto.
Qed.

(** *** Objects built key by key *)

Lemma obj_has_In (item : JsObject) (k : string) :
  obj_has item k = true <-> In k (Object_keys item).
Proof.
  induction item as [|[k' v] item IH]; cbn; [split; [discriminate | tauto]|].
  rewrite orb_true_iff, IH, String.eqb_eq. tauto.
Qed.

Lemma obj_get_Forall (P : JsValue -> Prop) (item : JsObject) (k : string) :
  Forall (fun kv => P (snd kv)) item -> P (inherited k) -> P (obj_get item k).
Proof.
  induction 1 as [|[k' v] item Hv _ IH]; intros Hu; cbn [obj_get]; [exact Hu|].
  destruct (String.eqb k' k); [exact Hv | exact (IH Hu)].
Qed.

Lemma obj_own_Some (P : JsValue -> Prop) (item : JsObject) (k : string) (v : JsValue) :
  Forall (fun kv => P (snd kv)) item -> obj_own item k = Some v -> P v.
Proof.
  induction 1 as [|[k' w] item Hw _ IH]; cbn [obj_own]; [discriminate|].
  destruct (String.eqb k' k); [intros [= <-]; exact Hw | exact IH].
Qed.

Lemma insertionKey_spec (k : string) :
  insertionKey k = true -> String.eqb k "__proto__" = false /\ arrayIndex k = None.
Proof.
  unfold insertionKey. intros H. apply andb_true_iff in H as [H1 H2].
  apply negb_true_iff in H1. split; [exact H1|].
  destruct (arrayIndex k); [discriminate H2 | reflexivity].
Qed.

Lemma ordinaryKey_spec (k : string) :
  ordinaryKey k = true -> insertionKey k = true /\ inheritedName k = false.
Proof.
  unfold ordinaryKey. intros H. apply andb_true_iff in H as [H1 H2].
  now apply negb_true_iff in H2.
Qed.

(** A new name that is no array index and is not [__proto__] goes last. *)
Lemma obj_set_fresh (obj : JsObject) (k : string) (v : JsValue) :
  ~ In k (Object_keys obj) -> insertionKey k = true -> obj_set obj k v = obj ++ [(k, v)].
Proof.
  intros Hk Hins. apply insertionKey_spec in Hins as [Hproto Hindex].
  unfold obj_set. rewrite Hproto, Hindex.
  destruct (obj_has obj k) eqn:Hhas; [|reflexivity].
  apply obj_has_In in Hhas. contradiction.
Qed.

Lemma Object_keys_app (o1 o2 : JsObject) :
  Object_keys (o1 ++ o2) = Object_keys o1 ++ Object_keys o2.
Proof. apply map_app. Qed.

Lemma distinct_cons (k : string) (l : list string) :
  distinct (k :: l) = true <-> ~ In k l /\ distinct l = true.
Proof.
  cbn [distinct]. rewrite andb_true_iff, negb_true_iff, existsb_eqb_not_In. tauto.
Qed.

(** Under distinct header names a data row becomes the record of its
    fields, in header order. *)
Lemma processRow_fields (g : string -> string) (cols : list string) :
  forall obj : JsObject,
    distinct cols = true ->
    (forall k, In k cols -> insertionKey k = true) ->
    (forall k, In k cols -> ~ In k (Object_keys obj)) ->
    processRow cols (List.map g cols) obj
    = obj ++ List.map (fun col => (col, JStr (g col))) cols.
Proof.
  induction cols as [|col cols IH]; intros obj Hd Hins Hfresh; cbn [processRow List.map].
  - now rewrite app_nil_r.
  - apply distinct_cons in Hd as [Hcol Hd].
    rewrite obj_set_fresh by (first [apply Hfresh | apply Hins]; now left).
    rewrite IH; [now rewrite <- app_assoc|exact Hd| |].
    + intros k Hk. apply Hins. now right.
    + intros k Hk. rewrite Object_keys_app, in_app_iff. cbn.
      intros [H|[<-|[]]]; [apply (Hfresh k); [now right | exact H] | exact (Hcol Hk)].
Qed.

Lemma arr_get_middle (pre post : Row) (v : JsValue) :
  arr_get (pre ++ v :: post) (length pre) = v.
Proof. unfold arr_get. now rewrite list_lookup_middle. Qed.

(** The same for [convertValuesToObjects], whose cells pass through the
    default [|| '']. *)
Lemma reduceHeaders_fields (f : string -> JsValue) (cols : list string) :
  forall (pre : Row) (obj : JsObject),
    distinct cols = true ->
    (forall k, In k cols -> insertionKey k = true) ->
    (forall k, In k cols -> ~ In k (Object_keys obj)) ->
    reduceHeaders (length pre) (List.map JStr cols) (pre ++ List.map f cols) obj
    = obj ++ List.map (fun col => (col, js_or (f col) (JStr EmptyString))) cols.
Proof.
  induction cols as [|col cols IH]; intros pre obj Hd Hins Hfresh;
    cbn [reduceHeaders List.map].
  - now rewrite app_nil_r.
  - apply distinct_cons in Hd as [Hcol Hd].
    rewrite arr_get_middle. cbn [js_toString].
    rewrite obj_set_fresh by (first [apply Hfresh | apply Hins]; now left).
    replace (pre ++ f col :: List.map f cols) with ((pre ++ [f col]) ++ List.map f cols)
      by now rewrite <- app_assoc.
    replace (S (length pre)) with (length (pre ++ [f col]))
      by (rewrite length_app; cbn; lia).
    rewrite IH; [now rewrite <- app_assoc|exact Hd| |].
    + intros k Hk. apply Hins. now right.
    + intros k Hk. rewrite Object_keys_app, in_app_iff. cbn.
      intros [H|[<-|[]]]; [apply (Hfresh k); [now right | exact H] | exact (Hcol Hk)].
Qed.

(** *** From records to a grid and back *)

Lemma completeRecord_grid (columns : list string) (item : JsObject) :
  gridRecord item ->
  List.map (fun col =>
              (col, js_or (if obj_has item col then obj_get item col else JStr EmptyString) (JStr EmptyString)))
           columns
  = completeRecord columns item.
Proof.
  intros Hitem. unfold completeRecord. apply map_ext. intros col. f_equal.
  rewrite obj_get_own.
  destruct (obj_own item col) as [v|] eqn:Hown.
  - replace (obj_has item col) with true
      by (destruct (obj_has item col) eqn:E; [reflexivity|];
          now rewrite (obj_own_absent _ _ E) in Hown).
    change (default (inherited col) (Some v)) with v.
    assert (Hv : gridFaithful v).
    { apply (obj_own_Some gridFaithful item col v); [|exact Hown].
      eapply Forall_impl; [exact Hitem|]. intros kv H. exact (proj2 H). }
    destruct Hv as [Hv|[Hv|Hv]].
    + rewrite Hv. destruct v; try discriminate Hv; reflexivity.
    + rewrite Hv. reflexivity.
    + unfold js_or. rewrite Hv. destruct v; try discriminate Hv; reflexivity.
  - now rewrite (obj_own_None _ _ Hown).
Qed.

Lemma gridRecord_keys (data : list JsObject) (k : string) :
  Forall gridRecord data -> In k (getUniqueKeys data) -> insertionKey k = true.
Proof.
  intros Hdata Hk. apply getUniqueKeys_In in Hk as (item & Hin & Hk).
  rewrite List.Forall_forall in Hdata. specialize (Hdata item Hin).
  unfold gridRecord in Hdata. rewrite List.Forall_forall in Hdata.
  unfold Object_keys in Hk. apply in_map_iff in Hk as ([k' v] & <- & Hkv).
  exact (proj1 (Hdata _ Hkv)).
Qed.

Lemma convertValuesToObjects_recordsToGrid (data : list JsObject) :
  Forall gridRecord data ->
  convertValuesToObjects (recordsToGrid data)
  = List.map (completeRecord (getUniqueKeys data)) data.
Proof.
  intros Hdata. destruct data as [|item0 rest]; [reflexivity|].
  unfold recordsToGrid. cbn [convertValuesToObjects].
  set (data := item0 :: rest) in *. set (columns := getUniqueKeys data).
  rewrite map_map. apply map_ext_in. intros item Hin.
  pose proof (reduceHeaders_fields
                (fun col => if obj_has item col then obj_get item col else JStr EmptyString)
                columns [] [] (getUniqueKeys_distinct data)
                (fun k Hk => gridRecord_keys data k Hdata Hk) (fun k _ H => H)) as Hred.
  cbn [length app] in Hred. rewrite Hred.
  apply completeRecord_grid. rewrite List.Forall_forall in Hdata. apply Hdata, Hin.
Qed.

(** *** From records to CSV text and back *)

Lemma substring_all (s : string) :
  forall n : nat, (String.length s <= n)%nat -> String.substring 0 n s = s.
Proof.
  induction s as [|c s IH]; intros n Hn.
  - destruct n; reflexivity.
  - destruct n as [|n]; [cbn in Hn; lia|]. cbn [String.substring].
    rewrite IH; [reflexivity | cbn in Hn; lia].
Qed.

Lemma cellText_faithful (charLimit : Z) (s : string) :
  csvFaithful charLimit (JStr s) -> cellText charLimit (JStr s) = s.
Proof.
  intros [Htrim Hlen]. unfold cellText, convertToSafeValue. cbn [is_nullish typeof_object js_toString].
  rewrite Htrim. unfold substring0. apply substring_all. lia.
Qed.

Lemma csvCell_reads_as (charLimit : Z) (item : JsObject) (col : string) :
  csvFaithful charLimit (obj_get item col) ->
  reads_as (csvCell charLimit item col) (fieldText item col).
Proof.
  intros Hv. unfold csvCell, fieldText.
  destruct (obj_get item col) eqn:Hget; cbn in Hv; try contradiction;
    cbn [is_nullish]; try apply reads_as_empty.
  rewrite (cellText_faithful charLimit s Hv). apply reads_as_quoted.
Qed.

Lemma completeRecord_csv (charLimit : Z) (columns : list string) (item : JsObject) :
  Forall (fun kv => csvFaithful charLimit (snd kv)) item ->
  List.map (fun col => (col, JStr (fieldText item col))) columns = completeRecord columns item.
Proof.
  intros Hitem. unfold completeRecord, fieldText. apply map_ext. intros col. f_equal.
  rewrite obj_get_own. destruct (obj_own item col) as [v|] eqn:Hown.
  - change (default (inherited col) (Some v)) with v.
    pose proof (obj_own_Some (csvFaithful charLimit) item col v Hitem Hown) as Hv.
    destruct v; cbn in Hv; try contradiction; reflexivity.
  - change (default (inherited col) None) with (inherited col).
    pose proof (inherited_not_text col) as Hn.
    destruct (inherited col); try reflexivity. now contradiction (Hn s).
Qed.

Lemma str_truthy_nonempty (s : string) : s <> EmptyString -> str_truthy s = true.
Proof. destruct s; [congruence | reflexivity]. Qed.

Lemma filter_all {A : Type} (p : A -> bool) (l : list A) :
  (forall x, In x l -> p x = true) -> List.filter p l = l.
Proof.
  induction l as [|x l IH]; intros H; [reflexivity|]. cbn [List.filter].
  rewrite (H x (or_introl eq_refl)), IH; [reflexivity|]. intros y Hy. apply H. now right.
Qed.

Lemma csvRecord_column (charLimit : Z) (data : list JsObject) (item : JsObject) :
  In item data -> csvRecord charLimit item ->
  exists k s, In k (getUniqueKeys data) /\ obj_get item k = JStr s /\ s <> EmptyString.
Proof.
  intros Hin [_ (k & s & Hget & Hs)]. exists k, s. split; [|auto].
  apply getUniqueKeys_In. exists item. split; [exact Hin|].
  apply obj_has_In. destruct (obj_has item k) eqn:Hhas; [reflexivity|].
  rewrite (obj_get_absent item k Hhas) in Hget. now contradiction (inherited_not_text k s).
Qed.

Lemma csvRecord_has_text (charLimit : Z) (data : list JsObject) (item : JsObject) :
  In item data -> csvRecord charLimit item ->
  testEmptyLine (List.map (fieldText item) (getUniqueKeys data)) = false.
Proof.
  intros Hin Hitem.
  destruct (csvRecord_column charLimit data item Hin Hitem) as (k & s & Hk & Hget & Hs).
  destruct (getUniqueKeys data) as [|c [|c' cs]]; [destruct Hk | | reflexivity].
  destruct Hk as [<-|[]]. cbn [List.map testEmptyLine]. unfold fieldText. rewrite Hget.
  now rewrite (str_truthy_nonempty s Hs).
Qed.

Lemma csvToJson_makeCSVFromData (data : list JsObject) (charLimit : Z) :
  Forall (csvRecord charLimit) data ->
  csvToJson (makeCSVFromData data charLimit)
  = Some (List.map (completeRecord (getUniqueKeys data)) data).
Proof.
  intros Hdata. destruct data as [|item0 rest]; [reflexivity|].
  rewrite List.Forall_forall in Hdata.
  set (data := item0 :: rest) in *. set (columns := getUniqueKeys data).
  assert (Hplain : forall k, In k columns -> plainKey k).
  { intros k Hk. apply getUniqueKeys_In in Hk as (item & Hin & Hk).
    destruct (Hdata item Hin) as [Hpairs _]. rewrite List.Forall_forall in Hpairs.
    unfold Object_keys in Hk. apply in_map_iff in Hk as ([k' v] & <- & Hkv).
    exact (proj1 (Hpairs _ Hkv)). }
  assert (Hne : columns <> []).
  { destruct (csvRecord_column charLimit data item0 (or_introl eq_refl)
                (Hdata item0 (or_introl eq_refl))) as (k & s & Hk & _).
    fold columns in Hk. intros E. rewrite E in Hk. destruct Hk. }
  assert (Hhead : testEmptyLine columns = false).
  { destruct columns as [|c [|c' cs]]; [congruence| |reflexivity].
    cbn [testEmptyLine].
    now rewrite (str_truthy_nonempty c (proj1 (Hplain c (or_introl eq_refl)))). }
  set (lines := (columns, columns)
                  :: List.map (fun item => (List.map (csvCell charLimit item) columns,
                                            List.map (fieldText item) columns)) data).
  assert (Htext : makeCSVFromData data charLimit
                  = String.concat EmptyString (List.map (fun l => csvLine (fst l)) lines)).
  { unfold data. rewrite makeCSVFromData_lines. fold data. fold columns.
    subst lines. cbn [List.map fst]. rewrite concat_nil_cons, map_map. reflexivity. }
  assert (Hlines : Forall (fun l => Forall2 reads_as (fst l) (snd l) /\ fst l <> []) lines).
  { subst lines. constructor.
    - cbn [fst snd]. split; [|exact Hne].
      clear Hhead Htext Hne. induction columns as [|c cs IH]; constructor.
      + apply reads_as_plain, (Hplain c). now left.
      + apply IH. intros k Hk. apply Hplain. now right.
    - apply List.Forall_forall. intros l Hl.
      apply in_map_iff in Hl as (item & <- & Hin). cbn [fst snd].
      destruct (Hdata item Hin) as [Hpairs _].
      split; [|intros E; apply map_eq_nil in E; exact (Hne E)].
      clear Hhead Htext Hne. induction columns as [|c cs IH]; constructor.
      + apply csvCell_reads_as, (obj_get_Forall (csvFaithful charLimit)).
        * eapply Forall_impl; [exact Hpairs|]. intros kv H. exact (proj2 H).
        * destruct (Hplain c (or_introl eq_refl)) as (_ & _ & _ & _ & Hord).
          apply ordinaryKey_spec in Hord as [_ Hinh].
          rewrite (inherited_none c Hinh). exact I.
      + apply IH. intros k Hk. apply Hplain. now right. }
  unfold csvToJson. rewrite Htext. subst lines. rewrite (papa_rows_lines _ _ Hlines).
  cbn [List.map snd app List.filter]. rewrite Hhead. cbn [negb].
  rewrite map_map. cbn [snd]. rewrite List.filter_app. cbn [List.filter testEmptyLine str_truthy negb].
  rewrite app_nil_r, filter_all.
  2:{ intros row Hrow. apply in_map_iff in Hrow as (item & <- & Hin).
      pose proof (csvRecord_has_text charLimit data item Hin (Hdata item Hin)) as Hrow.
      fold columns in Hrow. now rewrite Hrow. }
  replace (List.map trim columns) with columns.
  2:{ symmetry. rewrite <- (map_id columns) at 2. apply map_ext_in.
      intros k Hk. exact (proj1 (proj2 (proj2 (Hplain k Hk)))). }
  assert (Hins : forall k, In k columns -> insertionKey k = true).
  { intros k Hk. destruct (Hplain k Hk) as (_ & _ & _ & _ & Hord).
    exact (proj1 (ordinaryKey_spec k Hord)). }
  rewrite (getUniqueKeys_distinct data : distinct columns = true).
  replace (existsb (String.eqb "__parsed_extra") columns) with false.
  2:{ symmetry. apply existsb_eqb_not_In. intros Hk.
      exact (proj1 (proj2 (proj2 (proj2 (Hplain _ Hk)))) eq_refl). }
  cbn [andb negb]. f_equal. rewrite map_map. apply map_ext_in. intros item Hin.
  rewrite (processRow_fields (fieldText item) columns [] (getUniqueKeys_distinct data)
             Hins (fun k _ H => H)).
  cbn [app]. apply (completeRecord_csv charLimit).
  destruct (Hdata item Hin) as [Hpairs _].
  eapply Forall_impl; [exact Hpairs|]. intros kv H. exact (proj2 H).
Qed.

Lemma obj_get_completeRecord (columns : list string) (item : JsObject) (k : string) :
  In k columns ->
  obj_get (completeRecord columns item) k
  = match obj_own item k with
    | Some v => if is_nullish v then JStr EmptyString else v
    | None => JStr EmptyString
    end.
Proof.
  unfold completeRecord. induction columns as [|c columns IH]; intros Hk; [destruct Hk|].
  cbn [List.map obj_get]. destruct (String.eqb c k) eqn:E.
  - apply String.eqb_eq in E. now subst c.
  - apply IH. destruct Hk as [->|Hk]; [|exact Hk]. now rewrite String.eqb_refl in E.
Qed.


Lemma people_gridRecord : Forall gridRecord people.
Proof. repeat constructor; right; right; reflexivity. Qed.

Lemma people_csvRecord : Forall (csvRecord defaultCharLimit) people.
Proof.
  repeat constructor; cbn [fst snd];
    try (repeat split; try reflexivity; try discriminate; cbn; lia).
  - exists "name", "John". split; [reflexivity | discriminate].
  - exists "name", "Jane". split; [reflexivity | discriminate].
Qed.



(** * Further properties *)

(** ** Retry executor: success, no attempts, waiting time, log records *)

Section ExecutorMore.
Context {W T : Type}.
Variable apiCall : W -> Completion T * W.
Variable random : nat -> Q.
Variable M : Z.
Variable MB : Q.

Local Abbreviation loop := (retry_loop apiCall random M MB).

Ltac loop_case cr :=
  cbn [retry_loop];
  destruct (Z.of_nat cr <=? M) eqn:Htest;
  [ apply Z.leb_le in Htest | apply Z.leb_gt in Htest ].

Lemma state_before_succ (k : nat) :
  forall st : W, state_before apiCall (S k) st = snd (apiCall (state_before apiCall k st)).
Proof.
  induction k as [|k IH]; intros st; [reflexivity|].
  change (state_before apiCall (S (S k)) st)
    with (state_before apiCall (S k) (snd (apiCall st))).
  rewrite IH. reflexivity.
Qed.

(** The executor changes the world through the invocations only. *)
Lemma retry_loop_state (fuel : nat) :
  forall (cr : nat) (st : W),
    final_state (loop fuel cr st)
    = state_before apiCall (invocations (events (loop fuel cr st))) st.
Proof.
  induction fuel as [|fuel IH]; intros cr st.
  - loop_case cr; reflexivity.
  - loop_case cr; [|reflexivity].
    destruct (apiCall st) as [[v|error] st'] eqn:Hcall.
    + cbn. now rewrite Hcall.
    + destruct (negb (isRetryableError error) || (M <=? Z.of_nat cr)).
      * cbn. now rewrite Hcall.
      * specialize (IH (S cr) st').
        destruct (loop fuel (S cr) st') as [[o st''] evs] eqn:Hrec.
        cbn in IH |- *. now rewrite Hcall.
Qed.

(** One warning per wait, and one error record exactly when an error is
    thrown. *)
Lemma retry_loop_records (fuel : nat) :
  forall (cr : nat) (st : W),
    let r := loop fuel cr st in
    warnings (events r) = length (delays (events r)) /\
    errorRecords (events r) = match outcome r with Thrown _ => 1%nat | _ => 0%nat end.
Proof.
  induction fuel as [|fuel IH]; intros cr st r; subst r.
  - loop_case cr; cbn; auto.
  - loop_case cr; [|cbn; auto].
    destruct (apiCall st) as [[v|error] st'] eqn:Hcall; [cbn; auto|].
    destruct (negb (isRetryableError error) || (M <=? Z.of_nat cr)); [cbn; auto|].
    specialize (IH (S cr) st').
    destruct (loop fuel (S cr) st') as [[o st''] evs] eqn:Hrec.
    cbn in IH |- *. destruct IH as [-> ->]. auto.
Qed.

Lemma delays_at_most (fuel : nat) (cr : nat) (st : W) :
  Forall (fun d => (d <= MB)%Q) (delays (events (loop fuel cr st))).
Proof.
  rewrite retry_loop_delays. apply List.Forall_forall. intros d Hd.
  apply in_map_iff in Hd as (i & <- & _). unfold backoffDelay. apply Q.le_min_r.
Qed.
End ExecutorMore.

Lemma sum_at_most (MB : Q) (ds : list Q) :
  Forall (fun d => (d <= MB)%Q) ds ->
  (fold_right Qplus 0 ds <= inject_Z (Z.of_nat (length ds)) * MB)%Q.
Proof.
  induction 1 as [|d ds Hd _ IH].
  - cbn. rewrite Qmult_0_l. apply Qle_refl.
  - cbn [fold_right length]. rewrite Nat2Z.inj_succ. unfold Z.succ.
    rewrite inject_Z_plus, Qmult_plus_distr_l, Qmult_1_l, Qplus_comm.
    apply Qplus_le_compat; assumption.
Qed.

(** X1. The executor returns the first answer: when the invocations before
    number [k] fail with retryable errors, [k] is within [maxRetries] and
    invocation [k] answers [v], the run returns [v] after [k + 1] invocations
    and [k] waits, with one warning per wait and no error record, and leaves
    the world as invocation [k] left it. *)
Theorem retryWithBackoff_returns_first_answer
    {W T : Type} (cfg : Config) (random : nat -> Q) (apiCall : W -> Completion T * W)
    (customMaxRetries : option Z) (customMaxBackoff : option Q) (st : W) (k : nat) (v : T) :
  let M := default (maxRetries cfg) customMaxRetries in
  let r := retryWithBackoff cfg random apiCall customMaxRetries customMaxBackoff st in
  Z.of_nat k <= M ->
  (forall j, (j < k)%nat ->
     exists e, nth_result apiCall j st = Throw e /\ isRetryableError e = true) ->
  nth_result apiCall k st = Normal v ->
  outcome r = Returned v /\
  invocations (events r) = S k /\
  length (delays (events r)) = k /\
  warnings (events r) = k /\
  errorRecords (events r) = O /\
  final_state r = snd (apiCall (state_before apiCall k st)).
Proof.
  intros M r Hk Hprev Hres. subst r. unfold retryWithBackoff. fold M.
  set (MB := default (maxBackoffMs cfg) customMaxBackoff).
  pose proof (retry_loop_run apiCall random M MB k (loopBound M) O st
                ltac:(unfold loopBound; lia) ltac:(lia) Hprev) as Hrun.
  cbn zeta in Hrun. rewrite Hres in Hrun. destruct Hrun as (Ho & Hi & Hd).
  pose proof (retry_loop_records apiCall random M MB (loopBound M) O st) as Hrec.
  cbn zeta in Hrec. destruct Hrec as [Hw He].
  pose proof (retry_loop_state apiCall random M MB (loopBound M) O st) as Hst.
  rewrite Ho in He. rewrite Hd in Hw. rewrite Hi, state_before_succ in Hst.
  repeat split; assumption.
Qed.

Lemma retryWithBackoff_returns_first_answer_witness :
  outcome (retryWithBackoff defaultConfig (fun _ => 0%Q) thirdTimeLucky None None O)
  = Returned "ok" /\
  invocations (events (retryWithBackoff defaultConfig (fun _ => 0%Q) thirdTimeLucky None None O))
  = 3%nat.
Proof.
  assert (H := retryWithBackoff_returns_first_answer defaultConfig (fun _ => 0%Q)
                 thirdTimeLucky None None O 2 "ok").
  cbn zeta in H.
  assert (Hk : Z.of_nat 2 <= default (maxRetries defaultConfig) None) by (cbn; lia).
  assert (Hprev : forall j, (j < 2)%nat ->
            exists e, nth_result thirdTimeLucky j O = Throw e /\ isRetryableError e = true).
  { intros j Hj. exists (mkError (JNum 503) "Service Unavailable").
    destruct j as [|[|j]]; [split; reflexivity | split; reflexivity | lia]. }
  destruct (H Hk Hprev eq_refl) as (Ho & Hi & _). split; assumption.
Defined.

(** X2. With a negative [maxRetries] the wrapped operation is never invoked:
    the executor yields [undefined] at once, with no wait and no log record,
    and the world is untouched. *)
Theorem retryWithBackoff_negative_maxRetries
    {W T : Type} (cfg : Config) (random : nat -> Q) (apiCall : W -> Completion T * W)
    (customMaxRetries : option Z) (customMaxBackoff : option Q) (st : W) :
  default (maxRetries cfg) customMaxRetries < 0 ->
  retryWithBackoff cfg random apiCall customMaxRetries customMaxBackoff st
  = (FellThrough, st, []).
Proof.
  intros HM. unfold retryWithBackoff, loopBound.
  replace (Z.to_nat (default (maxRetries cfg) customMaxRetries + 1)) with O by lia.
  cbn [retry_loop].
  replace (Z.of_nat 0 <=? default (maxRetries cfg) customMaxRetries) with false
    by (symmetry; apply Z.leb_gt; lia).
  reflexivity.
Qed.

Lemma retryWithBackoff_negative_maxRetries_witness :
  default (maxRetries defaultConfig) (Some (-1)) < 0 /\
  retryWithBackoff defaultConfig (fun _ => 0%Q) always503 (Some (-1)) None O
  = (FellThrough, O, []).
Proof.
  assert (H : default (maxRetries defaultConfig) (Some (-1)) < 0) by (cbn; lia).
  split; [exact H|].
  exact (retryWithBackoff_negative_maxRetries defaultConfig (fun _ => 0%Q) always503
           (Some (-1)) None O H).
Defined.

(** X3. Whatever the operation and the random draws, a call waits for at
    most [maxRetries * maxBackoffMs] milliseconds in all, when both settings
    are not negative. *)
Theorem retryWithBackoff_total_wait
    {W T : Type} (cfg : Config) (random : nat -> Q) (apiCall : W -> Completion T * W)
    (customMaxRetries : option Z) (customMaxBackoff : option Q) (st : W) :
  let M := default (maxRetries cfg) customMaxRetries in
  let MB := default (maxBackoffMs cfg) customMaxBackoff in
  0 <= M -> (0 <= MB)%Q ->
  (total_wait (events (retryWithBackoff cfg random apiCall customMaxRetries customMaxBackoff st))
   <= inject_Z M * MB)%Q.
Proof.
  intros M MB HM HMB. unfold retryWithBackoff, total_wait. fold M MB.
  pose proof (retry_loop_bounds apiCall random M MB (loopBound M) O st
                ltac:(unfold loopBound; lia)) as Hb.
  cbn zeta in Hb. destruct Hb as (_ & _ & Hdel & _).
  eapply Qle_trans; [apply sum_at_most, delays_at_most|].
  apply Qmult_le_compat_r; [|exact HMB].
  rewrite <- Zle_Qle. lia.
Qed.

Lemma retryWithBackoff_total_wait_witness :
  0 <= 5 /\ (0 <= 64000 # 1)%Q /\
  (total_wait (events (retryWithBackoff defaultConfig (fun _ => 1 # 2) always503 None None O))
   <= inject_Z 5 * (64000 # 1))%Q.
Proof.
  assert (H1 : 0 <= default (maxRetries defaultConfig) None) by (cbn; lia).
  assert (H2 : (0 <= default (maxBackoffMs defaultConfig) None)%Q) by discriminate.
  split; [exact H1|]. split; [exact H2|].
  exact (retryWithBackoff_total_wait defaultConfig (fun _ => 1 # 2) always503 None None O H1 H2).
Defined.

(** X4. Every run logs one warning per wait and logs an error record
    exactly when it throws: a run that returns or falls through logs none,
    a run that throws logs one. *)
Theorem retryWithBackoff_log_records
    {W T : Type} (cfg : Config) (random : nat -> Q) (apiCall : W -> Completion T * W)
    (customMaxRetries : option Z) (customMaxBackoff : option Q) (st : W) :
  let r := retryWithBackoff cfg random apiCall customMaxRetries customMaxBackoff st in
  warnings (events r) = length (delays (events r)) /\
  (errorRecords (events r) = 1%nat <-> exists e, outcome r = Thrown e) /\
  (errorRecords (events r) = 0%nat <-> forall e, outcome r <> Thrown e).
Proof.
  intros r. subst r. unfold retryWithBackoff.
  pose proof (retry_loop_records apiCall random (default (maxRetries cfg) customMaxRetries)
                (default (maxBackoffMs cfg) customMaxBackoff)
                (loopBound (default (maxRetries cfg) customMaxRetries)) O st) as H.
  cbn zeta in H. destruct H as [Hw He]. split; [exact Hw|].
  rewrite He. destruct (outcome _) as [v| |e|]; split; split;
    try discriminate; try reflexivity; try (intros [e' H]; discriminate H);
    try (intros H; now eauto); try (intros e' H; discriminate H).
  intros H. now contradiction (H e).
Qed.

(** ** Header of a set of records ([getUniqueKeys]) *)

(** X5. The header holds no name twice and holds exactly the names that
    are keys of some record. *)
Theorem getUniqueKeys_set (data : list JsObject) :
  distinct (getUniqueKeys data) = true /\
  (forall k, In k (getUniqueKeys data) <->
             exists item, In item data /\ obj_has item k = true).
Proof.
  split; [apply getUniqueKeys_distinct|].
  intros k. rewrite getUniqueKeys_In. split; intros (item & Hin & Hk); exists item;
    (split; [exact Hin | now apply obj_has_In]).
Qed.

Lemma fold_set_add_distinct (keys : list string) :
  forall acc : list string,
    distinct (acc ++ keys) = true -> fold_left set_add keys acc = acc ++ keys.
Proof.
  induction keys as [|k keys IH]; intros acc Hd; cbn [fold_left].
  - now rewrite app_nil_r.
  - assert (Hk : ~ In k acc).
    { clear IH. induction acc as [|a acc IHa]; [tauto|].
      cbn [app] in Hd. apply distinct_cons in Hd as [Ha Hd].
      intros [->|Hin]; [apply Ha; rewrite in_app_iff; right; now left | exact (IHa Hd Hin)]. }
    unfold set_add at 2. replace (existsb (String.eqb k) acc) with false
      by (symmetry; now apply existsb_eqb_not_In).
    rewrite IH; rewrite <- app_assoc; [reflexivity | exact Hd].
Qed.

Lemma fold_set_add_prefix (keys : list string) :
  forall acc : list string, exists more, fold_left set_add keys acc = acc ++ more.
Proof.
  induction keys as [|k keys IH]; intros acc; cbn [fold_left].
  - exists []. now rewrite app_nil_r.
  - destruct (IH (set_add acc k)) as [more Hmore]. rewrite Hmore. unfold set_add.
    destruct (existsb (String.eqb k) acc); [now exists more|].
    exists (k :: more). now rewrite <- app_assoc.
Qed.

Lemma fold_keys_prefix (data : list JsObject) :
  forall acc : list string,
    exists more,
      fold_left (fun keysSet item => fold_left set_add (Object_keys item) keysSet) data acc
      = acc ++ more.
Proof.
  induction data as [|item data IH]; intros acc; cbn [fold_left].
  - exists []. now rewrite app_nil_r.
  - destruct (fold_set_add_prefix (Object_keys item) acc) as [m1 H1]. rewrite H1.
    destruct (IH (acc ++ m1)) as [m2 H2]. rewrite H2.
    exists (m1 ++ m2). now rewrite app_assoc.
Qed.



(** ** Cells of the CSV writer *)

Lemma substring_length (s : string) :
  forall n : nat, (String.length (String.substring 0 n s) <= n)%nat.
Proof.
  induction s as [|c s IH]; intros n.
  - destruct n; cbn; lia.
  - destruct n as [|n]; [cbn; lia|]. cbn [String.substring String.length].
    specialize (IH n). lia.
Qed.

Lemma str_length_app (a b : string) :
  String.length (a ++ b) = (String.length a + String.length b)%nat.
Proof. induction a as [|c a IH]; [reflexivity|]. rewrite str_app_cons. cbn. now rewrite IH. Qed.

Lemma replace_quotes_length (t : string) :
  (String.length (replace_quotes (quote ++ quote) t) <= 2 * String.length t)%nat.
Proof.
  induction t as [|c t IH]; [cbn; lia|]. cbn [replace_quotes].
  destruct (Ascii.eqb c DQ).
  - rewrite str_length_app. change (String.length (quote ++ quote)) with 2%nat.
    cbn [String.length]. lia.
  - cbn [String.length]. lia.
Qed.

(** X7. Whatever the value, the text put between the quotes of a cell is at
    most [charLimit] characters long (none for a limit that is not
    positive), and the cell itself, with its quotes and doubled quotes, at
    most twice the limit plus two. *)
Theorem cellText_within_limit (charLimit : Z) (item : JsObject) (col : string) :
  Z.of_nat (String.length (cellText charLimit (obj_get item col))) <= Z.max 0 charLimit /\
  Z.of_nat (String.length (csvCell charLimit item col)) <= 2 * Z.max 0 charLimit + 2.
Proof.
  assert (H : Z.of_nat (String.length (cellText charLimit (obj_get item col)))
              <= Z.max 0 charLimit).
  { unfold cellText, substring0.
    pose proof (substring_length (trim (js_toString (convertToSafeValue (obj_get item col))))
                  (Z.to_nat charLimit)).
    lia. }
  split; [exact H|]. unfold csvCell.
  destruct (is_nullish (obj_get item col)); [cbn; lia|].
  rewrite !str_length_app.
  pose proof (replace_quotes_length (cellText charLimit (obj_get item col))).
  change (String.length quote) with 1%nat. lia.
Qed.

(** ** Grid to records ([convertValuesToObjects]) *)

Lemma reduceHeaders_imap (cols : list string) :
  forall (i : nat) (row : Row) (obj : JsObject),
    distinct cols = true ->
    Forall (fun col => insertionKey col = true) cols ->
    (forall k, In k cols -> ~ In k (Object_keys obj)) ->
    reduceHeaders i (List.map JStr cols) row obj
    = obj ++ imap (fun j col => (col, js_or (arr_get row (i + j)) (JStr EmptyString))) cols.
Proof.
  induction cols as [|col cols IH]; intros i row obj Hd Hins Hfresh;
    cbn [reduceHeaders List.map].
  - cbn. now rewrite app_nil_r.
  - apply distinct_cons in Hd as [Hcol Hd]. cbn [js_toString].
    apply Forall_cons_1 in Hins as [Hins0 Hins].
    rewrite obj_set_fresh by (first [apply Hfresh; now left | exact Hins0]).
    rewrite IH; [|exact Hd|exact Hins|].
    + rewrite <- app_assoc. cbn [app imap]. rewrite Nat.add_0_r. do 2 f_equal.
      apply imap_ext. intros j c _. cbn. do 3 f_equal. lia.
    + intros k Hk. rewrite Object_keys_app, in_app_iff. cbn.
      intros [H|[<-|[]]]; [apply (Hfresh k); [now right | exact H] | exact (Hcol Hk)].
Qed.

Lemma Object_keys_imap (f : nat -> JsValue) (cols : list string) :
  Object_keys (imap (fun j col => (col, f j)) cols) = cols.
Proof.
  revert f. induction cols as [|col cols IH]; intros f; [reflexivity|].
  cbn [imap]. unfold Object_keys in *. cbn [List.map fst]. f_equal. apply (IH (f ∘ S)).
Qed.

Lemma obj_get_imap (cols : list string) :
  forall (f : nat -> JsValue) (j : nat) (col : string),
    distinct cols = true -> cols !! j = Some col ->
    obj_get (imap (fun j col => (col, f j)) cols) col = f j.
Proof.
  induction cols as [|c cols IH]; intros f j col Hd Hj; [discriminate Hj|].
  apply distinct_cons in Hd as [Hc Hd]. cbn [imap obj_get].
  destruct j as [|j]; cbn in Hj.
  - injection Hj as ->. now rewrite String.eqb_refl.
  - replace (String.eqb c col) with false.
    + apply (IH (f ∘ S) j col Hd Hj).
    + symmetry. apply String.eqb_neq. intros ->. apply Hc.
      apply list_elem_of_In. eapply list_elem_of_lookup_2. exact Hj.
Qed.

(** X8. Under a header of distinct names, none of them an array index or
    [__proto__], every row after the header becomes one record, in order; the
    record's keys are the header names in header order, and the value under
    the name of column [j] is cell [j] of the row, or the empty string when
    the row is too short or the cell is falsy; cells past the header are left
    out.  No rows, or a header alone, give no records. *)
Theorem convertValuesToObjects_records (cols : list string) (rows : list Row) :
  distinct cols = true -> Forall (fun col => insertionKey col = true) cols ->
  let records := convertValuesToObjects (List.map JStr cols :: rows) in
  length records = length rows /\
  (forall r row, rows !! r = Some row ->
     exists record,
       records !! r = Some record /\
       Object_keys record = cols /\
       forall j col, cols !! j = Some col ->
         obj_get record col = js_or (arr_get row j) (JStr EmptyString)) /\
  convertValuesToObjects [] = [] /\
  convertValuesToObjects [List.map JStr cols] = [].
Proof.
  intros Hd Hins records. subst records. cbn [convertValuesToObjects].
  split; [apply length_map|]. split; [|split; reflexivity].
  intros r row Hrow. exists (reduceHeaders 0 (List.map JStr cols) row []).
  split; [now rewrite list_lookup_fmap, Hrow|].
  rewrite (reduceHeaders_imap cols 0 row [] Hd Hins (fun k _ H => H)). cbn [app Nat.add].
  split; [apply (Object_keys_imap (fun j => js_or (arr_get row j) (JStr EmptyString)))|].
  intros j col Hj.
  apply (obj_get_imap cols (fun j => js_or (arr_get row j) (JStr EmptyString)) j col Hd Hj).
Qed.

Lemma convertValuesToObjects_records_witness :
  length (convertValuesToObjects
            (List.map JStr ["name"; "age"] :: [[JStr "John"]; [JStr "Jane"; JStr "25"; JStr "x"]]))
  = 2%nat.
Proof.
  apply (convertValuesToObjects_records ["name"; "age"]
           [[JStr "John"]; [JStr "Jane"; JStr "25"; JStr "x"]]).
  - reflexivity.
  - repeat constructor.
Defined.

(** Header names that spell array indices are listed first, in ascending
    order, and the name [__proto__] makes no property. *)
Example convertValuesToObjects_index_names :
  convertValuesToObjects
    [[JStr "name"; JStr "2024"; JStr "2023"]; [JStr "a"; JStr "b"; JStr "c"]]
  = [[("2023", JStr "c"); ("2024", JStr "b"); ("name", JStr "a")]].
Proof. reflexivity. Qed.

Example convertValuesToObjects_proto_name :
  convertValuesToObjects [[JStr "__proto__"; JStr "b"]; [JStr "x"; JStr "1"]]
  = [[("b", JStr "1")]].
Proof. reflexivity. Qed.

(** ** Merge engine: the merged grid in closed form *)

Lemma merge_rows_closed (rest nd : list Row) :
  merge_rows 1 rest nd = List.map JArr (take (length rest) nd ++ drop (length nd) rest).
Proof.
  apply list_eq. intros j.
  destruct (rest !! j) as [row|] eqn:Hrow.
  - pose proof (lookup_lt_Some _ _ _ Hrow) as Hj.
    rewrite (merge_rows_lookup rest 1 j nd row ltac:(lia) Hrow).
    replace (1 + j - 1)%nat with j by lia.
    rewrite list_lookup_fmap.
    destruct (1 + j <=? length nd)%nat eqn:Hle.
    + apply Nat.leb_le in Hle.
      rewrite lookup_app_l by (rewrite length_take; lia).
      rewrite lookup_take_lt by lia.
      destruct (lookup_lt_is_Some_2 nd j ltac:(lia)) as [x Hx]. rewrite Hx. reflexivity.
    + apply Nat.leb_gt in Hle.
      rewrite lookup_app_r by (rewrite length_take; lia).
      rewrite length_take, lookup_drop.
      replace (length nd + (j - length rest `min` length nd))%nat with j by lia.
      rewrite Hrow. reflexivity.
  - pose proof (lookup_ge_None_1 _ _ Hrow) as Hj.
    rewrite (lookup_ge_None_2 (merge_rows 1 rest nd))
      by (rewrite merge_rows_length; lia).
    symmetry. apply lookup_ge_None_2.
    rewrite length_map, length_app, length_take, length_drop. lia.
Qed.

Lemma mergeData_grid_closed (parse : string -> list (list string))
    (h : Row) (rest nd : list Row) :
  mergeData parse (h :: rest) (Grid nd)
  = Normal (List.map JArr (h :: take (length rest) nd ++ drop (length nd) rest)).
Proof.
  unfold mergeData. rewrite processNewData_Grid.
  cbn [lookup list_lookup row_value merge_rows Nat.eqb app List.map].
  now rewrite merge_rows_closed.
Qed.

(** X9. The merged grid in one formula: the header, then as many rows of
    the new data as the existing grid has data rows, then the existing rows
    that the new data does not reach.  So merging no new rows returns the
    existing grid, and new data with at least as many rows as the existing
    grid has data rows replaces them all and is cut to that number. *)
Theorem mergeData_closed_form (parse : string -> list (list string))
    (h : Row) (rest nd : list Row) :
  mergeData parse (h :: rest) (Grid nd)
  = Normal (List.map JArr (h :: take (length rest) nd ++ drop (length nd) rest)) /\
  mergeData parse (h :: rest) (Grid []) = Normal (List.map JArr (h :: rest)) /\
  ((length rest <= length nd)%nat ->
   mergeData parse (h :: rest) (Grid nd) = Normal (List.map JArr (h :: take (length rest) nd))).
Proof.
  split; [apply mergeData_grid_closed|]. split.
  - rewrite mergeData_grid_closed. now rewrite take_nil.
  - intros Hlen. rewrite mergeData_grid_closed.
    now rewrite (drop_ge rest) by lia; rewrite app_nil_r.
Qed.

(** X10. Merging is idempotent: merging the same new rows into the merged
    grid changes nothing. *)
Theorem mergeData_idempotent (parse : string -> list (list string))
    (h : Row) (rest nd : list Row) :
  let merged := h :: take (length rest) nd ++ drop (length nd) rest in
  mergeData parse (h :: rest) (Grid nd) = Normal (List.map JArr merged) /\
  mergeData parse merged (Grid nd) = Normal (List.map JArr merged).
Proof.
  intros merged. subst merged.
  split; [apply mergeData_grid_closed|].
  set (rest' := take (length rest) nd ++ drop (length nd) rest).
  rewrite (mergeData_grid_closed parse h rest' nd).
  assert (Hlen : length rest' = length rest).
  { subst rest'. rewrite length_app, length_take, length_drop. lia. }
  rewrite Hlen. do 4 f_equal. subst rest'.
  destruct (Nat.le_gt_cases (length nd) (length rest)) as [Hle|Hgt].
  - rewrite take_ge by lia. now rewrite drop_app_length.
  - rewrite (drop_ge rest) by lia. rewrite app_nil_r.
    apply drop_ge. rewrite length_take. lia.
Qed.

(** ** Facade: what reaches the caller of [writeToSheet] and [updateSheet] *)

Section AwaitRetry.
Context {W T : Type}.
Variable cfg : Config.
Variable random : nat -> Q.
Variable call : W -> Completion T * W.

Lemma loopBound_succ : 0 <= maxRetries cfg ->
  loopBound (maxRetries cfg) = S (Z.to_nat (maxRetries cfg)).
Proof. intros H. unfold loopBound. lia. Qed.

(** A request that is answered at once is made once. *)
Lemma awaitRetry_answer (w w' : W) (v : T) :
  0 <= maxRetries cfg -> call w = (Normal v, w') ->
  awaitRetry cfg random call w = (Finished (Normal (Some v)), w', [Retry Invoke]).
Proof.
  intros Hm Hc. unfold awaitRetry, retryWithBackoff. cbn [default].
  rewrite (loopBound_succ Hm). cbn [retry_loop].
  replace (Z.of_nat 0 <=? maxRetries cfg) with true by (symmetry; apply Z.leb_le; lia).
  rewrite Hc. reflexivity.
Qed.

(** An error that is not retryable is thrown at once. *)
Lemma awaitRetry_fatal (w w' : W) (e : JsError) :
  0 <= maxRetries cfg -> call w = (Throw e, w') -> isRetryableError e = false ->
  awaitRetry cfg random call w
  = (Finished (Throw e), w', [Retry Invoke; Retry (LogError 0 (isQuotaError e) false)]).
Proof.
  intros Hm Hc He. unfold awaitRetry, retryWithBackoff. cbn [default].
  rewrite (loopBound_succ Hm). cbn [retry_loop].
  replace (Z.of_nat 0 <=? maxRetries cfg) with true by (symmetry; apply Z.leb_le; lia).
  rewrite Hc, He. reflexivity.
Qed.
End AwaitRetry.

Section FacadeMore.
Context {W : Type}.
Variable cfg : Config.
Variable random : nat -> Q.
Variable spreadsheets_get : string -> W -> Completion (list string) * W.
Variable batchUpdate_addSheet : string -> string -> W -> Completion unit * W.
Variable values_get : string -> string -> W -> Completion (option (list Row)) * W.
Variable values_update : string -> string -> list JsValue -> W -> Completion (option JsValue) * W.
Variable createSheet_body : list string -> W -> Completion string * W.
Variable Papa_parse_data : string -> list (list string).
Variable Papa_unparse : list Row -> string.

Local Abbreviation write :=
  (writeToSheet cfg random spreadsheets_get batchUpdate_addSheet values_update
     createSheet_body Papa_parse_data Papa_unparse).
Local Abbreviation update :=
  (updateSheet cfg random spreadsheets_get batchUpdate_addSheet values_get values_update
     createSheet_body Papa_parse_data Papa_unparse).

Lemma not_retryable_not_quota (e : JsError) :
  isRetryableError e = false -> isQuotaError e = false.
Proof.
  unfold isRetryableError. destruct (isQuotaError e); [discriminate|reflexivity].
Qed.

(** X11. [updateSheet] on a spreadsheet the service does not hold: when
    the read fails with 404, a spreadsheet with the tab is created and the
    new data, whatever its form, is handed unmerged to [writeToSheet] for
    that spreadsheet; what that call gives is the result. *)
Theorem updateSheet_missing_spreadsheet (fuel : nat) (c : Client)
    (spreadsheetId tab newSpreadsheetId : string) (newData : SpreadsheetData)
    (w w1 w2 : W) (e : JsError) :
  0 <= maxRetries cfg -> is_set (sheets c) = true -> str_truthy tab = true ->
  values_get spreadsheetId (tab ++ "!A:ZZ")%string w = (Throw e, w1) ->
  err_code e = JNum 404 -> isRetryableError e = false ->
  createSheet createSheet_body c [tab] w1 = (Normal newSpreadsheetId, w2) ->
  update fuel c spreadsheetId newData (Some tab) w
  = let '(r, w3, t3) := write fuel c newSpreadsheetId newData (Some tab) w2 in
    (r, w3,
     [Retry Invoke; Retry (LogError 0 false false);
      WarnNotFound spreadsheetId; Recreated newSpreadsheetId] ++ t3).
Proof.
  intros Hm Hc Htab Hread Hcode Hfatal Hcreate.
  unfold updateSheet, getSheetArray. cbn [entryGuard]. rewrite Hc, Htab. cbn [negb].
  rewrite (awaitRetry_fatal cfg random _ w w1 e Hm Hread Hfatal).
  rewrite (not_retryable_not_quota e Hfatal).
  unfold updateSheet_catch. rewrite Hcode. cbn [strict_eq_num Z.eqb Pos.eqb].
  rewrite Htab, Hcreate.
  destruct (write fuel c newSpreadsheetId newData (Some tab) w2) as [[r w3] t3].
  reflexivity.
Qed.

(** X12. [updateSheet] called without a tab reads the range [A:ZZ] and
    sends the merged grid to the range [undefined!A1], the text the template
    [${tab}!A1] gives for a missing tab; the answer to that request is the
    result. *)
Theorem updateSheet_without_tab (fuel : nat) (c : Client) (spreadsheetId : string)
    (h : Row) (rest nd : list Row) (data : option JsValue) (w w1 w2 : W) :
  0 <= maxRetries cfg -> is_set (sheets c) = true ->
  values_get spreadsheetId "A:ZZ" w = (Normal (Some (h :: rest)), w1) ->
  values_update spreadsheetId "undefined!A1"
    (List.map JArr (h :: take (length rest) nd ++ drop (length nd) rest)) w1
  = (Normal data, w2) ->
  update fuel c spreadsheetId (Grid nd) None w
  = (Finished (Normal (default JUndefined data)), w2, [Retry Invoke; Retry Invoke]).
Proof.
  intros Hm Hc Hread Hwrite.
  unfold updateSheet, getSheetArray. cbn [entryGuard]. rewrite Hc. cbn [negb].
  rewrite (awaitRetry_answer cfg random _ w w1 _ Hm Hread).
  rewrite mergeData_grid_closed.
  cbn [from_option js_toString].
  change ("undefined" ++ "!A1")%string with "undefined!A1".
  rewrite (awaitRetry_answer cfg random _ w1 w2 _ Hm Hwrite).
  reflexivity.
Qed.

Hypothesis create_not_404 : forall tabs w e w',
  createSheet_body tabs w = (Throw e, w') -> strict_eq_num (err_code e) 404 = false.

Lemma createSheet_not_404 (c : Client) tabs w e w' :
  createSheet createSheet_body c tabs w = (Throw e, w') ->
  strict_eq_num (err_code e) 404 = false.
Proof.
  unfold createSheet, invoke. destruct (entryGuard OpCreateSheet c).
  - apply create_not_404.
  - intros H. injection H as <- _. reflexivity.
Qed.

Lemma writeToSheet_not_404 (fuel : nat) :
  forall c spreadsheetId rows tab w e w' t,
    write fuel c spreadsheetId rows tab w = (Finished (Throw e), w', t) ->
    strict_eq_num (err_code e) 404 = false.
Proof.
  induction fuel as [|fuel IH]; intros c spreadsheetId rows tab w e w' t H;
    [discriminate H|].
  cbn [writeToSheet] in H.
  destruct (entryGuard OpWriteToSheet c); cbn [negb] in H;
    [|injection H as <- _ _; reflexivity].
  destruct (tryWrite _ _ _ _ _ _ _ _ _ _) as [[r w1] t1].
  destruct r as [[data|error]|]; try discriminate H.
  destruct (strict_eq_num (err_code error) 404) eqn:Hcode.
  - destruct (createSheet createSheet_body c [] w1) as [[newId|e'] w2] eqn:Hc.
    + destruct (write fuel c newId _ tab w2) as [[r' w3] t3] eqn:Hw.
      injection H as -> _ _. eapply IH, Hw.
    + injection H as <- _ _. eapply createSheet_not_404, Hc.
  - injection H as <- _ _. exact Hcode.
Qed.

Lemma updateSheet_catch_not_404 fuel c spreadsheetId newData tab error w t0 e w' t :
  updateSheet_catch cfg random spreadsheets_get batchUpdate_addSheet values_update
    createSheet_body Papa_parse_data Papa_unparse fuel c spreadsheetId newData tab error w t0
  = (Finished (Throw e), w', t) ->
  strict_eq_num (err_code e) 404 = false.
Proof.
  unfold updateSheet_catch.
  destruct (strict_eq_num (err_code error) 404) eqn:Hcode.
  - destruct (createSheet createSheet_body c _ w) as [[newId|e'] w1] eqn:Hc.
    + destruct (write fuel c newId newData tab w1) as [[r w2] t2] eqn:Hw.
      intros H. injection H as -> _ _. eapply writeToSheet_not_404, Hw.
    + intros H. injection H as <- _ _. eapply createSheet_not_404, Hc.
  - intros H. injection H as <- _ _. exact Hcode.
Qed.

(** X13. A 404 never reaches the caller of [writeToSheet] or [updateSheet]:
    as long as creating a spreadsheet does not itself fail with 404, every
    error these functions throw has another code, since each 404 of the
    service is answered by a new spreadsheet. *)
Theorem writes_never_throw_404 (fuel : nat) (c : Client) (spreadsheetId : string)
    (data : SpreadsheetData) (tab : option string) (w w' : W) (e : JsError) (t : list Trace) :
  write fuel c spreadsheetId data tab w = (Finished (Throw e), w', t) \/
  update fuel c spreadsheetId data tab w = (Finished (Throw e), w', t) ->
  strict_eq_num (err_code e) 404 = false.
Proof.
  intros [H|H]; [eapply writeToSheet_not_404, H|].
  unfold updateSheet in H.
  destruct (entryGuard OpUpdateSheet c); cbn [negb] in H;
    [|injection H as <- _ _; reflexivity].
  destruct (getSheetArray _ _ _ _ _ _ _) as [[r0 w0] t0].
  destruct r0 as [[existingData|error]|]; try discriminate H;
    [|eapply updateSheet_catch_not_404, H].
  destruct (mergeData _ _ _) as [updatedValues|error];
    [|eapply updateSheet_catch_not_404, H].
  destruct (awaitRetry _ _ _ _) as [[r1 w1] t1].
  destruct r1 as [[[data'|]|error]|]; try discriminate H;
    eapply updateSheet_catch_not_404, H.
Qed.
End FacadeMore.

Lemma writes_never_throw_404_witness :
  writeToSheet defaultConfig (fun _ => 0%Q) noTabs addSheetOk alwaysBadRequest createdName
    (fun _ => [["a"]]) (fun _ => EmptyString) 1 initialized "abc" (Csv "a") None O
  = (Finished (Throw badRequest), O,
     [Retry Invoke; Retry (LogError 0 false false); ErrorFailedToWrite "abc"]) /\
  strict_eq_num (err_code badRequest) 404 = false.
Proof.
  split; [reflexivity|].
  apply (writes_never_throw_404 defaultConfig (fun _ => 0%Q) noTabs addSheetOk twoRows
           alwaysBadRequest createdName (fun _ => [["a"]]) (fun _ => EmptyString)
           ltac:(intros tabs w e w' H; discriminate H)
           1 initialized "abc" (Csv "a") None O O badRequest
           [Retry Invoke; Retry (LogError 0 false false); ErrorFailedToWrite "abc"]).
  left. reflexivity.
Defined.

Lemma updateSheet_missing_spreadsheet_witness :
  updateSheet defaultConfig (fun _ => 0%Q) noTabs addSheetOk readNotFound goneOnly createdName
    (fun _ => [["a"]; ["1"]]) (fun _ => EmptyString) 1 initialized "lost" (Csv "a") (Some "T") O
  = (Finished (Normal (JObj [("updatedCells", JNum 2)])), 1%nat,
     [Retry Invoke; Retry (LogError 0 false false); WarnNotFound "lost"; Recreated "sheet-0";
      Retry Invoke; Retry Invoke; Retry Invoke]).
Proof.
  apply (updateSheet_missing_spreadsheet defaultConfig (fun _ => 0%Q) noTabs addSheetOk
           readNotFound goneOnly createdName (fun _ => [["a"]; ["1"]]) (fun _ => EmptyString)
           1 initialized "lost" "T" "sheet-0" (Csv "a") O O 1%nat notFound);
    try reflexivity.
  cbn. lia.
Defined.

Lemma updateSheet_without_tab_witness :
  updateSheet defaultConfig (fun _ => 0%Q) noTabs addSheetOk twoRows goneOnly createdName
    (fun _ => []) (fun _ => EmptyString) 1 initialized "abc" (Grid [[JStr "9"]]) None O
  = (Finished (Normal (JObj [("updatedCells", JNum 2)])), O, [Retry Invoke; Retry Invoke]).
Proof.
  apply (updateSheet_without_tab defaultConfig (fun _ => 0%Q) noTabs addSheetOk twoRows
           goneOnly createdName (fun _ => []) (fun _ => EmptyString)
           1 initialized "abc" [JStr "a"; JStr "b"] [[JStr "1"; JStr "2"]] [[JStr "9"]]
           (Some (JObj [("updatedCells", JNum 2)])) O O O);
    try reflexivity.
  cbn. lia.
Defined.

(** ** Drive: listing and creating spreadsheets *)

Section DriveFacts.
Context {W : Type}.
Variable cfg : Config.
Variable random : nat -> Q.
Variable files_list : option string -> W -> Completion FileList * W.
Variable spreadsheets_create : string -> W -> Completion (option string) * W.
Variable batchUpdate :
  option string -> list Request -> W -> Completion (option ReplyProperties) * W.
Variable permissions_create : option string -> Permission -> W -> Completion JsValue * W.
Variable environment : string.

Lemma listPages_serves (token : option string) (w w' : W) (pages : list FileList) :
  Drive.serves files_list token w pages w' -> 0 <= maxRetries cfg ->
  forall (fuel : nat) (acc : list SpreadsheetFile), (length pages <= fuel)%nat ->
    Drive.listPages cfg random files_list fuel token acc w
    = (Finished (Normal (acc ++ filesOf pages)), w',
       repeat (Retry Invoke) (length pages)).
Proof.
  intros Hs Hm. induction Hs as [token w page w' Hcall Hlast
                                |token w page next pages w' w'' Hcall Hnext Htruthy Hs IH];
    intros fuel acc Hfuel; (destruct fuel as [|fuel]; [cbn in Hfuel; lia|]);
    cbn [Drive.listPages]; rewrite (awaitRetry_answer cfg random _ w w' page Hm Hcall).
  - unfold filesOf. cbn [List.map List.concat]. rewrite app_nil_r.
    destruct (nextPageToken page) as [tok|]; [|reflexivity].
    cbn in Hlast. rewrite Hlast. reflexivity.
  - rewrite Hnext, Htruthy. rewrite IH by (cbn in Hfuel; lia).
    unfold filesOf. cbn [List.map List.concat length repeat app].
    now rewrite app_assoc.
Qed.

(** X14. [listOwnedSpreadsheets] follows the page tokens: when the service
    hands out the listing on [n] pages, the function makes [n] requests, each
    with the token of the page before, and returns the files of all pages in
    the order of the pages; a page without files adds none, and a missing or
    empty token ends the loop. *)
Theorem listOwnedSpreadsheets_pages (fuel : nat) (c : Client) (w w' : W)
    (pages : list FileList) :
  0 <= maxRetries cfg -> is_set (drive c) = true ->
  Drive.serves files_list None w pages w' -> (length pages <= fuel)%nat ->
  Drive.listOwnedSpreadsheets cfg random files_list fuel c w
  = (Finished (Normal (filesOf pages)), w', repeat (Retry Invoke) (length pages)).
Proof.
  intros Hm Hc Hs Hfuel. unfold Drive.listOwnedSpreadsheets. cbn [entryGuard].
  rewrite Hc. cbn [negb].
  now rewrite (listPages_serves None w w' pages Hs Hm fuel [] Hfuel).
Qed.

Lemma find_first (name : string) (before after : list SpreadsheetFile) (sheet : SpreadsheetFile) :
  Forall (fun other => file_name other <> name) before -> file_name sheet = name ->
  List.find (fun s => String.eqb (file_name s) name) (before ++ sheet :: after) = Some sheet.
Proof.
  intros Hb Hs. induction Hb as [|other before Hother _ IH]; cbn [app List.find].
  - now rewrite (proj2 (String.eqb_eq _ _) Hs).
  - now rewrite (proj2 (String.eqb_neq _ _) Hother).
Qed.

(** X15. [createSheet] creates nothing under a name that is taken: when the
    listing holds a spreadsheet of that name, the identifier of the first
    such spreadsheet is returned straight after the listing; no spreadsheet
    is created, the tabs asked for are not added and nothing is shared. *)
Theorem createSheet_existing_name (fuel : nat) (c : Client) (name : string)
    (tabs : list string) (w w0 : W) (t0 : list Trace)
    (before after : list SpreadsheetFile) (sheet : SpreadsheetFile) :
  is_set (sheets c) = true -> is_set (drive c) = true ->
  Drive.listOwnedSpreadsheets cfg random files_list fuel c w
  = (Finished (Normal (before ++ sheet :: after)), w0, t0) ->
  Forall (fun other => file_name other <> name) before -> file_name sheet = name ->
  Drive.createSheet cfg random files_list spreadsheets_create batchUpdate permissions_create
    environment fuel c name tabs w
  = (Finished (Normal (Some (file_id sheet))), w0, t0).
Proof.
  intros Hs Hd Hlist Hbefore Hname. unfold Drive.createSheet. cbn [entryGuard].
  rewrite Hs, Hd. cbn [andb negb]. rewrite Hlist.
  now rewrite (find_first name before after sheet Hbefore Hname).
Qed.
End DriveFacts.

Lemma twoPages_serves : Drive.serves twoPages None O
  [mkFileList (Some [mkFile "id1" "alpha"; mkFile "id2" "beta"]) (Some "p2");
   mkFileList (Some [mkFile "id3" "alpha"]) None] 2%nat.
Proof.
  eapply Drive.serves_more; [reflexivity|reflexivity|reflexivity|].
  apply Drive.serves_last; reflexivity.
Defined.

Lemma twoPages_listed :
  Drive.listOwnedSpreadsheets defaultConfig (fun _ => 0%Q) twoPages 2 initialized O
  = (Finished (Normal [mkFile "id1" "alpha"; mkFile "id2" "beta"; mkFile "id3" "alpha"]),
     2%nat, [Retry Invoke; Retry Invoke]).
Proof. reflexivity. Defined.

Lemma listOwnedSpreadsheets_pages_witness :
  Drive.listOwnedSpreadsheets defaultConfig (fun _ => 0%Q) twoPages 2 initialized O
  = (Finished (Normal [mkFile "id1" "alpha"; mkFile "id2" "beta"; mkFile "id3" "alpha"]),
     2%nat, [Retry Invoke; Retry Invoke]).
Proof.
  apply (listOwnedSpreadsheets_pages defaultConfig (fun _ => 0%Q) twoPages 2 initialized O
           2%nat _ ltac:(cbn; lia) eq_refl twoPages_serves ltac:(cbn; lia)).
Defined.

Lemma createSheet_existing_name_witness :
  Drive.createSheet defaultConfig (fun _ => 0%Q) twoPages
    (fun _ (w : nat) => (Normal (Some "new"), w)) (fun _ _ (w : nat) => (Normal None, w))
    (fun _ _ (w : nat) => (Normal JNull, w)) "dev" 2 initialized "alpha" ["Users"] O
  = (Finished (Normal (Some "id1")), 2%nat, [Retry Invoke; Retry Invoke]).
Proof.
  apply (createSheet_existing_name defaultConfig (fun _ => 0%Q) twoPages
           (fun _ (w : nat) => (Normal (Some "new"), w)) (fun _ _ (w : nat) => (Normal None, w))
           (fun _ _ (w : nat) => (Normal JNull, w)) "dev" 2 initialized "alpha" ["Users"]
           O 2%nat [Retry Invoke; Retry Invoke]
           [] [mkFile "id2" "beta"; mkFile "id3" "alpha"] (mkFile "id1" "alpha")
           eq_refl eq_refl twoPages_listed (Forall_nil_2 _) eq_refl).
Defined.

(** ** Reading: [getSheet], [getRange] and [appendToSheet] *)

Lemma fold_set_add_absorb (keys : list string) :
  forall acc : list string,
    (forall k, In k keys -> In k acc) -> fold_left set_add keys acc = acc.
Proof.
  induction keys as [|k keys IH]; intros acc Hin; cbn [fold_left]; [reflexivity|].
  replace (set_add acc k) with acc.
  - apply IH. intros k' Hk'. apply Hin. now right.
  - unfold set_add. now rewrite (proj2 (existsb_eqb_In k acc) (Hin k (or_introl eq_refl))).
Qed.

Lemma getUniqueKeys_same_keys (cols : list string) (first : JsObject) (rest : list JsObject) :
  distinct cols = true ->
  Forall (fun record => Object_keys record = cols) (first :: rest) ->
  getUniqueKeys (first :: rest) = cols.
Proof.
  intros Hd Hall. apply Forall_cons_1 in Hall as [Hfirst Hrest].
  unfold getUniqueKeys. cbn [fold_left]. rewrite Hfirst.
  rewrite (fold_set_add_distinct cols [] Hd). cbn [app].
  induction Hrest as [|record rest Hrecord _ IH]; cbn [fold_left]; [reflexivity|].
  rewrite Hrecord. now rewrite (fold_set_add_absorb cols cols (fun k H => H)).
Qed.

Lemma is_nullish_or_empty (v : JsValue) : is_nullish (js_or v (JStr EmptyString)) = false.
Proof.
  unfold js_or. destruct (js_truthy v) eqn:E; [|reflexivity].
  destruct v; try reflexivity; discriminate E.
Qed.

(** The line of the CSV text for one row read from a sheet. *)
Lemma csvRow_of_row (charLimit : Z) (cols : list string) (row : Row) :
  distinct cols = true -> Forall (fun col => insertionKey col = true) cols ->
  csvRow charLimit cols (reduceHeaders 0 (List.map JStr cols) row [])
  = (String.concat ","
       (imap (fun j _ =>
                quoted (replace_quotes (quote ++ quote)
                          (cellText charLimit (js_or (arr_get row j) (JStr EmptyString)))))
             cols) ++ LF)%string.
Proof.
  intros Hd Hins. unfold csvRow. do 2 f_equal.
  rewrite (reduceHeaders_imap cols 0 row [] Hd Hins (fun k _ H => H)). cbn [app Nat.add].
  apply list_eq. intros j. rewrite list_lookup_fmap, list_lookup_imap.
  destruct (cols !! j) as [col|] eqn:Hj; [|reflexivity]. cbn [fmap option_fmap option_map].
  unfold csvCell.
  rewrite (obj_get_imap cols (fun j => js_or (arr_get row j) (JStr EmptyString)) j col Hd Hj).
  now rewrite is_nullish_or_empty.
Qed.

Lemma makeCSVFromData_of_rows (cols : list string) (row : Row) (rows : list Row) :
  distinct cols = true -> Forall (fun col => insertionKey col = true) cols ->
  makeCSVFromData (convertValuesToObjects (List.map JStr cols :: row :: rows)) defaultCharLimit
  = ((String.concat "," cols ++ LF)
       ++ String.concat EmptyString
            (List.map (fun r =>
               String.concat ","
                 (imap (fun j _ =>
                    quoted (replace_quotes (quote ++ quote)
                              (cellText defaultCharLimit
                                 (js_or (arr_get r j) (JStr EmptyString)))))
                    cols) ++ LF)
               (row :: rows)))%string.
Proof.
  intros Hd Hins. cbn [convertValuesToObjects List.map].
  rewrite makeCSVFromData_lines. cbn zeta.
  rewrite getUniqueKeys_same_keys with (cols := cols); [|exact Hd|].
  - f_equal. f_equal. cbn [List.map]. f_equal.
    + apply (csvRow_of_row defaultCharLimit cols row Hd Hins).
    + rewrite List.map_map. apply List.map_ext. intros r.
      apply (csvRow_of_row defaultCharLimit cols r Hd Hins).
  - assert (Hkeys : forall r, Object_keys (reduceHeaders 0 (List.map JStr cols) r []) = cols).
    { intros r. rewrite (reduceHeaders_imap cols 0 r [] Hd Hins (fun k _ H => H)).
      cbn [app Nat.add].
      apply (Object_keys_imap (fun j => js_or (arr_get r j) (JStr EmptyString))). }
    constructor; [apply Hkeys|].
    apply List.Forall_map, List.Forall_forall. intros r _. apply Hkeys.
Qed.

Section ReadingFacts.
Context {W : Type}.
Variable cfg : Config.
Variable random : nat -> Q.
Variable values_get : string -> string -> W -> Completion (option (list Row)) * W.
Variable values_append : string -> string -> list JsValue -> W -> Completion (option JsValue) * W.
Variable Papa_parse_data : string -> list (list string).
Variable Papa_parse_array : list JsValue -> Completion (list JsValue).

(** A request that fails once with a retryable error and is answered the
    second time. *)
Lemma awaitRetry_second_answer {T : Type} (call : W -> Completion T * W)
    (w w1 w2 : W) (e : JsError) (v : T) :
  1 <= maxRetries cfg -> isRetryableError e = true ->
  call w = (Throw e, w1) -> call w1 = (Normal v, w2) ->
  awaitRetry cfg random call w
  = (Finished (Normal (Some v)), w2,
     [Retry Invoke;
      Retry (LogWarn 1 (Math_round (backoffDelay 0 (random 0%nat) (maxBackoffMs cfg)))
               (isQuotaError e));
      Retry (Sleep (backoffDelay 0 (random 0%nat) (maxBackoffMs cfg)));
      Retry Invoke]).
Proof.
  intros Hm He H1 H2. unfold awaitRetry, retryWithBackoff. cbn [default].
  unfold loopBound.
  replace (Z.to_nat (maxRetries cfg + 1)) with (S (S (Z.to_nat (maxRetries cfg - 1)))) by lia.
  cbn [retry_loop].
  replace (Z.of_nat 0 <=? maxRetries cfg) with true by (symmetry; apply Z.leb_le; lia).
  replace (Z.of_nat 1 <=? maxRetries cfg) with true by (symmetry; apply Z.leb_le; lia).
  rewrite H1, He.
  replace (maxRetries cfg <=? Z.of_nat 0) with false by (symmetry; apply Z.leb_gt; lia).
  cbn [negb orb]. rewrite H2. reflexivity.
Qed.

(** X16. [getSheet] with the format csv, in any letter case, on a sheet
    whose header holds distinct names, none of them an array index or
    [__proto__], and that has at least one data row: the text opens with the header names in the sheet's column order, joined
    by commas and not quoted, and has one line per data row with one cell per
    header column; every data cell is quoted, also an empty or missing one,
    and holds the text of the cell. *)
Theorem getSheet_csv_text (c : Client) (spreadsheetId : string) (tab : option string)
    (format : string) (cols : list string) (row : Row) (rows : list Row) (w w1 : W) :
  0 <= maxRetries cfg -> is_set (sheets c) = true -> toLowerCase format = "csv" ->
  distinct cols = true -> Forall (fun col => insertionKey col = true) cols ->
  values_get spreadsheetId (tabRange tab "A:ZZ") w
  = (Normal (Some (List.map JStr cols :: row :: rows)), w1) ->
  getSheet cfg random values_get c spreadsheetId tab format w
  = (Finished (Normal (AsCsv
       ((String.concat "," cols ++ LF)
          ++ String.concat EmptyString
               (List.map (fun r =>
                  String.concat ","
                    (imap (fun j _ =>
                       quoted (replace_quotes (quote ++ quote)
                                 (cellText defaultCharLimit
                                    (js_or (arr_get r j) (JStr EmptyString)))))
                       cols) ++ LF)
                  (row :: rows)))%string)),
     w1, [Retry Invoke]).
Proof.
  intros Hm Hc Hf Hd Hins Hread. unfold getSheet. cbn [entryGuard]. rewrite Hc. cbn [negb].
  rewrite (awaitRetry_answer cfg random _ w w1 _ Hm Hread).
  unfold formatValues. rewrite Hf, String.eqb_refl.
  change (default [] (mjoin (Some (Some (List.map JStr cols :: row :: rows)))))
    with (List.map JStr cols :: row :: rows).
  now rewrite (makeCSVFromData_of_rows cols row rows Hd Hins).
Qed.

(** X17. [getRange] does not retry: a retryable failure of its one request
    is thrown at once, where [getSheet], reading the same range of the same
    service, waits and asks again and returns the rows. *)
Theorem getRange_not_retried (c : Client) (spreadsheetId : string) (tab : option string)
    (format : string) (values : list Row) (e : JsError) (w w1 w2 : W) :
  1 <= maxRetries cfg -> is_set (sheets c) = true -> isRetryableError e = true ->
  values_get spreadsheetId (tabRange tab "A:ZZ") w = (Throw e, w1) ->
  values_get spreadsheetId (tabRange tab "A:ZZ") w1 = (Normal (Some values), w2) ->
  getRange values_get c spreadsheetId "A:ZZ" tab format w = (Throw e, w1) /\
  getSheet cfg random values_get c spreadsheetId tab format w
  = (Finished (Normal (formatValues format values)), w2,
     [Retry Invoke;
      Retry (LogWarn 1 (Math_round (backoffDelay 0 (random 0%nat) (maxBackoffMs cfg)))
               (isQuotaError e));
      Retry (Sleep (backoffDelay 0 (random 0%nat) (maxBackoffMs cfg)));
      Retry Invoke]).
Proof.
  intros Hm Hc He H1 H2. split.
  - unfold getRange. cbn [entryGuard]. rewrite Hc. cbn [negb]. now rewrite H1.
  - unfold getSheet. cbn [entryGuard]. rewrite Hc. cbn [negb].
    now rewrite (awaitRetry_second_answer _ w w1 w2 e _ Hm He H1 H2).
Qed.

(** X18. [appendToSheet] with records: the rows go to column A of the row
    after the rows read, each record projected onto the header of the sheet
    (row 0 of what was read), one cell per header column; on a sheet read as
    empty there is no header, so every record is sent as an empty row. *)
Theorem appendToSheet_records (c : Client) (spreadsheetId : string) (tab : option string)
    (existingData : list Row) (first : JsObject) (rest : list JsObject)
    (data : JsValue) (w w0 w1 : W) (t0 : list Trace) :
  0 <= maxRetries cfg -> is_set (sheets c) = true ->
  getSheetArray cfg random values_get c spreadsheetId tab w
  = (Finished (Normal existingData), w0, t0) ->
  values_append spreadsheetId
    (tabRange tab ("A" ++ string_of_Z (Z.of_nat (length existingData) + 1))%string)
    (List.map (fun item => JArr (projected (default [] (existingData !! 0%nat)) item))
       (first :: rest)) w0
  = (Normal (Some data), w1) ->
  appendToSheet cfg random values_get values_append Papa_parse_data Papa_parse_array
    c spreadsheetId (Records (first :: rest)) tab w
  = (Finished (Normal data), w1, t0 ++ [Retry Invoke]) /\
  (forall item, length (projected (default [] (existingData !! 0%nat)) item)
                = length (default [] (existingData !! 0%nat))) /\
  (existingData = [] ->
   List.map (fun item => JArr (projected (default [] (existingData !! 0%nat)) item))
     (first :: rest)
   = repeat (JArr []) (length (first :: rest))).
Proof.
  intros Hm Hc Hread Happend. split; [|split].
  - unfold appendToSheet. cbn [entryGuard]. rewrite Hc. cbn [negb]. rewrite Hread.
    cbn [appendValues]. unfold appendRange.
    now rewrite (awaitRetry_answer cfg random _ w0 w1 _ Hm Happend).
  - intros item. apply length_map.
  - intros ->. generalize (first :: rest). intros items.
    induction items as [|item items IH]; [reflexivity|].
    cbn [List.map length repeat]. rewrite IH. reflexivity.
Qed.
End ReadingFacts.

Lemma getSheet_csv_text_witness :
  getSheet defaultConfig (fun _ => 0%Q) twoRows initialized "abc" (Some "T") "CSV" O
  = (Finished (Normal (AsCsv ("a,b" ++ LF ++ quoted "1" ++ "," ++ quoted "2" ++ LF)%string)),
     O, [Retry Invoke]).
Proof.
  apply (getSheet_csv_text defaultConfig (fun _ => 0%Q) twoRows initialized "abc" (Some "T")
           "CSV" ["a"; "b"] [JStr "1"; JStr "2"] [] O O ltac:(cbn; lia)
           eq_refl eq_refl eq_refl ltac:(repeat constructor) eq_refl).
Defined.

(** Header names that spell array indices come first in the text, as they
    do in the records. *)
Example formatValues_csv_index_names :
  formatValues "csv" [[JStr "name"; JStr "2024"; JStr "2023"]; [JStr "a"; JStr "b"; JStr "c"]]
  = AsCsv ("2023,2024,name" ++ LF
             ++ quoted "c" ++ "," ++ quoted "b" ++ "," ++ quoted "a" ++ LF)%string.
Proof. vm_compute. reflexivity. Qed.

Lemma getRange_not_retried_witness :
  getRange flakyRead initialized "abc" "A:ZZ" None "array" O
  = (Throw (mkError (JNum 503) "Service Unavailable"), 1%nat) /\
  getSheet defaultConfig (fun _ => 0%Q) flakyRead initialized "abc" None "array" O
  = (Finished (Normal (AsArray [[JStr "a"; JStr "b"]; [JStr "1"; JStr "2"]])), 2%nat,
     [Retry Invoke; Retry (LogWarn 1 1000 false); Retry (Sleep (1000 # 1)); Retry Invoke]).
Proof.
  apply (getRange_not_retried defaultConfig (fun _ => 0%Q) flakyRead initialized "abc" None
           "array" [[JStr "a"; JStr "b"]; [JStr "1"; JStr "2"]]
           (mkError (JNum 503) "Service Unavailable") O 1%nat 2%nat ltac:(cbn; lia)
           eq_refl eq_refl eq_refl eq_refl).
Defined.

Lemma appendToSheet_records_witness :
  appendToSheet defaultConfig (fun _ => 0%Q) twoRows appendOk (fun _ => []) (fun _ => Normal [])
    initialized "abc" (Records [[("b", JStr "4"); ("c", JStr "5")]]) (Some "T") O
  = (Finished (Normal (JObj [("updatedRange", JStr "T!A3")])), O, [Retry Invoke; Retry Invoke]).
Proof.
  apply (appendToSheet_records defaultConfig (fun _ => 0%Q) twoRows appendOk (fun _ => [])
           (fun _ => Normal []) initialized "abc" (Some "T")
           [[JStr "a"; JStr "b"]; [JStr "1"; JStr "2"]] [("b", JStr "4"); ("c", JStr "5")] []
           (JObj [("updatedRange", JStr "T!A3")]) O O O [Retry Invoke] ltac:(cbn; lia)
           eq_refl eq_refl eq_refl).
Defined.

(** ** Tabs *)

Lemma findTab_titles (name : string) (info_sheets : option (list SheetProperties))
    (sheet : SheetProperties) :
  findTab name info_sheets = Some sheet ->
  existsb (String.eqb name) (tabTitles info_sheets) = true /\ sheet_title sheet = name.
Proof.
  destruct info_sheets as [sheets0|]; [|discriminate]. cbn [findTab tabTitles].
  intros H. apply List.find_some in H as [Hin Heq]. apply String.eqb_eq in Heq.
  split; [|exact Heq]. apply existsb_eqb_In. rewrite <- Heq. now apply List.in_map.
Qed.

Lemma findTab_none (name : string) (info_sheets : option (list SheetProperties)) :
  findTab name info_sheets = None ->
  existsb (String.eqb name) (tabTitles info_sheets) = false.
Proof.
  destruct info_sheets as [sheets0|]; [|reflexivity]. cbn [findTab tabTitles].
  intros H. apply existsb_eqb_not_In. intros Hin. apply List.in_map_iff in Hin as (s & Hs & Hin).
  pose proof (List.find_none _ _ H s Hin) as Hne. cbn in Hne.
  apply String.eqb_neq in Hne. exact (Hne Hs).
Qed.

Section TabFacts.
Context {W : Type}.
Variable cfg : Config.
Variable random : nat -> Q.
Variable spreadsheets_get_info : string -> W -> Completion (option (list SheetProperties)) * W.
Variable batchUpdate :
  option string -> list Request -> W -> Completion (option ReplyProperties) * W.

Local Abbreviation info := (getSheetInfo cfg random spreadsheets_get_info).

(** X19. A tab that the spreadsheet does not hold: [deleteTab], [renameTab]
    and [duplicateTab] throw their not-found error straight after reading the
    sheet information and send no request; the world and the events are
    those of the read.  [renameTab] and [duplicateTab] report the missing tab
    before they look at the new name. *)
Theorem missing_tab_is_reported (c : Client) (spreadsheetId tabName newName : string)
    (newTabName : option string) (info_sheets : option (list SheetProperties))
    (w w0 : W) (t0 : list Trace) :
  is_set (sheets c) = true ->
  info c spreadsheetId w = (Finished (Normal info_sheets), w0, t0) ->
  findTab tabName info_sheets = None ->
  deleteTab cfg random spreadsheets_get_info batchUpdate c spreadsheetId tabName w
  = (Finished (Throw (tabNotFound tabName)), w0, t0) /\
  renameTab cfg random spreadsheets_get_info batchUpdate c spreadsheetId tabName newName w
  = (Finished (Throw (tabNotFound tabName)), w0, t0) /\
  duplicateTab cfg random spreadsheets_get_info batchUpdate c spreadsheetId tabName newTabName w
  = (Finished (Throw (sourceTabNotFound tabName)), w0, t0).
Proof.
  intros Hc Hinfo Hnone.
  unfold deleteTab, renameTab, duplicateTab. cbn [entryGuard]. rewrite Hc. cbn [negb].
  rewrite Hinfo, Hnone. auto.
Qed.

(** X20. A tab name that is taken: [addTab] with the name of a tab of the
    spreadsheet, and [renameTab] and [duplicateTab] of a tab of the
    spreadsheet to such a name, throw the already-exists error and send no
    request. *)
Theorem taken_tab_name_is_refused (c : Client) (spreadsheetId tabName taken : string)
    (options : TabOptions) (info_sheets : option (list SheetProperties))
    (w w0 : W) (t0 : list Trace) :
  is_set (sheets c) = true ->
  info c spreadsheetId w = (Finished (Normal info_sheets), w0, t0) ->
  In tabName (tabTitles info_sheets) -> In taken (tabTitles info_sheets) ->
  taken <> EmptyString ->
  addTab cfg random spreadsheets_get_info batchUpdate c spreadsheetId taken options w
  = (Finished (Throw (tabExists taken)), w0, t0) /\
  renameTab cfg random spreadsheets_get_info batchUpdate c spreadsheetId tabName taken w
  = (Finished (Throw (tabExists taken)), w0, t0) /\
  duplicateTab cfg random spreadsheets_get_info batchUpdate c spreadsheetId tabName
    (Some taken) w
  = (Finished (Throw (tabExists taken)), w0, t0).
Proof.
  intros Hc Hinfo Hsource Htaken Hne.
  apply existsb_eqb_In in Htaken.
  destruct (findTab tabName info_sheets) as [sheet|] eqn:Hfind.
  - unfold addTab, renameTab, duplicateTab. cbn [entryGuard]. rewrite Hc. cbn [negb].
    rewrite Hinfo, Hfind. cbn [finalNewName].
    replace (str_truthy taken) with true by (destruct taken; [contradiction|reflexivity]).
    rewrite Htaken. auto.
  - apply findTab_none in Hfind. apply existsb_eqb_In in Hsource. congruence.
Qed.

(** X21. [renameTab] never renames a tab to its own name: whatever the
    spreadsheet holds, the call throws (the tab is missing, or its name
    exists already) and sends no request. *)
Theorem renameTab_to_same_name (c : Client) (spreadsheetId name : string)
    (info_sheets : option (list SheetProperties)) (w w0 : W) (t0 : list Trace) :
  is_set (sheets c) = true ->
  info c spreadsheetId w = (Finished (Normal info_sheets), w0, t0) ->
  renameTab cfg random spreadsheets_get_info batchUpdate c spreadsheetId name name w
  = (Finished (Throw (if existsb (String.eqb name) (tabTitles info_sheets)
                      then tabExists name else tabNotFound name)), w0, t0).
Proof.
  intros Hc Hinfo. unfold renameTab. cbn [entryGuard]. rewrite Hc. cbn [negb]. rewrite Hinfo.
  destruct (findTab name info_sheets) as [sheet|] eqn:Hfind.
  - apply findTab_titles in Hfind as [Hex _]. now rewrite Hex.
  - now rewrite (findTab_none _ _ Hfind).
Qed.

(** X22. [duplicateTab] without a new name, or with the empty string,
    asks for a copy named Copy of followed by the source name, of the first
    sheet with the source title; the identifier and title in the reply are
    the result.  A second copy under the default name is refused, the first
    copy holding the name. *)
Theorem duplicateTab_default_name (c : Client) (spreadsheetId sourceTabName : string)
    (sourceSheet : SheetProperties) (info_sheets : option (list SheetProperties))
    (reply : option ReplyProperties) (w w0 w1 : W) (t0 : list Trace) :
  0 <= maxRetries cfg -> is_set (sheets c) = true ->
  info c spreadsheetId w = (Finished (Normal info_sheets), w0, t0) ->
  findTab sourceTabName info_sheets = Some sourceSheet ->
  batchUpdate (Some spreadsheetId)
    [DuplicateSheet (sheet_sheetId sourceSheet) ("Copy of " ++ sourceTabName)%string] w0
  = (Normal reply, w1) ->
  duplicateTab cfg random spreadsheets_get_info batchUpdate c spreadsheetId sourceTabName
    (Some EmptyString) w
  = duplicateTab cfg random spreadsheets_get_info batchUpdate c spreadsheetId sourceTabName
      None w /\
  duplicateTab cfg random spreadsheets_get_info batchUpdate c spreadsheetId sourceTabName None w
  = if existsb (String.eqb ("Copy of " ++ sourceTabName)%string) (tabTitles info_sheets)
    then (Finished (Throw (tabExists ("Copy of " ++ sourceTabName)%string)), w0, t0)
    else (Finished (Normal (mkReply (reply ≫= reply_sheetId) (reply ≫= reply_title))),
          w1, t0 ++ [Retry Invoke]).
Proof.
  intros Hm Hc Hinfo Hfind Hbatch. split; [reflexivity|].
  unfold duplicateTab. cbn [entryGuard]. rewrite Hc. cbn [negb].
  rewrite Hinfo, Hfind. cbn [finalNewName].
  destruct (existsb _ (tabTitles info_sheets)); [reflexivity|].
  unfold sendRequest. now rewrite (awaitRetry_answer cfg random _ w0 w1 _ Hm Hbatch).
Qed.
End TabFacts.

Lemma twoTabs_info :
  getSheetInfo defaultConfig (fun _ => 0%Q) twoTabs initialized "abc" O
  = (Finished (Normal (Some [mkSheet 0 "Sheet1" 0 None; mkSheet 7 "Users" 1 (Some true)])),
     O, [Retry Invoke]).
Proof. reflexivity. Defined.

Lemma missing_tab_is_reported_witness :
  deleteTab defaultConfig (fun _ => 0%Q) twoTabs batchOk initialized "abc" "Orders" O
  = (Finished (Throw (tabNotFound "Orders")), O, [Retry Invoke]).
Proof.
  apply (missing_tab_is_reported defaultConfig (fun _ => 0%Q) twoTabs batchOk initialized
           "abc" "Orders" "Users" None _ O O [Retry Invoke] eq_refl twoTabs_info eq_refl).
Defined.

Lemma taken_tab_name_is_refused_witness :
  addTab defaultConfig (fun _ => 0%Q) twoTabs batchOk initialized "abc" "Users"
    (mkTabOptions None None None) O
  = (Finished (Throw (tabExists "Users")), O, [Retry Invoke]).
Proof.
  apply (taken_tab_name_is_refused defaultConfig (fun _ => 0%Q) twoTabs batchOk initialized
           "abc" "Sheet1" "Users" (mkTabOptions None None None)
           _ O O [Retry Invoke] eq_refl twoTabs_info).
  - cbn. auto.
  - cbn. auto.
  - discriminate.
Defined.

Lemma renameTab_to_same_name_witness :
  renameTab defaultConfig (fun _ => 0%Q) twoTabs batchOk initialized "abc" "Users" "Users" O
  = (Finished (Throw (tabExists "Users")), O, [Retry Invoke]).
Proof.
  apply (renameTab_to_same_name defaultConfig (fun _ => 0%Q) twoTabs batchOk initialized
           "abc" "Users" _ O O [Retry Invoke] eq_refl twoTabs_info).
Defined.

Lemma duplicateTab_default_name_witness :
  duplicateTab defaultConfig (fun _ => 0%Q) twoTabs batchOk initialized "abc" "Users" None O
  = (Finished (Normal (mkReply (Some 42) (Some "Copy of Users"))), 1%nat,
     [Retry Invoke; Retry Invoke]).
Proof.
  apply (duplicateTab_default_name defaultConfig (fun _ => 0%Q) twoTabs batchOk
           initialized "abc" "Users" (mkSheet 7 "Users" 1 (Some true)) _
           (Some (mkReply (Some 42) (Some "Copy of Users"))) O O 1%nat [Retry Invoke]
           ltac:(cbn; lia) eq_refl twoTabs_info eq_refl eq_refl).
Defined.

(** ** Credentials *)

(** X23. Where [loadCredentials] takes the credentials from: a truthy
    argument is used and the environment variable is not looked at; an object
    is returned as it is, with no file read; with a falsy argument the
    non-empty path of [SHEETS_CREDENTIALS] is loaded as if it had been the
    argument; with neither, the function throws that no credentials were
    provided. *)
Theorem loadCredentials_source (resolve : string -> string) (existsSync : string -> bool)
    (readFileSync : string -> Completion string) (JSON_parse : string -> Completion JsValue)
    (env : option string) (credentialsInput : JsValue) :
  let load env' := loadCredentials env' resolve existsSync readFileSync JSON_parse in
  (js_truthy credentialsInput = true ->
   load env credentialsInput = load None credentialsInput) /\
  (forall fields, load env (JObj fields) = Normal (JObj fields)) /\
  (forall path, js_truthy credentialsInput = false -> env = Some path ->
     str_truthy path = true ->
     load env credentialsInput = load None (JStr path)) /\
  (js_truthy credentialsInput = false -> from_option str_truthy false env = false ->
   load env credentialsInput = Throw noCredentials).
Proof.
  intros load. subst load. cbn beta. unfold loadCredentials.
  split; [|split; [|split]].
  - intros ->. reflexivity.
  - intros fields. reflexivity.
  - intros path Hfalsy -> Hpath. rewrite Hfalsy.
    cbn [from_option negb andb js_truthy]. rewrite Hpath. cbn [negb andb]. reflexivity.
  - intros Hfalsy Henv. rewrite Hfalsy, Henv. cbn [negb andb]. now rewrite Hfalsy.
Qed.
